(** * Conversational-AI: the session store and the chained-call handlers

    A shallow embedding of [src/main.py]: the three [safe_*] helpers that
    wrap the external collaborators (AssemblyAI transcription, Gemini
    generation, Murf synthesis), the request handlers that chain them, and
    the in-memory session store [chat_histories].

    Conventions of the embedding.
    - A Python [str] is the list of its Unicode code points.
    - A Python value that may be [None] is an [option].
    - [if x:] on a string (or an optional string) is Python truthiness:
      [None] and the empty string are false.
    - The handlers run in a small state-and-exception monad [M].  The state
      holds the global dict [chat_histories] and a log of the calls made to
      the helpers and to the collaborators behind them.
    - An exception is represented by the text [str(e)], which is all the
      source ever uses of it.  [Raises] stands for an exception that is an
      instance of [Exception], the ones [except Exception] catches.
      Exceptions outside that class (a cancelled request, an interrupt)
      end the request wherever they occur and are not part of the model.
    - [JSONResponse(content=...)] renders its content when it is built,
      with [json.dumps] and the UTF-8 codec, and raises when the content
      holds a lone surrogate.  A handler that returns a plain dict leaves
      the rendering to the framework, after the handler has returned.
    - Logging through [logger] has no effect on results and is left out. *)

From Stdlib Require Import String Ascii NArith List Bool.
From Stdlib Require Import DecimalString.
From stdpp Require Import base option list gmap.

Set Warnings "-register-all".
Local Open Scope N_scope.

(** ** Python strings and truthiness *)

Module Py.

Definition str : Type := list N.

(** A source literal, as code points. *)
Definition lit (s : string) : str :=
  List.map N_of_ascii (list_ascii_of_string s).

Definition truthy (s : str) : bool :=
  match s with
  | [] => false
  | _ :: _ => true
  end.

(** Truthiness of a value that is a string or [None]. *)
Definition truthy_opt (o : option str) : bool :=
  match o with
  | Some s => truthy s
  | None => false
  end.

(** [f"{x}"] for a value that is a string or [None]. *)
Definition format (o : option str) : str :=
  match o with
  | Some s => s
  | None => lit "None"
  end.

(** [str(n)] for a non-negative integer. *)
Definition str_of_nat (n : nat) : str :=
  lit (NilEmpty.string_of_uint (Nat.to_uint n)).

(** The characters [str.strip()] removes: those for which
    [str.isspace()] holds. *)
Definition isspace (c : N) : bool :=
  ((9 <=? c) && (c <=? 13))
  || ((28 <=? c) && (c <=? 31))
  || (c =? 32) || (c =? 133) || (c =? 160) || (c =? 5760)
  || ((8192 <=? c) && (c <=? 8202))
  || (c =? 8232) || (c =? 8233) || (c =? 8239) || (c =? 8287)
  || (c =? 12288).

Fixpoint lstrip (s : str) : str :=
  match s with
  | [] => []
  | c :: s' => if isspace c then lstrip s' else s
  end.

Definition rstrip (s : str) : str := rev (lstrip (rev s)).

Definition strip (s : str) : str := rstrip (lstrip s).

(** The message of the [TypeError] raised by [str + None]. *)
Definition concat_None_msg : str :=
  lit "can only concatenate str (not " ++ [34] ++ lit "NoneType"
    ++ [34] ++ lit ") to str".

(** *** [json.dumps] and the UTF-8 codec *)

(** The code points that UTF-8 does not encode: the surrogates. *)
Definition is_surrogate (c : N) : bool := (55296 <=? c) && (c <=? 57343).

(** [s.encode("utf-8")] succeeds. *)
Definition encodable (s : str) : bool :=
  forallb (fun c => negb (is_surrogate c)) s.

Definition hex_digit (d : N) : N := if d <? 10 then 48 + d else 87 + d.

(** ['{0:04x}'.format(c)] *)
Definition hex4 (c : N) : str :=
  [ hex_digit (c / 4096 mod 16); hex_digit (c / 256 mod 16);
    hex_digit (c / 16 mod 16); hex_digit (c mod 16) ].

(** How [json.dumps(..., ensure_ascii=False)] writes one character of a
    string: the quote, the backslash and the control characters are
    escaped, every other character stands for itself. *)
Definition escape (c : N) : str :=
  if c =? 34 then [92; 34]
  else if c =? 92 then [92; 92]
  else if c =? 10 then [92; 110]
  else if c =? 13 then [92; 114]
  else if c =? 9 then [92; 116]
  else if c =? 8 then [92; 98]
  else if c =? 12 then [92; 102]
  else if c <? 32 then [92; 117] ++ hex4 c
  else [c].

Definition encode_basestring (s : str) : str :=
  [34] ++ concat (List.map escape s) ++ [34].

(** The number of surrogates at the head of [s]. *)
Fixpoint leading_surrogates (s : str) : nat :=
  match s with
  | [] => 0%nat
  | c :: s' => if is_surrogate c then S (leading_surrogates s') else 0%nat
  end.

(** The start of the first run of surrogates of [s], counted from [i],
    with its first character and its length. *)
Fixpoint first_surrogates (s : str) (i : nat) : option (nat * N * nat) :=
  match s with
  | [] => None
  | c :: s' =>
      if is_surrogate c
      then Some (i, c, S (leading_surrogates s'))
      else first_surrogates s' (S i)
  end.

(** [s.encode("utf-8")]: [None] when it succeeds, otherwise the text of
    the [UnicodeEncodeError] it raises. *)
Definition utf8_error (s : str) : option str :=
  match first_surrogates s 0 with
  | None => None
  | Some (start, c, 1%nat) =>
      Some (lit "'utf-8' codec can't encode character '" ++ [92; 117] ++ hex4 c
              ++ lit "' in position " ++ str_of_nat start
              ++ lit ": surrogates not allowed")
  | Some (start, _, len) =>
      Some (lit "'utf-8' codec can't encode characters in position "
              ++ str_of_nat start ++ lit "-" ++ str_of_nat (start + len - 1)
              ++ lit ": surrogates not allowed")
  end.

(** JSON-serialisable values, as they appear in response bodies.  A dict
    keeps its keys in insertion order. *)
Inductive value : Type :=
| VNone
| VBool (b : bool)
| VInt (n : nat)
| VStr (s : str)
| VList (l : list value)
| VDict (d : list (string * value)).

Definition of_opt (o : option str) : value :=
  match o with
  | Some s => VStr s
  | None => VNone
  end.

Definition dict : Type := list (string * value).

Notation "k =: v" := (pair k%string v)
  (at level 70, no associativity, only parsing).

Fixpoint dict_get (k : string) (d : dict) : option value :=
  match d with
  | [] => None
  | (k', v) :: d' => if String.eqb k k' then Some v else dict_get k d'
  end.

(** [d[k] = v]: replaces the value of an existing key in place, appends
    a new key at the end. *)
Fixpoint dict_set (k : string) (v : value) (d : dict) : dict :=
  match d with
  | [] => [(k, v)]
  | (k', v') :: d' =>
      if String.eqb k k' then (k', v) :: d' else (k', v') :: dict_set k v d'
  end.

(** [d.update(u)] *)
Definition dict_update (u : dict) (d : dict) : dict :=
  fold_left (fun acc kv => dict_set (fst kv) (snd kv) acc) u d.

(** [json.dumps(v, ensure_ascii=False, separators=(",", ":"))] *)
Fixpoint dumps (v : value) : str :=
  match v with
  | VNone => lit "null"
  | VBool true => lit "true"
  | VBool false => lit "false"
  | VInt n => str_of_nat n
  | VStr s => encode_basestring s
  | VList l =>
      [91]
        ++ (fix items (l : list value) : str :=
              match l with
              | [] => []
              | x :: l' =>
                  dumps x ++ match l' with [] => [] | _ :: _ => [44] ++ items l' end
              end) l
        ++ [93]
  | VDict d =>
      [123]
        ++ (fix members (d : list (string * value)) : str :=
              match d with
              | [] => []
              | (k, x) :: d' =>
                  encode_basestring (lit k) ++ [58] ++ dumps x
                    ++ match d' with [] => [] | _ :: _ => [44] ++ members d' end
              end) d
        ++ [125]
  end.

(** No string inside the value holds a lone surrogate. *)
Fixpoint value_encodable (v : value) : bool :=
  match v with
  | VStr s => encodable s
  | VList l =>
      (fix all (l : list value) : bool :=
         match l with
         | [] => true
         | x :: l' => value_encodable x && all l'
         end) l
  | VDict d =>
      (fix all (d : list (string * value)) : bool :=
         match d with
         | [] => true
         | (_, x) :: d' => value_encodable x && all d'
         end) d
  | _ => true
  end.

(** [fallback_messages.get(error_type, default)] over string keys. *)
Fixpoint get_default (k : str) (d : list (str * str)) (default : str) : str :=
  match d with
  | [] => default
  | (k', v) :: d' =>
      if decide (k = k') then v else get_default k d' default
  end.

Arguments lit s%_string : simpl never.
Arguments dict_get k%_string d.
Arguments dict_set k%_string v d.

End Py.

Import Py.

(** ** Outcomes, the session store and the monad of the handlers *)

(** What a Python call does: return a value or raise an exception [e],
    kept as [str(e)]. *)
Inductive outcome (A : Type) : Type :=
| Returns (a : A)
| Raises (msg : str).

Arguments Returns {A} a.
Arguments Raises {A} msg.

Definition bytes : Type := list Byte.byte.

(** One message of a transcript: the dict [{"role": ..., "content": ...}]. *)
Record turn : Type := Turn {
  role : str;
  content : option str
}.

(** Calls observed during a request: entries into the three helpers, the
    calls that reach the collaborators behind them, the file write of the
    upload handler, and each [append] to a transcript. *)
Inductive event : Type :=
| Call_safe_transcribe_audio (audio_data : bytes)
| Call_safe_generate_llm_response
    (prompt : option str) (conversation_history : option (list turn))
| Call_safe_generate_tts (text : option str)
| Transcriber_transcribe (audio_data : bytes)
| GenerativeModel_generate_content (contents : option str)
| AsyncClient_post (text : option str)
| Open_write (filename : option str) (contents : bytes)
| List_append (session_id : str) (t : turn).

(** The process state: the global [chat_histories] and the call log. *)
Record world : Type := World {
  chat_histories : gmap str (list turn);
  calls : list event
}.

Definition M (A : Type) : Type := world -> outcome A * world.

Definition ret {A} (a : A) : M A := fun w => (Returns a, w).

Definition bind {A B} (c : M A) (k : A -> M B) : M B :=
  fun w =>
    match c w with
    | (Returns a, w') => k a w'
    | (Raises e, w') => (Raises e, w')
    end.

(** [raise Exception(msg)] *)
Definition raise {A} (msg : str) : M A := fun w => (Raises msg, w).

(** [try: body  except Exception as e: handler(str(e))].  State changes
    made by [body] before the exception stay. *)
Definition try_except {A} (body : M A) (handler : str -> M A) : M A :=
  fun w =>
    match body w with
    | (Returns a, w') => (Returns a, w')
    | (Raises e, w') => handler e w'
    end.

Definition lift {A} (o : outcome A) : M A := fun w => (o, w).

Definition log_call (ev : event) : M unit :=
  fun w => (Returns tt, World (chat_histories w) (calls w ++ [ev])).

Declare Scope py_scope.
Delimit Scope py_scope with py.

Notation "'do' x <- c ; k" := (bind c (fun x => k))
  (at level 10, x name, c at level 100, k at level 200) : py_scope.
Notation "'do' ' p <- c ; k" := (bind c (fun x => match x with p => k end))
  (at level 10, p pattern, c at level 100, k at level 200) : py_scope.
Notation "c ;; k" := (bind c (fun _ => k))
  (at level 100, k at level 200, right associativity) : py_scope.

Local Open Scope py_scope.

(** [a + b] where [a] is a string and [b] may be [None]. *)
Definition add (a : str) (b : option str) : M str :=
  match b with
  | Some s => ret (a ++ s)
  | None => raise concat_None_msg
  end.

(** *** Operations on the dict [chat_histories] *)

(** [session_id in chat_histories] *)
Definition contains (session_id : str) : M bool :=
  fun w => (Returns (bool_decide (is_Some (chat_histories w !! session_id))), w).

(** [chat_histories[session_id] = value] *)
Definition setitem (session_id : str) (value : list turn) : M unit :=
  fun w => (Returns tt, World (<[session_id := value]> (chat_histories w)) (calls w)).

(** [chat_histories[session_id]]; a missing key raises [KeyError], whose
    text is [repr(session_id)]. *)
Definition getitem (repr : str -> str) (session_id : str) : M (list turn) :=
  fun w =>
    match chat_histories w !! session_id with
    | Some h => (Returns h, w)
    | None => (Raises (repr session_id), w)
    end.

(** [chat_histories[session_id].append(t)]: the list is updated in place. *)
Definition append (repr : str -> str) (session_id : str) (t : turn) : M unit :=
  do h <- getitem repr session_id;
  log_call (List_append session_id t) ;;
  setitem session_id (h ++ [t]).

(** [del chat_histories[session_id]] *)
Definition delitem (repr : str -> str) (session_id : str) : M unit :=
  fun w =>
    match chat_histories w !! session_id with
    | Some _ => (Returns tt, World (delete session_id (chat_histories w)) (calls w))
    | None => (Raises (repr session_id), w)
    end.

(** ** The environment of the service *)

(** [transcriber.transcribe] returns a transcript object (or [None]). *)
Record Transcript : Type := { transcript_text : option str }.

(** [model.generate_content] returns a response object (or [None]). *)
Record GenerateContentResponse : Type := { response_text : option str }.

(** What [client.post] returns: the status, the body, and the outcome of
    [response.json().get("audioFile")]. *)
Record HttpResponse : Type := {
  http_status_code : nat;
  http_text : str;
  http_json_audioFile : outcome (option str)
}.

(** The API keys read from the process environment, the behaviour of the
    three collaborators, and the two builtins left abstract: [repr] on
    strings and the file write of the upload handler. *)
Record env : Type := {
  MURF_API_KEY : option str;
  ASSEMBLYAI_API_KEY : option str;
  GEMINI_API_KEY : option str;
  transcribe : bytes -> outcome (option Transcript);
  generate_content : option str -> outcome (option GenerateContentResponse);
  post : option str -> outcome HttpResponse;
  repr : str -> str;
  open_write : option str -> bytes -> outcome unit;
  uuid4 : str
}.

(** An uploaded file: the outcome of [await file.read()] and its metadata. *)
Record UploadFile : Type := {
  read : outcome bytes;
  filename : option str;
  content_type : option str
}.

(** A response that has been rendered: the content it was built from and
    its status. *)
Record JSONResponse : Type := {
  body : dict;
  status_code : nat
}.

(** What a handler returns: a response it has built, or a plain dict that
    the framework is left to serialise. *)
Inductive reply : Type :=
| Rendered (r : JSONResponse)
| Plain (d : dict).

(** The text of the exception raised by rendering [content], if any. *)
Definition render_error (content : dict) : option str :=
  utf8_error (dumps (VDict content)).

(** [JSONResponse(content=content, status_code=status_code)]: the content
    is rendered at once, and a content that cannot be encoded raises
    [UnicodeEncodeError]. *)
Definition new_JSONResponse (content : dict) (status_code : nat) : M JSONResponse :=
  match render_error content with
  | None => ret {| body := content; status_code := status_code |}
  | Some msg => raise msg
  end.

(** [return JSONResponse(...)] in a handler that may also return a dict. *)
Definition rendered (c : M JSONResponse) : M reply :=
  do r <- c; ret (Rendered r).

(** ** [create_fallback_response] *)

Definition fallback_messages : list (str * str) :=
  [ (lit "stt",
     lit "I'm having trouble hearing you right now. Could you please try again?");
    (lit "llm",
     lit "I'm having difficulty processing your request at the moment. Please try again later.");
    (lit "tts",
     lit "I'm having trouble generating audio right now. Here's my text response instead.");
    (lit "general",
     lit "I'm experiencing technical difficulties. Please try again in a moment.") ].

Definition create_fallback_response (message : option str) (error_type : str) : dict :=
  [ "error" =: VBool true;
    "error_type" =: VStr error_type;
    "message" =: of_opt message;
    "fallback_message" =:
     VStr (get_default error_type fallback_messages
             (get_default (lit "general") fallback_messages []));
    "audio_url" =: VNone ].

(** ** The three helpers *)

(** [safe_transcribe_audio]: returns [(text, None)] or [(None, str(e))]. *)
Definition safe_transcribe_audio (E : env) (audio_data : bytes)
  : M (option str * option str) :=
  log_call (Call_safe_transcribe_audio audio_data) ;;
  try_except
    (if negb (truthy_opt (ASSEMBLYAI_API_KEY E)) then
       raise (lit "AssemblyAI API key not configured")
     else
       log_call (Transcriber_transcribe audio_data) ;;
       do transcript <- lift (transcribe E audio_data);
       match transcript with
       | Some t =>
           if negb (truthy_opt (transcript_text t)) then
             raise (lit "Transcription returned empty result")
           else ret (transcript_text t, None)
       | None => raise (lit "Transcription returned empty result")
       end)
    (fun e => ret (None, Some e)).

(** The prompt built from earlier turns:
    [context += f"{role}: {message['content']}\n"] for each message. *)
Fixpoint build_context (conversation_history : list turn) (context : str) : str :=
  match conversation_history with
  | [] => context
  | message :: rest =>
      let role :=
        if decide (role message = lit "user") then lit "User" else lit "Assistant" in
      build_context rest
        (context ++ role ++ lit ": " ++ format (content message) ++ [10])
  end.

Definition fallback_responses : list str :=
  [ lit "I apologize, but I'm having trouble processing your request right now. Could you please try again?";
    lit "I'm experiencing some technical difficulties. Please rephrase your question and try again.";
    lit "Sorry, I'm unable to generate a proper response at the moment. Please try again later." ].

(** [fallback_responses[0]] *)
Definition fallback_response_0 : option str := head fallback_responses.

(** [safe_generate_llm_response]: returns [(text, None)] or
    [(fallback_responses[0], str(e))]. *)
Definition safe_generate_llm_response (E : env)
    (prompt : option str) (conversation_history : option (list turn))
  : M (option str * option str) :=
  log_call (Call_safe_generate_llm_response prompt conversation_history) ;;
  try_except
    (if negb (truthy_opt (GEMINI_API_KEY E)) then
       raise (lit "Gemini API key not configured")
     else
       let contents :=
         match conversation_history with
         | Some (m :: h) =>
             Some (build_context (m :: h) []
                     ++ lit "User: " ++ format prompt ++ [10] ++ lit "Assistant:")
         | _ => prompt
         end in
       log_call (GenerativeModel_generate_content contents) ;;
       do response <- lift (generate_content E contents);
       match response with
       | Some r =>
           if negb (truthy_opt (response_text r)) then
             raise (lit "LLM returned empty response")
           else ret (response_text r, None)
       | None => raise (lit "LLM returned empty response")
       end)
    (fun e => ret (fallback_response_0, Some e)).

(** [safe_generate_tts]: returns [(audio_url, None)] or [(None, str(e))]. *)
Definition safe_generate_tts (E : env) (text : option str)
  : M (option str * option str) :=
  log_call (Call_safe_generate_tts text) ;;
  try_except
    (if negb (truthy_opt (MURF_API_KEY E)) then
       raise (lit "Murf API key not configured")
     else
       log_call (AsyncClient_post text) ;;
       do response <- lift (post E text);
       if Nat.eqb (http_status_code response) 200 then
         do audio_url <- lift (http_json_audioFile response);
         if truthy_opt audio_url then ret (audio_url, None)
         else raise (lit "No audio URL in response")
       else
         raise (lit "TTS API returned status "
                  ++ str_of_nat (http_status_code response)
                  ++ lit ": " ++ http_text response))
    (fun e => ret (None, Some e)).

(** ** The request handlers *)

Definition turn_value (t : turn) : value :=
  VDict [ "role" =: VStr (role t); "content" =: of_opt (content t) ].

(** A transcript as it is serialised into a response body. *)
Definition history_value (h : list turn) : value := VList (List.map turn_value h).

(** The [except Exception as e] clause shared by the handlers.  The
    response it builds is rendered like any other, outside the [try]: if
    that fails, the exception leaves the handler. *)
Definition on_exception (error_type : str) (e : str) : M JSONResponse :=
  new_JSONResponse (create_fallback_response (Some e) error_type) 500.

(** [POST /tts] *)
Definition generate_tts (E : env) (text : str) : M JSONResponse :=
  try_except
    (if negb (truthy (strip text)) then
       new_JSONResponse
         (create_fallback_response (Some (lit "Empty text provided")) (lit "tts"))
         400
     else
       do '(audio_url, error) <- safe_generate_tts E (Some text);
       if truthy_opt error then
         new_JSONResponse (create_fallback_response error (lit "tts")) 500
       else
         new_JSONResponse
           [ "audio_url" =: of_opt audio_url; "error" =: VBool false ] 200)
    (on_exception (lit "tts")).

(** [POST /upload]: on success the handler returns a plain dict. *)
Definition upload_audio (E : env) (file : UploadFile) : M reply :=
  try_except
    (do contents <- lift (read file);
     log_call (Open_write (filename file) contents) ;;
     lift (open_write E (filename file) contents) ;;
     ret (Plain [ "filename" =: of_opt (filename file);
                  "content_type" =: of_opt (content_type file);
                  "size" =: VInt (length contents);
                  "url" =: VStr (lit "/uploads/" ++ format (filename file));
                  "error" =: VBool false ]))
    (fun e => rendered (on_exception (lit "general") e)).

(** [POST /transcribe/file]: on success the handler returns a plain dict. *)
Definition transcribe_audio (E : env) (file : UploadFile) : M reply :=
  try_except
    (do contents <- lift (read file);
     do '(transcription, error) <- safe_transcribe_audio E contents;
     if truthy_opt error then
       rendered (new_JSONResponse (create_fallback_response error (lit "stt")) 500)
     else
       ret (Plain [ "transcription" =: of_opt transcription;
                    "error" =: VBool false ]))
    (fun e => rendered (on_exception (lit "stt") e)).

(** [POST /tts/echo] *)
Definition echo_tts (E : env) (file : UploadFile) : M JSONResponse :=
  try_except
    (do contents <- lift (read file);
     do '(transcription, transcribe_error) <- safe_transcribe_audio E contents;
     if truthy_opt transcribe_error then
       new_JSONResponse
         (create_fallback_response transcribe_error (lit "stt")) 500
     else
       do '(audio_url, tts_error) <- safe_generate_tts E transcription;
       if truthy_opt tts_error then
         do heard <- add (lit "I heard you say: ") transcription;
         new_JSONResponse
           [ "transcription" =: of_opt transcription;
             "error" =: VBool true;
             "error_type" =: VStr (lit "tts");
             "message" =: of_opt tts_error;
             "fallback_message" =:
               VStr (heard ++ lit " (Audio generation failed)");
             "audio_url" =: VNone ] 200
       else
         new_JSONResponse
           [ "audio_url" =: of_opt audio_url;
             "transcription" =: of_opt transcription;
             "error" =: VBool false ] 200)
    (on_exception (lit "general")).

(** [POST /llm/query] *)
Definition llm_query (E : env) (text : str) : M JSONResponse :=
  try_except
    (if negb (truthy (strip text)) then
       new_JSONResponse
         (create_fallback_response (Some (lit "Empty text provided")) (lit "llm"))
         400
     else
       do '(response, error) <- safe_generate_llm_response E (Some text) None;
       if truthy_opt error && negb (truthy_opt response) then
         new_JSONResponse (create_fallback_response error (lit "llm")) 500
       else
         new_JSONResponse
           [ "response" =: of_opt response;
             "input" =: VStr text;
             "error" =: VBool false;
             "has_fallback" =: VBool (truthy_opt error) ] 200)
    (on_exception (lit "llm")).

(** The tail shared by the two generate-and-speak handlers: the
    [if tts_error: ... else: ...] and [if llm_error: ...] updates of
    [response_data], and the response built from it. *)
Definition finish_response (tts_prefix : str) (response_data : dict)
    (llm_response llm_error audio_url tts_error : option str) : M JSONResponse :=
  do response_data <-
    (if truthy_opt tts_error then
       do message <- add tts_prefix llm_response;
       ret (dict_update [ "audio_url" =: VNone;
                          "tts_error" =: VBool true;
                          "fallback_message" =: VStr message ]
              response_data)
     else ret (dict_set "audio_url" (of_opt audio_url) response_data));
  let response_data :=
    if truthy_opt llm_error then dict_set "has_llm_fallback" (VBool true) response_data
    else response_data in
  new_JSONResponse response_data 200.

(** [POST /llm/query/audio] *)
Definition llm_query_audio (E : env) (file : UploadFile) : M JSONResponse :=
  try_except
    (do contents <- lift (read file);
     do '(transcription, transcribe_error) <- safe_transcribe_audio E contents;
     if truthy_opt transcribe_error then
       new_JSONResponse
         (create_fallback_response transcribe_error (lit "stt")) 500
     else
       do '(llm_response, llm_error) <- safe_generate_llm_response E transcription None;
       do '(audio_url, tts_error) <- safe_generate_tts E llm_response;
       finish_response
         (lit "I'm having trouble generating audio right now. Here's my text response: ")
         [ "transcription" =: of_opt transcription;
           "llm_response" =: of_opt llm_response;
           "error" =: VBool false ]
         llm_response llm_error audio_url tts_error)
    (on_exception (lit "general")).

(** [POST /agent/chat/{session_id}] *)
Definition agent_chat (E : env) (session_id : str) (file : UploadFile)
  : M JSONResponse :=
  try_except
    (do contents <- lift (read file);
     do '(transcription, transcribe_error) <- safe_transcribe_audio E contents;
     if truthy_opt transcribe_error then
       new_JSONResponse
         (create_fallback_response transcribe_error (lit "stt")) 500
     else
       do known <- contains session_id;
       (if negb known then setitem session_id [] else ret tt) ;;
       append (repr E) session_id (Turn (lit "user") transcription) ;;
       do history <- getitem (repr E) session_id;
       do '(llm_response, llm_error) <-
         safe_generate_llm_response E transcription (Some (removelast history));
       append (repr E) session_id (Turn (lit "assistant") llm_response) ;;
       do '(audio_url, tts_error) <- safe_generate_tts E llm_response;
       do history <- getitem (repr E) session_id;
       finish_response
         (lit "I'm having trouble with audio generation. Here's my response: ")
         [ "transcription" =: of_opt transcription;
           "llm_response" =: of_opt llm_response;
           "session_id" =: VStr session_id;
           "chat_history" =: history_value history;
           "error" =: VBool false ]
         llm_response llm_error audio_url tts_error)
    (on_exception (lit "general")).

(** [GET /agent/chat/{session_id}/history] *)
Definition get_chat_history (E : env) (session_id : str) : M JSONResponse :=
  try_except
    (do known <- contains session_id;
     if known then
       do history <- getitem (repr E) session_id;
       new_JSONResponse
         [ "session_id" =: VStr session_id;
           "chat_history" =: history_value history;
           "error" =: VBool false ] 200
     else
       new_JSONResponse
         [ "session_id" =: VStr session_id;
           "chat_history" =: VList [];
           "error" =: VBool false ] 200)
    (on_exception (lit "general")).

(** [DELETE /agent/chat/{session_id}/history] *)
Definition clear_chat_history (E : env) (session_id : str) : M JSONResponse :=
  try_except
    (do known <- contains session_id;
     (if known then delitem (repr E) session_id else ret tt) ;;
     new_JSONResponse
       [ "session_id" =: VStr session_id;
         "message" =: VStr (lit "Chat history cleared");
         "error" =: VBool false ] 200)
    (on_exception (lit "general")).

(** [POST /agent/session/new] *)
Definition create_new_session (E : env) : M JSONResponse :=
  try_except
    (new_JSONResponse
       [ "session_id" =: VStr (uuid4 E); "error" =: VBool false ] 200)
    (on_exception (lit "general")).

(** [GET /health] *)
Definition health_check (E : env) : M JSONResponse :=
  try_except
    (new_JSONResponse
       [ "status" =: VStr (lit "ok");
         "api_status" =:
           VDict [ "murf_api" =: VBool (truthy_opt (MURF_API_KEY E));
                   "assemblyai_api" =: VBool (truthy_opt (ASSEMBLYAI_API_KEY E));
                   "gemini_api" =: VBool (truthy_opt (GEMINI_API_KEY E)) ];
         "error" =: VBool false ] 200)
    (fun e =>
       new_JSONResponse
         [ "status" =: VStr (lit "error");
           "message" =: VStr e;
           "error" =: VBool true ] 500).

(** ** Requests and runs of the service *)

(** The endpoints of the service.  [GET /] only renders a template and is
    not modelled. *)
Inductive request : Type :=
| POST_tts (text : str)
| POST_upload (file : UploadFile)
| POST_transcribe_file (file : UploadFile)
| POST_tts_echo (file : UploadFile)
| POST_llm_query (text : str)
| POST_llm_query_audio (file : UploadFile)
| POST_agent_chat (session_id : str) (file : UploadFile)
| GET_history (session_id : str)
| DELETE_history (session_id : str)
| POST_session_new
| GET_health.

Definition handle (E : env) (req : request) : M reply :=
  match req with
  | POST_tts text => rendered (generate_tts E text)
  | POST_upload file => upload_audio E file
  | POST_transcribe_file file => transcribe_audio E file
  | POST_tts_echo file => rendered (echo_tts E file)
  | POST_llm_query text => rendered (llm_query E text)
  | POST_llm_query_audio file => rendered (llm_query_audio E file)
  | POST_agent_chat session_id file => rendered (agent_chat E session_id file)
  | GET_history session_id => rendered (get_chat_history E session_id)
  | DELETE_history session_id => rendered (clear_chat_history E session_id)
  | POST_session_new => rendered (create_new_session E)
  | GET_health => rendered (health_check E)
  end.

(** Requests served one after the other, each in the environment it meets. *)
Fixpoint serve (reqs : list (env * request)) (w : world) : world :=
  match reqs with
  | [] => w
  | (E, req) :: rest => serve rest (snd (handle E req w))
  end.

(** ** Observations used in the statements *)

Definition initial : world := World ∅ [].

(** The result of a computation started in the initial state, and the calls
    it makes there. *)
Definition value_of {A} (c : M A) : outcome A := fst (c initial).

Definition calls_of {A} (c : M A) : list event := calls (snd (c initial)).

(** A computation that never reads or writes [chat_histories]: in every
    state it gives the same result and adds the same calls to the log. *)
Definition stateless {A} (c : M A) : Prop :=
  forall w, c w = (value_of c, World (chat_histories w) (calls w ++ calls_of c)).

(** The transcript of a session; a session never referenced has none. *)
Definition transcript (w : world) (session_id : str) : list turn :=
  default [] (chat_histories w !! session_id).

(** The turns appended to a session, in log order. *)
Fixpoint appended_to (session_id : str) (log : list event) : list turn :=
  match log with
  | [] => []
  | List_append s t :: log' =>
      if decide (s = session_id) then t :: appended_to session_id log'
      else appended_to session_id log'
  | _ :: log' => appended_to session_id log'
  end.

(** The arguments of the calls to [safe_generate_llm_response], in order. *)
Fixpoint generation_calls (log : list event)
  : list (option str * option (list turn)) :=
  match log with
  | [] => []
  | Call_safe_generate_llm_response p h :: log' => (p, h) :: generation_calls log'
  | _ :: log' => generation_calls log'
  end.

(** Events of the generation stage and of the synthesis stage. *)
Definition later_stage (ev : event) : bool :=
  match ev with
  | Call_safe_generate_llm_response _ _ | GenerativeModel_generate_content _
  | Call_safe_generate_tts _ | AsyncClient_post _ => true
  | _ => false
  end.

(** The texts on which synthesis was attempted. *)
Fixpoint synthesis_calls (log : list event) : list (option str) :=
  match log with
  | [] => []
  | Call_safe_generate_tts text :: log' => text :: synthesis_calls log'
  | _ :: log' => synthesis_calls log'
  end.

(** A computation that leaves [chat_histories] as it is and appends no
    turn. *)
Definition store_untouched {A} (c : M A) : Prop :=
  forall w, exists evs,
    snd (c w) = World (chat_histories w) (calls w ++ evs)
    /\ forall s, appended_to s evs = [].

(** [DELETE_history] of the given session does not occur in the run. *)
Definition never_deleted (session_id : str) (reqs : list (env * request)) : Prop :=
  Forall (fun er => snd er <> DELETE_history session_id) reqs.

(** What a handler answers when its [try] block ends by building a
    response from [content]: that response, or, when the content cannot be
    rendered, the error response that the [except] clause builds from the
    text of the encoding error. *)
Definition answer (error_type : str) (content : dict) (status_code : nat)
  : JSONResponse :=
  match render_error content with
  | None => {| body := content; status_code := status_code |}
  | Some msg => {| body := create_fallback_response (Some msg) error_type;
                   status_code := 500 |}
  end.

(** Specification of the store, stated without the store: the turns a
    chat request is to add to a transcript [history].  None when the upload
    cannot be read or the transcription is taken as failed, otherwise the
    user turn with the transcription and the assistant turn with the text
    that generation returned for it. *)
Definition exchange (E : env) (file : UploadFile) (history : list turn)
  : list turn :=
  match read file with
  | Returns contents =>
      match value_of (safe_transcribe_audio E contents) with
      | Returns (transcription, transcribe_error) =>
          if truthy_opt transcribe_error then []
          else
            match value_of (safe_generate_llm_response E transcription
                              (Some history)) with
            | Returns (llm_response, _) =>
                [Turn (lit "user") transcription;
                 Turn (lit "assistant") llm_response]
            | Raises _ => [Turn (lit "user") transcription]
            end
      | Raises _ => []
      end
  | Raises _ => []
  end.

(** Specification of the store over a run: the transcript a session is to
    hold after the requests [reqs], from the transcript [history] it held
    before.  Each chat request to the session adds its exchange, a deletion
    of the session empties it, and no other request counts.  The handlers'
    own writes to [chat_histories] are compared with it. *)
Fixpoint history_after (reqs : list (env * request)) (session_id : str)
    (history : list turn) : list turn :=
  match reqs with
  | [] => history
  | (E, POST_agent_chat s file) :: rest =>
      if decide (s = session_id)
      then history_after rest session_id (history ++ exchange E file history)
      else history_after rest session_id history
  | (E, DELETE_history s) :: rest =>
      if decide (s = session_id)
      then history_after rest session_id []
      else history_after rest session_id history
  | _ :: rest => history_after rest session_id history
  end.

(** ** Sample environments and inputs *)

(** Collaborator behaviours. *)
Definition heard (s : str) : outcome (option Transcript) :=
  Returns (Some {| transcript_text := Some s |}).

Definition generated (s : str) : outcome (option GenerateContentResponse) :=
  Returns (Some {| response_text := Some s |}).

Definition spoken (url : str) : outcome HttpResponse :=
  Returns {| http_status_code := 200;
             http_text := [];
             http_json_audioFile := Returns (Some url) |}.

(** All three keys configured; the collaborators answer every call the
    same way. *)
Definition sample_env
    (stt : outcome (option Transcript))
    (llm : outcome (option GenerateContentResponse))
    (tts : outcome HttpResponse) : env :=
  {| MURF_API_KEY := Some (lit "murf-key");
     ASSEMBLYAI_API_KEY := Some (lit "assemblyai-key");
     GEMINI_API_KEY := Some (lit "gemini-key");
     transcribe := fun _ => stt;
     generate_content := fun _ => llm;
     post := fun _ => tts;
     repr := fun s => [39] ++ s ++ [39];
     open_write := fun _ _ => Returns tt;
     uuid4 := lit "123e4567-e89b-42d3-a456-426614174000" |}.

Definition sample_audio : bytes := [Byte.x52; Byte.x49; Byte.x46; Byte.x46].

Definition sample_file : UploadFile :=
  {| read := Returns sample_audio;
     filename := Some (lit "clip.wav");
     content_type := Some (lit "audio/wav") |}.

Definition sample_url : str := lit "https://murf.ai/audio/1.mp3".

(** Everything works. *)
Definition env_ok : env :=
  sample_env (heard (lit "hello")) (generated (lit "hi there")) (spoken sample_url).

(** Synthesis fails with a reason. *)
Definition env_tts_down : env :=
  sample_env (heard (lit "hello")) (generated (lit "hi there"))
    (Raises (lit "connection refused")).

(** Generation and synthesis both fail with a reason. *)
Definition env_llm_tts_down : env :=
  sample_env (heard (lit "hello")) (Raises (lit "quota exceeded"))
    (Raises (lit "connection refused")).

(** The collaborator raises an exception whose [str(e)] is empty, as a
    bare [Exception()] or a timeout error without arguments has. *)
Definition env_stt_raises_empty : env :=
  sample_env (Raises []) (generated (lit "hi there")) (spoken sample_url).

Definition env_llm_raises_empty : env :=
  sample_env (heard (lit "hello")) (Raises []) (spoken sample_url).

Definition env_tts_raises_empty : env :=
  sample_env (heard (lit "hello")) (generated (lit "hi there")) (Raises []).

(** The transcriber returns a text that ends with a lone surrogate, as
    [json.loads] gives for an escaped half of a surrogate pair. *)
Definition env_stt_surrogate : env :=
  sample_env (heard [104; 105; 55357]) (generated (lit "hi there"))
    (spoken sample_url).

(** A run that talks to two sessions, reads one and deletes the other. *)
Definition sample_run : list (env * request) :=
  [ (env_ok, POST_agent_chat (lit "s1") sample_file);
    (env_tts_down, POST_agent_chat (lit "s2") sample_file);
    (env_ok, GET_history (lit "s1"));
    (env_ok, DELETE_history (lit "s2"));
    (env_llm_tts_down, POST_agent_chat (lit "s1") sample_file);
    (env_ok, POST_llm_query (lit "tell me a joke")) ].

(** ** Further observations *)

(** The position of a call in a pipeline: transcription, the user turn,
    generation, the assistant turn, synthesis.  The file write of the
    upload handler stands alone. *)
Definition stage (ev : event) : nat :=
  match ev with
  | Open_write _ _ => 1
  | Call_safe_transcribe_audio _ => 1
  | Transcriber_transcribe _ => 2
  | List_append _ t => if decide (role t = lit "user") then 3 else 6
  | Call_safe_generate_llm_response _ _ => 4
  | GenerativeModel_generate_content _ => 5
  | Call_safe_generate_tts _ => 7
  | AsyncClient_post _ => 8
  end%nat.

(** The numbers of [l] increase strictly and lie between [lo] and [hi]. *)
Fixpoint ascending (lo hi : nat) (l : list nat) : bool :=
  match l with
  | [] => true
  | n :: l' => Nat.leb lo n && Nat.leb n hi && ascending (S n) hi l'
  end.

(** A computation whose calls come in pipeline order, within the stages
    [lo] to [hi]. *)
Definition staged {A} (lo hi : nat) (c : M A) : Prop :=
  forall w, exists evs,
    calls (snd (c w)) = calls w ++ evs
    /\ ascending lo hi (List.map stage evs) = true.

(** The calls that reach a collaborator. *)
Definition collaborator_call (ev : event) : bool :=
  match ev with
  | Transcriber_transcribe _ | GenerativeModel_generate_content _
  | AsyncClient_post _ => true
  | _ => false
  end.

(** A response as every endpoint gives it: status 200, 400 or 500, a
    boolean ["error"] in the body, true whenever the status is not 200. *)
Definition well_formed (r : JSONResponse) : bool :=
  match dict_get "error" (body r) with
  | Some (VBool b) =>
      (Nat.eqb (status_code r) 200
       || ((Nat.eqb (status_code r) 400 || Nat.eqb (status_code r) 500) && b))
  | _ => false
  end.

(** The session whose transcript a request may write. *)
Definition written_session (req : request) : option str :=
  match req with
  | POST_agent_chat session_id _ => Some session_id
  | DELETE_history session_id => Some session_id
  | _ => None
  end.

(** The upload a request carries. *)
Definition upload_of (req : request) : option UploadFile :=
  match req with
  | POST_upload file | POST_transcribe_file file | POST_tts_echo file
  | POST_llm_query_audio file | POST_agent_chat _ file => Some file
  | _ => None
  end.

(** The text of the exception that reading the upload of a request raises
    or, for [POST /upload], that writing it to disk raises. *)
Definition upload_failure (E : env) (req : request) : option str :=
  match upload_of req with
  | Some file =>
      match read file with
      | Raises e => Some e
      | Returns contents =>
          match req with
          | POST_upload _ =>
              match open_write E (filename file) contents with
              | Raises e => Some e
              | Returns _ => None
              end
          | _ => None
          end
      end
  | None => None
  end.

(** A transcript made of exchanges: a user turn, then an assistant turn. *)
Fixpoint alternating (h : list turn) : bool :=
  match h with
  | [] => true
  | u :: a :: h' =>
      bool_decide (role u = lit "user")
      && bool_decide (role a = lit "assistant")
      && alternating h'
  | _ => false
  end.

(** The line of the prompt that one earlier turn gives. *)
Definition context_line (message : turn) : str :=
  (if decide (role message = lit "user") then lit "User" else lit "Assistant")
    ++ lit ": " ++ format (content message) ++ [10].

(** The four error types with a fallback message of their own. *)
Definition known_error_type (error_type : str) : bool :=
  bool_decide (error_type = lit "stt") || bool_decide (error_type = lit "llm")
  || bool_decide (error_type = lit "tts") || bool_decide (error_type = lit "general").

(** What [safe_generate_llm_response] sends to the model: the prompt
    alone, or the earlier turns followed by the prompt. *)
Definition generation_contents (prompt : option str)
    (conversation_history : option (list turn)) : option str :=
  match conversation_history with
  | Some (m :: h) =>
      Some (build_context (m :: h) []
              ++ lit "User: " ++ format prompt ++ [10] ++ lit "Assistant:")
  | _ => prompt
  end.

(** What the model was given, call by call. *)
Fixpoint model_inputs (log : list event) : list (option str) :=
  match log with
  | [] => []
  | GenerativeModel_generate_content contents :: log' =>
      contents :: model_inputs log'
  | _ :: log' => model_inputs log'
  end.


(** * Properties *)

(** ** Rendering *)

Lemma encodable_app s1 s2 : encodable (s1 ++ s2) = encodable s1 && encodable s2.
Proof. apply forallb_app. Qed.

Lemma encodable_lit k : encodable (lit k) = true.
Proof.
  unfold lit, encodable. induction k as [|a k IH]; [done|].
  cbn [list_ascii_of_string List.map forallb]. rewrite IH, andb_true_r.
  unfold is_surrogate. pose proof (N_ascii_bounded a) as Ha.
  destruct (N.leb_spec 55296 (N_of_ascii a)); [lia | reflexivity].
Qed.

Lemma hex_digit_ascii d : d < 16 -> is_surrogate (hex_digit d) = false.
Proof.
  intros Hd. unfold hex_digit, is_surrogate.
  destruct (N.ltb_spec d 10);
    match goal with |- (55296 <=? ?x) && _ = false =>
      destruct (N.leb_spec 55296 x); [lia | reflexivity] end.
Qed.

Lemma encodable_hex4 c : encodable (hex4 c) = true.
Proof.
  unfold hex4, encodable. cbn [forallb].
  rewrite !hex_digit_ascii by (apply N.mod_lt; lia). done.
Qed.

Lemma encodable_str_of_nat n : encodable (str_of_nat n) = true.
Proof. apply encodable_lit. Qed.

Lemma encodable_escape c : encodable (escape c) = negb (is_surrogate c).
Proof.
  assert (Hlow : c < 55296 -> is_surrogate c = false).
  { intros H. unfold is_surrogate. destruct (N.leb_spec 55296 c); [lia | done]. }
  unfold escape.
  repeat (match goal with |- context [N.eqb c ?n] =>
            destruct (N.eqb_spec c n) as [->|_]; [reflexivity|] end).
  destruct (N.ltb_spec c 32) as [Hc|_].
  - rewrite Hlow by lia. rewrite encodable_app, encodable_hex4. reflexivity.
  - unfold encodable. cbn [forallb]. apply andb_true_r.
Qed.

Lemma encodable_encode_basestring s : encodable (encode_basestring s) = encodable s.
Proof.
  unfold encode_basestring. rewrite !encodable_app.
  change (encodable [34]) with true. rewrite andb_true_r. cbn [andb].
  induction s as [|c s IH]; [done|].
  cbn [List.map concat]. rewrite encodable_app, IH, encodable_escape. done.
Qed.

Lemma encodable_dumps v : encodable (dumps v) = value_encodable v.
Proof.
  revert v. fix IH 1. intros [ | [|] | n | s | l | d]; cbn [dumps value_encodable].
  - apply encodable_lit.
  - apply encodable_lit.
  - apply encodable_lit.
  - apply encodable_str_of_nat.
  - apply encodable_encode_basestring.
  - rewrite !encodable_app. change (encodable [91]) with true.
    change (encodable [93]) with true. rewrite andb_true_r. cbn [andb].
    induction l as [|x l IHl]; [done|].
    rewrite encodable_app, IH, <- IHl. destruct l as [|y l]; [done|].
    by rewrite encodable_app.
  - rewrite !encodable_app. change (encodable [123]) with true.
    change (encodable [125]) with true. rewrite andb_true_r. cbn [andb].
    induction d as [|[k x] d IHd]; [done|].
    rewrite !encodable_app, encodable_encode_basestring, encodable_lit, IH, <- IHd.
    change (encodable [58]) with true. cbn [andb].
    destruct d as [|y d]; [done|]. by rewrite encodable_app.
Qed.

Lemma first_surrogates_None s i :
  first_surrogates s i = None <-> encodable s = true.
Proof.
  revert i. induction s as [|c s IH]; intros i; cbn [first_surrogates encodable forallb];
    [done|].
  destruct (is_surrogate c); cbn [negb andb]; [split; discriminate|]. apply IH.
Qed.

Lemma utf8_error_None s : utf8_error s = None <-> encodable s = true.
Proof.
  rewrite <- (first_surrogates_None s 0). unfold utf8_error.
  destruct (first_surrogates s 0) as [[[start c] [|[|len]]]|]; split; done.
Qed.

(** The text of an encoding error is plain ASCII. *)
Lemma utf8_error_encodable s msg : utf8_error s = Some msg -> encodable msg = true.
Proof.
  unfold utf8_error.
  destruct (first_surrogates s 0) as [[[start c] [|[|len]]]|]; intros H;
    [| | |discriminate];
    match type of H with Some ?e = Some _ =>
      assert (Hm : msg = e) by congruence end;
    rewrite Hm, ?encodable_app, ?encodable_lit, ?encodable_str_of_nat,
      ?encodable_hex4; reflexivity.
Qed.

Lemma render_error_None content :
  render_error content = None <-> value_encodable (VDict content) = true.
Proof. unfold render_error. by rewrite utf8_error_None, encodable_dumps. Qed.

Lemma render_error_encodable content msg :
  render_error content = Some msg -> encodable msg = true.
Proof. apply utf8_error_encodable. Qed.

(** The error body of [create_fallback_response] can be rendered as soon as
    its message and its type can. *)
Lemma create_fallback_response_renders msg error_type :
  encodable msg = true -> encodable error_type = true ->
  render_error (create_fallback_response (Some msg) error_type) = None.
Proof.
  intros Hm Ht. apply render_error_None.
  unfold create_fallback_response. cbn [value_encodable of_opt].
  rewrite Hm, Ht. cbn [andb]. rewrite andb_true_r.
  unfold fallback_messages. cbn [get_default].
  repeat case_decide; first [apply encodable_lit | done].
Qed.

(** ** The helpers never raise and never touch the session store *)

Ltac run_monad :=
  unfold try_except, bind, log_call, lift, raise, ret, add; simpl.

Lemma safe_transcribe_audio_stateless E audio_data :
  stateless (safe_transcribe_audio E audio_data).
Proof.
  intros [m l].
  unfold value_of, calls_of, initial, safe_transcribe_audio. run_monad.
  destruct (truthy_opt (ASSEMBLYAI_API_KEY E)); simpl; [|done].
  destruct (transcribe E audio_data) as [[t|]|e]; simpl;
    [destruct (truthy_opt (transcript_text t)); simpl| |];
    by rewrite <- app_assoc.
Qed.

Lemma safe_generate_llm_response_stateless E prompt conversation_history :
  stateless (safe_generate_llm_response E prompt conversation_history).
Proof.
  intros [m l].
  unfold value_of, calls_of, initial, safe_generate_llm_response. run_monad.
  destruct (truthy_opt (GEMINI_API_KEY E)); simpl; [|done].
  match goal with |- context [generate_content E ?c] =>
    destruct (generate_content E c) as [[r|]|e] end; simpl;
    [destruct (truthy_opt (response_text r)); simpl| |];
    by rewrite <- app_assoc.
Qed.

Lemma safe_generate_tts_stateless E text :
  stateless (safe_generate_tts E text).
Proof.
  intros [m l].
  unfold value_of, calls_of, initial, safe_generate_tts. run_monad.
  destruct (truthy_opt (MURF_API_KEY E)); simpl; [|done].
  destruct (post E text) as [r|e]; simpl; [|by rewrite <- app_assoc].
  destruct (Nat.eqb (http_status_code r) 200); simpl; [|by rewrite <- app_assoc].
  destruct (http_json_audioFile r) as [u|e]; simpl; [|by rewrite <- app_assoc].
  destruct (truthy_opt u); simpl; by rewrite <- app_assoc.
Qed.

Lemma bind_stateless {A B} (c : M A) (k : A -> M B) w :
  stateless c ->
  bind c k w =
    match value_of c with
    | Returns a => k a (World (chat_histories w) (calls w ++ calls_of c))
    | Raises e => (Raises e, World (chat_histories w) (calls w ++ calls_of c))
    end.
Proof. intros H. unfold bind. rewrite (H w). by destruct (value_of c). Qed.

(** What the helpers can return. *)

Lemma truthy_opt_Some o : truthy_opt o = true -> exists s, o = Some s /\ truthy s = true.
Proof. destruct o as [s|]; [eauto | discriminate]. Qed.

Lemma safe_transcribe_audio_cases E audio_data :
  (exists t, truthy t = true
     /\ value_of (safe_transcribe_audio E audio_data) = Returns (Some t, None))
  \/ (exists e, value_of (safe_transcribe_audio E audio_data) = Returns (None, Some e)).
Proof.
  unfold value_of, initial, safe_transcribe_audio. run_monad.
  destruct (truthy_opt (ASSEMBLYAI_API_KEY E)); simpl; [|eauto].
  destruct (transcribe E audio_data) as [[t|]|e]; simpl; [|eauto..].
  destruct (truthy_opt (transcript_text t)) eqn:Ht; simpl; [|eauto].
  apply truthy_opt_Some in Ht as (s & -> & Hs). eauto.
Qed.

Lemma safe_generate_llm_response_cases E prompt conversation_history :
  exists r e,
    value_of (safe_generate_llm_response E prompt conversation_history)
      = Returns (Some r, e)
    /\ truthy r = true
    /\ (e = None \/ (is_Some e /\ Some r = fallback_response_0)).
Proof.
  unfold value_of, initial, safe_generate_llm_response. run_monad.
  assert (Hfb : forall m, exists r e,
            Returns (A := option str * option str) (fallback_response_0, Some m)
              = Returns (Some r, e)
            /\ truthy r = true
            /\ (e = None \/ (is_Some e /\ Some r = fallback_response_0))).
  { intros m. eexists _, _. split; [reflexivity|]. split; [reflexivity|].
    right. split; [by eexists | reflexivity]. }
  destruct (truthy_opt (GEMINI_API_KEY E)); simpl; [|apply Hfb].
  match goal with |- context [generate_content E ?c] =>
    destruct (generate_content E c) as [[r|]|e] end; simpl; [|apply Hfb..].
  destruct (truthy_opt (response_text r)) eqn:Hr; simpl; [|apply Hfb].
  apply truthy_opt_Some in Hr as (s & -> & Hs). eauto 6.
Qed.

Lemma safe_generate_tts_cases E text :
  (exists u, truthy u = true
     /\ value_of (safe_generate_tts E text) = Returns (Some u, None))
  \/ (exists e, value_of (safe_generate_tts E text) = Returns (None, Some e)).
Proof.
  unfold value_of, initial, safe_generate_tts. run_monad.
  destruct (truthy_opt (MURF_API_KEY E)); simpl; [|eauto].
  destruct (post E text) as [r|e]; simpl; [|eauto].
  destruct (Nat.eqb (http_status_code r) 200); simpl; [|eauto].
  destruct (http_json_audioFile r) as [u|e]; simpl; [|eauto].
  destruct (truthy_opt u) eqn:Hu; simpl; [|eauto].
  apply truthy_opt_Some in Hu as (s & -> & Hs). eauto.
Qed.

(** The calls made by each helper. *)

Lemma safe_transcribe_audio_calls E audio_data :
  calls_of (safe_transcribe_audio E audio_data)
    = Call_safe_transcribe_audio audio_data
        :: (if truthy_opt (ASSEMBLYAI_API_KEY E)
            then [Transcriber_transcribe audio_data] else []).
Proof.
  unfold calls_of, initial, safe_transcribe_audio. run_monad.
  destruct (truthy_opt (ASSEMBLYAI_API_KEY E)); simpl; [|done].
  destruct (transcribe E audio_data) as [[t|]|e]; simpl; [|done..].
  by destruct (truthy_opt (transcript_text t)).
Qed.

Lemma safe_generate_llm_response_calls E prompt conversation_history :
  exists evs,
    calls_of (safe_generate_llm_response E prompt conversation_history)
      = Call_safe_generate_llm_response prompt conversation_history :: evs
    /\ generation_calls evs = [] /\ synthesis_calls evs = []
    /\ forall s, appended_to s evs = [].
Proof.
  unfold calls_of, initial, safe_generate_llm_response. run_monad.
  destruct (truthy_opt (GEMINI_API_KEY E)); simpl; [|by eexists].
  match goal with |- context [generate_content E ?c] =>
    destruct (generate_content E c) as [[r|]|e] end; simpl;
    [destruct (truthy_opt (response_text r)); simpl| |]; by eexists.
Qed.

Lemma safe_generate_tts_calls E text :
  exists evs,
    calls_of (safe_generate_tts E text) = Call_safe_generate_tts text :: evs
    /\ generation_calls evs = [] /\ synthesis_calls evs = []
    /\ forall s, appended_to s evs = [].
Proof.
  unfold calls_of, initial, safe_generate_tts. run_monad.
  destruct (truthy_opt (MURF_API_KEY E)); simpl; [|by eexists].
  destruct (post E text) as [r|e]; simpl; [|by eexists].
  destruct (Nat.eqb (http_status_code r) 200); simpl; [|by eexists].
  destruct (http_json_audioFile r) as [u|e]; simpl; [|by eexists].
  destruct (truthy_opt u); simpl; by eexists.
Qed.

(** ** Response dicts *)

Lemma dict_get_app k (d d' : dict) :
  dict_get k (d ++ d') =
    match dict_get k d with
    | Some v => Some v
    | None => dict_get k d'
    end.
Proof.
  induction d as [|[k' v'] d IH]; simpl; [done|].
  by destruct (String.eqb k k').
Qed.

Lemma dict_set_fresh k v (d : dict) :
  dict_get k d = None -> dict_set k v d = d ++ [(k, v)].
Proof.
  induction d as [|[k' v'] d IH]; simpl; [done|].
  destruct (String.eqb k k'); [discriminate|].
  intros H. by rewrite IH.
Qed.

(** ** Symbolic runs of the handlers *)

Lemma try_except_bind {A B} (c : M A) (k : A -> M B) (h : str -> M B) w :
  try_except (bind c k) h w =
    match c w with
    | (Returns a, w') => try_except (k a) h w'
    | (Raises e, w') => h e w'
    end.
Proof. unfold try_except, bind. by destruct (c w) as [[a|e] w']. Qed.

Lemma try_except_bind_stateless {A B} (c : M A) (k : A -> M B) (h : str -> M B) w :
  stateless c ->
  try_except (bind c k) h w =
    match value_of c with
    | Returns a =>
        try_except (k a) h (World (chat_histories w) (calls w ++ calls_of c))
    | Raises e => h e (World (chat_histories w) (calls w ++ calls_of c))
    end.
Proof. intros H. rewrite try_except_bind, (H w). by destruct (value_of c). Qed.

(** A response built at the end of a [try] block. *)
Lemma respond_run error_type content status w :
  encodable error_type = true ->
  try_except (new_JSONResponse content status) (on_exception error_type) w
  = (Returns (answer error_type content status), w).
Proof.
  intros Ht. unfold try_except, new_JSONResponse, on_exception, answer.
  destruct (render_error content) as [msg|] eqn:Hr; [|done].
  unfold raise, new_JSONResponse.
  by rewrite (create_fallback_response_renders msg error_type)
    by eauto using render_error_encodable.
Qed.

(** The tail of the two generate-and-speak handlers, when the response
    data does not yet hold any of the keys it adds. *)
Lemma finish_response_run prefix d r llm_error audio_url tts_error w :
  dict_get "audio_url" d = None ->
  dict_get "tts_error" d = None ->
  dict_get "fallback_message" d = None ->
  dict_get "has_llm_fallback" d = None ->
  finish_response prefix d (Some r) llm_error audio_url tts_error w =
    new_JSONResponse
      (d ++ (if truthy_opt tts_error
             then [ "audio_url" =: VNone;
                    "tts_error" =: VBool true;
                    "fallback_message" =: VStr (prefix ++ r) ]
             else [ "audio_url" =: of_opt audio_url ])
         ++ (if truthy_opt llm_error
             then [ "has_llm_fallback" =: VBool true ] else []))
      200 w.
Proof.
  intros Ha Ht Hf Hl. unfold finish_response. run_monad.
  destruct (truthy_opt tts_error); simpl; unfold dict_update; simpl.
  - rewrite (dict_set_fresh "audio_url" _ d) by done.
    rewrite (dict_set_fresh "tts_error") by (by rewrite dict_get_app, Ht).
    rewrite (dict_set_fresh "fallback_message")
      by (by rewrite !dict_get_app, Hf).
    destruct (truthy_opt llm_error); simpl.
    + rewrite (dict_set_fresh "has_llm_fallback")
        by (by rewrite !dict_get_app, Hl).
      by rewrite <- !app_assoc.
    + by rewrite <- ?app_assoc, ?app_nil_r.
  - rewrite (dict_set_fresh "audio_url" _ d) by done.
    destruct (truthy_opt llm_error); simpl.
    + rewrite (dict_set_fresh "has_llm_fallback")
        by (by rewrite !dict_get_app, Hl).
      by rewrite <- !app_assoc.
    + by rewrite ?app_nil_r.
Qed.

Lemma finish_response_in_try prefix d r llm_error audio_url tts_error
    error_type w :
  encodable error_type = true ->
  dict_get "audio_url" d = None ->
  dict_get "tts_error" d = None ->
  dict_get "fallback_message" d = None ->
  dict_get "has_llm_fallback" d = None ->
  try_except (finish_response prefix d (Some r) llm_error audio_url tts_error)
    (on_exception error_type) w
  = (Returns
       (answer error_type
          (d ++ (if truthy_opt tts_error
                 then [ "audio_url" =: VNone;
                        "tts_error" =: VBool true;
                        "fallback_message" =: VStr (prefix ++ r) ]
                 else [ "audio_url" =: of_opt audio_url ])
             ++ (if truthy_opt llm_error
                 then [ "has_llm_fallback" =: VBool true ] else []))
          200), w).
Proof.
  intros Hty Ha Ht Hf Hl. rewrite <- (respond_run error_type _ 200 w Hty).
  unfold try_except. by rewrite finish_response_run.
Qed.

(** [POST /llm/query/audio] once the transcription check has let the
    request through. *)
Lemma llm_query_audio_run E file contents transcription transcribe_error
    r llm_error audio_url tts_error w :
  read file = Returns contents ->
  value_of (safe_transcribe_audio E contents)
    = Returns (transcription, transcribe_error) ->
  truthy_opt transcribe_error = false ->
  value_of (safe_generate_llm_response E transcription None)
    = Returns (Some r, llm_error) ->
  value_of (safe_generate_tts E (Some r)) = Returns (audio_url, tts_error) ->
  llm_query_audio E file w =
    (Returns
       (answer (lit "general")
          ([ "transcription" =: of_opt transcription;
             "llm_response" =: VStr r;
             "error" =: VBool false ]
             ++ (if truthy_opt tts_error
                 then [ "audio_url" =: VNone;
                        "tts_error" =: VBool true;
                        "fallback_message" =:
                          VStr (lit "I'm having trouble generating audio right now. Here's my text response: " ++ r) ]
                 else [ "audio_url" =: of_opt audio_url ])
             ++ (if truthy_opt llm_error
                 then [ "has_llm_fallback" =: VBool true ] else []))
          200),
     World (chat_histories w)
       (calls w ++ calls_of (safe_transcribe_audio E contents)
          ++ calls_of (safe_generate_llm_response E transcription None)
          ++ calls_of (safe_generate_tts E (Some r)))).
Proof.
  intros Hread Hstt Hok Hllm Htts.
  unfold llm_query_audio.
  rewrite try_except_bind. unfold lift at 1. rewrite Hread.
  rewrite (try_except_bind_stateless _ _ _ _ (safe_transcribe_audio_stateless E contents)), Hstt.
  rewrite Hok.
  rewrite (try_except_bind_stateless _ _ _ _ (safe_generate_llm_response_stateless E _ _)), Hllm.
  rewrite (try_except_bind_stateless _ _ _ _ (safe_generate_tts_stateless E _)), Htts.
  rewrite finish_response_in_try by (done || apply encodable_lit).
  cbn [chat_histories calls]. by rewrite <- !app_assoc.
Qed.

(** Reading and appending to a transcript that exists. *)
Lemma getitem_run repr session_id w h :
  chat_histories w !! session_id = Some h ->
  getitem repr session_id w = (Returns h, w).
Proof. intros H. unfold getitem. by rewrite H. Qed.

Lemma append_run repr session_id t w h :
  chat_histories w !! session_id = Some h ->
  append repr session_id t w =
    (Returns tt,
     World (<[session_id := h ++ [t]]> (chat_histories w))
       (calls w ++ [List_append session_id t])).
Proof.
  intros H. unfold append, bind. by rewrite (getitem_run _ _ _ h).
Qed.

(** [POST /agent/chat/{session_id}] once the transcription check has let
    the request through. *)
Lemma agent_chat_run E session_id file contents transcription transcribe_error
    r llm_error audio_url tts_error w :
  read file = Returns contents ->
  value_of (safe_transcribe_audio E contents)
    = Returns (transcription, transcribe_error) ->
  truthy_opt transcribe_error = false ->
  value_of (safe_generate_llm_response E transcription
              (Some (transcript w session_id)))
    = Returns (Some r, llm_error) ->
  value_of (safe_generate_tts E (Some r)) = Returns (audio_url, tts_error) ->
  let history :=
    transcript w session_id
      ++ [Turn (lit "user") transcription; Turn (lit "assistant") (Some r)] in
  agent_chat E session_id file w =
    (Returns
       (answer (lit "general")
          ([ "transcription" =: of_opt transcription;
             "llm_response" =: VStr r;
             "session_id" =: VStr session_id;
             "chat_history" =: history_value history;
             "error" =: VBool false ]
             ++ (if truthy_opt tts_error
                 then [ "audio_url" =: VNone;
                        "tts_error" =: VBool true;
                        "fallback_message" =:
                          VStr (lit "I'm having trouble with audio generation. Here's my response: " ++ r) ]
                 else [ "audio_url" =: of_opt audio_url ])
             ++ (if truthy_opt llm_error
                 then [ "has_llm_fallback" =: VBool true ] else []))
          200),
     World (<[session_id := history]> (chat_histories w))
       (calls w ++ calls_of (safe_transcribe_audio E contents)
          ++ [List_append session_id (Turn (lit "user") transcription)]
          ++ calls_of (safe_generate_llm_response E transcription
                         (Some (transcript w session_id)))
          ++ [List_append session_id (Turn (lit "assistant") (Some r))]
          ++ calls_of (safe_generate_tts E (Some r)))).
Proof.
  intros Hread Hstt Hok Hllm Htts history.
  unfold agent_chat.
  rewrite try_except_bind. unfold lift at 1. rewrite Hread.
  rewrite (try_except_bind_stateless _ _ _ _ (safe_transcribe_audio_stateless E contents)), Hstt.
  rewrite Hok.
  rewrite try_except_bind. unfold contains at 1. cbn [fst snd chat_histories calls].
  set (l := calls w ++ calls_of (safe_transcribe_audio E contents)).
  assert (Hinit : exists m,
    (if negb (bool_decide (is_Some (chat_histories w !! session_id)))
     then setitem session_id [] else ret tt) (World (chat_histories w) l)
      = (Returns tt, World m l)
    /\ m !! session_id = Some (transcript w session_id)
    /\ forall h, <[session_id := h]> m = <[session_id := h]> (chat_histories w)).
  { unfold transcript.
    destruct (chat_histories w !! session_id) as [h|] eqn:Hs; simpl.
    - by exists (chat_histories w).
    - exists (<[session_id := []]> (chat_histories w)).
      split; [done|]. split; [apply lookup_insert_eq|].
      intros h. apply insert_insert_eq. }
  destruct Hinit as (m & Hinit & Hm & Hins).
  rewrite try_except_bind, Hinit.
  rewrite try_except_bind.
  rewrite (append_run _ _ _ _ (transcript w session_id)) by done.
  cbn [chat_histories calls].
  rewrite try_except_bind.
  rewrite (getitem_run _ _ _ (transcript w session_id ++ [Turn (lit "user") transcription]))
    by apply lookup_insert_eq.
  rewrite removelast_last.
  rewrite (try_except_bind_stateless _ _ _ _ (safe_generate_llm_response_stateless E _ _)), Hllm.
  cbn [chat_histories calls].
  rewrite try_except_bind.
  rewrite (append_run _ _ _ _ (transcript w session_id ++ [Turn (lit "user") transcription]))
    by apply lookup_insert_eq.
  cbn [chat_histories calls].
  rewrite (try_except_bind_stateless _ _ _ _ (safe_generate_tts_stateless E _)), Htts.
  cbn [chat_histories calls].
  rewrite try_except_bind.
  rewrite (getitem_run _ _ _ history).
  2:{ cbn [chat_histories]. rewrite lookup_insert_eq. unfold history.
      by rewrite <- app_assoc. }
  rewrite finish_response_in_try by (done || apply encodable_lit).
  rewrite insert_insert_eq, Hins. unfold l, history.
  by rewrite <- !app_assoc.
Qed.

(** [POST /tts/echo], [POST /llm/query/audio] and [POST /agent/chat] when
    the transcription helper reports a failure with a non-empty reason:
    the request stops there. *)
Lemma transcription_failure_aborts E session_id file contents e w :
  read file = Returns contents ->
  value_of (safe_transcribe_audio E contents) = Returns (None, Some e) ->
  truthy e = true ->
  let aborted :=
    (Returns (answer (lit "general")
                (create_fallback_response (Some e) (lit "stt")) 500),
     World (chat_histories w)
       (calls w ++ calls_of (safe_transcribe_audio E contents))) in
  echo_tts E file w = aborted
  /\ llm_query_audio E file w = aborted
  /\ agent_chat E session_id file w = aborted
  /\ forallb (fun ev => negb (later_stage ev))
       (calls_of (safe_transcribe_audio E contents)) = true.
Proof.
  intros Hread Hstt He aborted.
  assert (Hstep : forall k : option str * option str -> M JSONResponse,
            (forall t, k (t, Some e)
                       = new_JSONResponse
                           (create_fallback_response (Some e) (lit "stt")) 500) ->
            try_except
              (do contents <- lift (read file);
               do x <- safe_transcribe_audio E contents; k x)
              (on_exception (lit "general")) w = aborted).
  { intros k Hk. rewrite try_except_bind. unfold lift at 1. rewrite Hread.
    rewrite (try_except_bind_stateless _ _ _ _ (safe_transcribe_audio_stateless E contents)), Hstt.
    rewrite Hk. by rewrite respond_run by apply encodable_lit. }
  split; [|split; [|split]].
  1-3: apply Hstep; intros t; cbn [truthy_opt]; by rewrite He.
  rewrite safe_transcribe_audio_calls.
  by destruct (truthy_opt (ASSEMBLYAI_API_KEY E)).
Qed.

(** An answer whose content can be rendered is the response itself. *)
Lemma answer_rendered error_type content status :
  value_encodable (VDict content) = true ->
  answer error_type content status
  = {| body := content; status_code := status |}.
Proof.
  intros H. unfold answer. by rewrite (proj2 (render_error_None content) H).
Qed.

(** Otherwise it is the error response of the [except] clause. *)
Lemma answer_failed error_type content status :
  value_encodable (VDict content) = false ->
  exists msg,
    render_error content = Some msg
    /\ answer error_type content status
       = {| body := create_fallback_response (Some msg) error_type;
            status_code := 500 |}.
Proof.
  intros H. unfold answer.
  destruct (render_error content) as [msg|] eqn:Hr; [eauto|].
  apply render_error_None in Hr. congruence.
Qed.

(** The two ways an answer can come out. *)
Lemma answer_cases error_type content status :
  let resp := answer error_type content status in
  (value_encodable (VDict content) = true ->
   resp = {| body := content; status_code := status |})
  /\ (value_encodable (VDict content) = false ->
      status_code resp = 500%nat
      /\ dict_get "error" (body resp) = Some (VBool true)
      /\ dict_get "error_type" (body resp) = Some (VStr error_type)).
Proof.
  intros resp. split; intros H.
  - by apply answer_rendered.
  - destruct (answer_failed error_type content status H) as (msg & _ & Hr).
    unfold resp. by rewrite Hr.
Qed.

Ltac encodable_solve :=
  cbn [value_encodable of_opt app];
  rewrite ?encodable_app, ?encodable_lit;
  repeat match goal with H : encodable _ = true |- _ => rewrite H end;
  reflexivity.

(** ** C1: the echo pipeline when synthesis fails *)

(** C1, as stated, fails: with a transcription that succeeds and a
    synthesis that fails, the body of the echo response carries
    [error = true], not [error = false]. *)
Lemma echo_tts_synthesis_failure_sets_error :
  value_of (safe_transcribe_audio env_tts_down sample_audio)
    = Returns (Some (lit "hello"), None)
  /\ value_of (safe_generate_tts env_tts_down (Some (lit "hello")))
       = Returns (None, Some (lit "connection refused"))
  /\ exists r,
       value_of (echo_tts env_tts_down sample_file) = Returns r
       /\ dict_get "error" (body r) = Some (VBool true)
       /\ dict_get "error" (body r) <> Some (VBool false).
Proof.
  split; [reflexivity|]. split; [reflexivity|].
  eexists. split; [vm_compute; reflexivity|]. split; [reflexivity|]. discriminate.
Qed.

(** The same pipeline at a transcription that holds a lone surrogate: the
    response cannot be rendered and the request is answered with status
    500 by the [except] clause. *)
Example echo_tts_synthesis_failure_lone_surrogate :
  let E := sample_env (heard [104; 105; 55357]) (generated (lit "hi there"))
             (Raises (lit "connection refused")) in
  exists r,
    value_of (echo_tts E sample_file) = Returns r
    /\ status_code r = 500%nat
    /\ dict_get "error_type" (body r) = Some (VStr (lit "general"))
    /\ dict_get "transcription" (body r) = None.
Proof.
  eexists. split; [vm_compute; reflexivity|]. repeat split.
Qed.

(** C1 (amended): in the echo pipeline, when transcription succeeds with
    text [t] and synthesis fails with a non-empty reason [e], the handler
    builds a response with the default status 200 whose body holds the
    transcribed text, [error = true] with [error_type = "tts"], the failure
    reason as message, no audio reference, and the fallback message
    ["I heard you say: " + t + " (Audio generation failed)"], which embeds
    the text verbatim.  This response is the answer whenever [t] and [e]
    can be encoded as UTF-8; otherwise the [except] clause answers with
    status 500 and an error body of type ["general"].  The session store is
    not touched. *)
Theorem echo_tts_synthesis_failure E file contents t e w :
  read file = Returns contents ->
  value_of (safe_transcribe_audio E contents) = Returns (Some t, None) ->
  value_of (safe_generate_tts E (Some t)) = Returns (None, Some e) ->
  truthy e = true ->
  exists resp w',
    echo_tts E file w = (Returns resp, w')
    /\ chat_histories w' = chat_histories w
    /\ (encodable t = true -> encodable e = true ->
        resp = {| body := [ "transcription" =: VStr t;
                            "error" =: VBool true;
                            "error_type" =: VStr (lit "tts");
                            "message" =: VStr e;
                            "fallback_message" =:
                              VStr (lit "I heard you say: " ++ t
                                      ++ lit " (Audio generation failed)");
                            "audio_url" =: VNone ];
                  status_code := 200 |})
    /\ (encodable t && encodable e = false ->
        status_code resp = 500%nat
        /\ dict_get "error" (body resp) = Some (VBool true)
        /\ dict_get "error_type" (body resp) = Some (VStr (lit "general"))).
Proof.
  intros Hread Hstt Htts He.
  unfold echo_tts.
  rewrite try_except_bind. unfold lift at 1. rewrite Hread.
  rewrite (try_except_bind_stateless _ _ _ _ (safe_transcribe_audio_stateless E contents)), Hstt.
  cbn [truthy_opt].
  rewrite (try_except_bind_stateless _ _ _ _ (safe_generate_tts_stateless E (Some t))), Htts.
  cbn [truthy_opt]. rewrite He.
  rewrite try_except_bind. unfold add, ret at 1.
  rewrite respond_run by apply encodable_lit.
  eexists _, _. split; [reflexivity|]. split; [reflexivity|].
  cbn [of_opt]. rewrite <- app_assoc.
  match goal with |- context [answer _ ?c _] =>
    destruct (answer_cases (lit "general") c 200) as [Hok Hfail] end.
  split.
  - intros Ht Hee. apply Hok. encodable_solve.
  - intros Henc. apply Hfail.
    cbn [value_encodable]. rewrite !encodable_app, !encodable_lit.
    cbn [andb]. rewrite !andb_true_r.
    destruct (encodable t), (encodable e); done.
Qed.

Lemma echo_tts_synthesis_failure_witness :
  read sample_file = Returns sample_audio
  /\ value_of (safe_transcribe_audio env_tts_down sample_audio)
     = Returns (Some (lit "hello"), None)
  /\ value_of (safe_generate_tts env_tts_down (Some (lit "hello")))
     = Returns (None, Some (lit "connection refused"))
  /\ truthy (lit "connection refused") = true
  /\ encodable (lit "hello") = true
  /\ encodable (lit "connection refused") = true
  /\ exists w',
    echo_tts env_tts_down sample_file initial =
      (Returns {| body := [ "transcription" =: VStr (lit "hello");
                            "error" =: VBool true;
                            "error_type" =: VStr (lit "tts");
                            "message" =: VStr (lit "connection refused");
                            "fallback_message" =:
                              VStr (lit "I heard you say: " ++ lit "hello"
                                      ++ lit " (Audio generation failed)");
                            "audio_url" =: VNone ];
                  status_code := 200 |}, w')
    /\ chat_histories w' = chat_histories initial.
Proof.
  do 6 (split; [reflexivity|]).
  destruct (echo_tts_synthesis_failure env_tts_down sample_file sample_audio
              (lit "hello") (lit "connection refused") initial
              eq_refl eq_refl eq_refl eq_refl)
    as (resp & w' & Hrun & Hstore & Hok & _).
  exists w'. rewrite <- (Hok eq_refl eq_refl). by split.
Defined.

(** ** C2: a failed transcription and the later stages *)

(** C2, at a failure whose reason is the empty string: the transcription
    helper reports the failure as [(None, "")], the test
    [if transcribe_error:] takes it for a success, and each of the three
    pipelines goes on to the later stages and answers with status 200. *)
Theorem transcription_failure_with_empty_reason_passes :
  value_of (safe_transcribe_audio env_stt_raises_empty sample_audio)
    = Returns (None, Some [])
  /\ (exists r,
        value_of (echo_tts env_stt_raises_empty sample_file) = Returns r
        /\ status_code r = 200%nat
        /\ dict_get "error" (body r) = Some (VBool false)
        /\ filter later_stage (calls_of (echo_tts env_stt_raises_empty sample_file))
           = [Call_safe_generate_tts None; AsyncClient_post None])
  /\ (exists r,
        value_of (llm_query_audio env_stt_raises_empty sample_file) = Returns r
        /\ status_code r = 200%nat
        /\ dict_get "error" (body r) = Some (VBool false)
        /\ filter later_stage
             (calls_of (llm_query_audio env_stt_raises_empty sample_file))
           = [Call_safe_generate_llm_response None None;
              GenerativeModel_generate_content None;
              Call_safe_generate_tts (Some (lit "hi there"));
              AsyncClient_post (Some (lit "hi there"))])
  /\ (exists r,
        value_of (agent_chat env_stt_raises_empty (lit "s1") sample_file) = Returns r
        /\ status_code r = 200%nat
        /\ dict_get "error" (body r) = Some (VBool false)
        /\ filter later_stage
             (calls_of (agent_chat env_stt_raises_empty (lit "s1") sample_file))
           = [Call_safe_generate_llm_response None (Some []);
              GenerativeModel_generate_content None;
              Call_safe_generate_tts (Some (lit "hi there"));
              AsyncClient_post (Some (lit "hi there"))]).
Proof.
  split; [reflexivity|].
  repeat split; eexists; repeat split; vm_compute; reflexivity.
Qed.

(** ** Reading the call log *)

Lemma generation_calls_app l1 l2 :
  generation_calls (l1 ++ l2) = generation_calls l1 ++ generation_calls l2.
Proof.
  induction l1 as [|ev l1 IH]; simpl; [done|].
  destruct ev; simpl; by rewrite ?IH.
Qed.

Lemma synthesis_calls_app l1 l2 :
  synthesis_calls (l1 ++ l2) = synthesis_calls l1 ++ synthesis_calls l2.
Proof.
  induction l1 as [|ev l1 IH]; simpl; [done|].
  destruct ev; simpl; by rewrite ?IH.
Qed.

Lemma appended_to_app s l1 l2 :
  appended_to s (l1 ++ l2) = appended_to s l1 ++ appended_to s l2.
Proof.
  induction l1 as [|ev l1 IH]; simpl; [done|].
  destruct ev; simpl; rewrite ?IH; try done.
  by case_decide.
Qed.

Lemma safe_transcribe_audio_log E audio_data :
  generation_calls (calls_of (safe_transcribe_audio E audio_data)) = []
  /\ synthesis_calls (calls_of (safe_transcribe_audio E audio_data)) = []
  /\ forall s, appended_to s (calls_of (safe_transcribe_audio E audio_data)) = [].
Proof.
  rewrite safe_transcribe_audio_calls.
  by destruct (truthy_opt (ASSEMBLYAI_API_KEY E)).
Qed.

(** The log of a chat request that got past the transcription check. *)
Lemma agent_chat_log E session_id contents transcription history r :
  let evs :=
    calls_of (safe_transcribe_audio E contents)
      ++ [List_append session_id (Turn (lit "user") transcription)]
      ++ calls_of (safe_generate_llm_response E transcription (Some history))
      ++ [List_append session_id (Turn (lit "assistant") (Some r))]
      ++ calls_of (safe_generate_tts E (Some r)) in
  generation_calls evs = [(transcription, Some history)]
  /\ synthesis_calls evs = [Some r]
  /\ forall s,
       appended_to s evs =
         if decide (session_id = s)
         then [Turn (lit "user") transcription; Turn (lit "assistant") (Some r)]
         else [].
Proof.
  intros evs. unfold evs.
  destruct (safe_transcribe_audio_log E contents) as (Hg1 & Hs1 & Ha1).
  destruct (safe_generate_llm_response_calls E transcription (Some history))
    as (evs2 & -> & Hg2 & Hs2 & Ha2).
  destruct (safe_generate_tts_calls E (Some r)) as (evs3 & -> & Hg3 & Hs3 & Ha3).
  split; [|split].
  - rewrite !generation_calls_app, Hg1. simpl.
    by rewrite ?generation_calls_app, ?Hg2, ?Hg3.
  - rewrite !synthesis_calls_app, Hs1. simpl.
    by rewrite ?synthesis_calls_app, ?Hs2, ?Hs3.
  - intros s. rewrite !appended_to_app, Ha1. simpl.
    rewrite ?appended_to_app, ?Ha2, ?Ha3.
    by case_decide.
Qed.

Lemma transcript_insert w session_id h l :
  transcript (World (<[session_id := h]> (chat_histories w)) l) session_id = h.
Proof. unfold transcript. simpl. by rewrite lookup_insert_eq. Qed.

(** ** C3: the conversation context of the second of two chat requests *)

(** C3, as stated, fails for a session that already holds turns: of three
    chat requests in a row on one session, the third is given the turns of
    the first and of the second as context, not the two turns of the second
    alone. *)
Lemma chat_context_includes_earlier_turns :
  let w0 := snd (agent_chat env_ok (lit "s1") sample_file initial) in
  let w1 := snd (agent_chat env_ok (lit "s1") sample_file w0) in
  let w2 := snd (agent_chat env_ok (lit "s1") sample_file w1) in
  let u := Turn (lit "user") (Some (lit "hello")) in
  let a := Turn (lit "assistant") (Some (lit "hi there")) in
  transcript w0 (lit "s1") = [u; a]
  /\ appended_to (lit "s1") (drop (length (calls w0)) (calls w1)) = [u; a]
  /\ generation_calls (drop (length (calls w1)) (calls w2))
     = [(Some (lit "hello"), Some [u; a; u; a])]
  /\ generation_calls (drop (length (calls w1)) (calls w2))
     <> [(Some (lit "hello"), Some [u; a])].
Proof.
  vm_compute. repeat split; discriminate.
Qed.

(** C3 (amended): two chat requests in a row on one session, both with a
    successful transcription ([t1], then [t2]).  The second request calls
    the generation helper exactly once, with prompt [t2] and, as
    conversation history, the transcript the session had before the first
    request followed by the two turns of the first request: its user turn
    [t1] and its assistant turn [a1], which the first request left in the
    store and, when it answered with status 200, returned as its response
    text.  The second request's own user turn is not part of it.  For a
    session that did not exist before the first request, the history is
    exactly those two turns. *)
Theorem chat_context_is_previous_turns
    E1 E2 session_id file1 file2 contents1 contents2 t1 t2 w :
  read file1 = Returns contents1 ->
  value_of (safe_transcribe_audio E1 contents1) = Returns (Some t1, None) ->
  read file2 = Returns contents2 ->
  value_of (safe_transcribe_audio E2 contents2) = Returns (Some t2, None) ->
  exists resp1 a1 w1 resp2 w2 evs,
    agent_chat E1 session_id file1 w = (Returns resp1, w1)
    /\ transcript w1 session_id
       = transcript w session_id
           ++ [Turn (lit "user") (Some t1); Turn (lit "assistant") (Some a1)]
    /\ (status_code resp1 = 200%nat ->
        dict_get "llm_response" (body resp1) = Some (VStr a1))
    /\ agent_chat E2 session_id file2 w1 = (Returns resp2, w2)
    /\ calls w2 = calls w1 ++ evs
    /\ generation_calls evs
       = [(Some t2,
           Some (transcript w session_id
                   ++ [Turn (lit "user") (Some t1);
                       Turn (lit "assistant") (Some a1)]))]
    /\ (chat_histories w !! session_id = None ->
        generation_calls evs
        = [(Some t2,
            Some [Turn (lit "user") (Some t1);
                  Turn (lit "assistant") (Some a1)])]).
Proof.
  intros Hread1 Hstt1 Hread2 Hstt2.
  destruct (safe_generate_llm_response_cases E1 (Some t1)
              (Some (transcript w session_id)))
    as (a1 & e1 & Hllm1 & _ & _).
  assert (Htts1 : exists u te,
             value_of (safe_generate_tts E1 (Some a1)) = Returns (u, te)).
  { destruct (safe_generate_tts_cases E1 (Some a1))
      as [(u & _ & H) | (e & H)]; eauto. }
  destruct Htts1 as (u1 & te1 & Htts1).
  pose proof (agent_chat_run _ session_id _ _ _ _ _ _ _ _ w
                Hread1 Hstt1 eq_refl Hllm1 Htts1) as Hrun1.
  cbv zeta in Hrun1.
  match type of Hrun1 with _ = (Returns ?r, ?w') =>
    set (resp1 := r) in *; set (w1 := w') in * end.
  assert (Hw1 : transcript w1 session_id
                = transcript w session_id
                    ++ [Turn (lit "user") (Some t1);
                        Turn (lit "assistant") (Some a1)])
    by apply transcript_insert.
  destruct (safe_generate_llm_response_cases E2 (Some t2)
              (Some (transcript w1 session_id)))
    as (a2 & e2 & Hllm2 & _ & _).
  assert (Htts2 : exists u te,
             value_of (safe_generate_tts E2 (Some a2)) = Returns (u, te)).
  { destruct (safe_generate_tts_cases E2 (Some a2))
      as [(u & _ & H) | (e & H)]; eauto. }
  destruct Htts2 as (u2 & te2 & Htts2).
  pose proof (agent_chat_run _ session_id _ _ _ _ _ _ _ _ w1
                Hread2 Hstt2 eq_refl Hllm2 Htts2) as Hrun2.
  cbv zeta in Hrun2.
  exists resp1, a1, w1. eexists _, _, _.
  split; [exact Hrun1|]. split; [exact Hw1|].
  split.
  { unfold resp1, answer.
    match goal with |- context [render_error ?c] =>
      destruct (render_error c) end; cbn [status_code body];
      [discriminate | reflexivity]. }
  split; [exact Hrun2|]. split; [reflexivity|].
  destruct (agent_chat_log E2 session_id contents2 (Some t2)
              (transcript w1 session_id) a2) as (Hg & _ & _).
  rewrite Hg, Hw1. split; [reflexivity|].
  intros Hnew. unfold transcript. by rewrite Hnew.
Qed.

Lemma chat_context_is_previous_turns_witness :
  read sample_file = Returns sample_audio
  /\ value_of (safe_transcribe_audio env_ok sample_audio)
     = Returns (Some (lit "hello"), None)
  /\ value_of (safe_transcribe_audio env_tts_down sample_audio)
     = Returns (Some (lit "hello"), None)
  /\ exists resp1 a1 w1 resp2 w2 evs,
    agent_chat env_ok (lit "s1") sample_file initial = (Returns resp1, w1)
    /\ transcript w1 (lit "s1")
       = transcript initial (lit "s1")
           ++ [Turn (lit "user") (Some (lit "hello"));
               Turn (lit "assistant") (Some a1)]
    /\ (status_code resp1 = 200%nat ->
        dict_get "llm_response" (body resp1) = Some (VStr a1))
    /\ agent_chat env_tts_down (lit "s1") sample_file w1 = (Returns resp2, w2)
    /\ calls w2 = calls w1 ++ evs
    /\ generation_calls evs
       = [(Some (lit "hello"),
           Some (transcript initial (lit "s1")
                   ++ [Turn (lit "user") (Some (lit "hello"));
                       Turn (lit "assistant") (Some a1)]))]
    /\ (chat_histories initial !! lit "s1" = None ->
        generation_calls evs
        = [(Some (lit "hello"),
            Some [Turn (lit "user") (Some (lit "hello"));
                  Turn (lit "assistant") (Some a1)])]).
Proof.
  do 3 (split; [reflexivity|]).
  apply (chat_context_is_previous_turns env_ok env_tts_down (lit "s1")
           sample_file sample_file sample_audio sample_audio
           (lit "hello") (lit "hello") initial); reflexivity.
Defined.

(** ** C4: a chat request appends one user turn and one assistant turn *)



(** ** C5, C10: the generate-only operation *)

Lemma llm_query_run E text response error w :
  truthy (strip text) = true ->
  value_of (safe_generate_llm_response E (Some text) None)
    = Returns (response, error) ->
  llm_query E text w =
    (Returns
       (if truthy_opt error && negb (truthy_opt response)
        then answer (lit "llm") (create_fallback_response error (lit "llm")) 500
        else answer (lit "llm")
               [ "response" =: of_opt response;
                 "input" =: VStr text;
                 "error" =: VBool false;
                 "has_fallback" =: VBool (truthy_opt error) ] 200),
     World (chat_histories w)
       (calls w ++ calls_of (safe_generate_llm_response E (Some text) None))).
Proof.
  intros Htext Hllm. unfold llm_query. rewrite Htext. cbn [negb].
  rewrite (try_except_bind_stateless _ _ _ _
             (safe_generate_llm_response_stateless E _ _)), Hllm.
  destruct (truthy_opt error && negb (truthy_opt response));
    by rewrite respond_run by apply encodable_lit.
Qed.

(** Generate-only when the generation helper reports a failure with a
    non-empty reason: the fallback sentence is answered and flagged. *)
Lemma llm_query_fallback E text e w :
  truthy (strip text) = true ->
  encodable text = true ->
  value_of (safe_generate_llm_response E (Some text) None)
    = Returns (fallback_response_0, Some e) ->
  truthy e = true ->
  fst (llm_query E text w) =
    Returns {| body := [ "response" =: of_opt fallback_response_0;
                         "input" =: VStr text;
                         "error" =: VBool false;
                         "has_fallback" =: VBool true ];
               status_code := 200 |}.
Proof.
  intros Htext Henc Hllm He. rewrite (llm_query_run _ _ _ _ _ Htext Hllm).
  cbn [truthy_opt fst]. rewrite He. cbn [andb negb].
  replace (truthy_opt fallback_response_0) with true by reflexivity.
  cbn [negb andb]. f_equal. apply answer_rendered.
  cbn [value_encodable]. rewrite Henc. reflexivity.
Qed.

(** C5, at a failure whose reason is the empty string: generation fails,
    the fallback sentence is substituted and the request succeeds with
    [error = false], but [has_fallback], computed as [bool(error)], is
    false. *)
Theorem llm_query_fallback_with_empty_reason_unflagged :
  truthy (strip (lit "tell me a joke")) = true
  /\ value_of (safe_generate_llm_response env_llm_raises_empty
                 (Some (lit "tell me a joke")) None)
     = Returns (fallback_response_0, Some [])
  /\ value_of (llm_query env_llm_raises_empty (lit "tell me a joke"))
     = Returns {| body := [ "response" =: of_opt fallback_response_0;
                            "input" =: VStr (lit "tell me a joke");
                            "error" =: VBool false;
                            "has_fallback" =: VBool false ];
                  status_code := 200 |}.
Proof. repeat split; vm_compute; reflexivity. Qed.

(** C10: in the generate-only operation the generation helper returns,
    for every input, a non-empty response text [r] (never [None]), so the
    guard [error and not response] is false and the status-500 branch
    behind it is never taken.  For a text that is not blank the handler
    builds the response of the other branch, with status 200,
    [error = false] and [r] as response text, which is the answer whenever
    the text and [r] can be encoded as UTF-8 (otherwise it is the [except]
    clause that answers); a blank text is answered with status 400. *)
Theorem llm_query_never_reaches_error_branch E text w :
  exists r error w',
    value_of (safe_generate_llm_response E (Some text) None)
      = Returns (Some r, error)
    /\ truthy r = true
    /\ truthy_opt error && negb (truthy_opt (Some r)) = false
    /\ llm_query E text w =
         (Returns
            (if truthy (strip text)
             then
               let content := [ "response" =: VStr r;
                                "input" =: VStr text;
                                "error" =: VBool false;
                                "has_fallback" =: VBool (truthy_opt error) ] in
               if encodable r && encodable text
               then {| body := content; status_code := 200 |}
               else answer (lit "llm") content 200
             else {| body := create_fallback_response
                               (Some (lit "Empty text provided")) (lit "llm");
                     status_code := 400 |}), w').
Proof.
  destruct (safe_generate_llm_response_cases E (Some text) None)
    as (r & error & Hllm & Hr & _).
  exists r, error.
  exists (if truthy (strip text)
          then World (chat_histories w)
                 (calls w ++ calls_of (safe_generate_llm_response E (Some text) None))
          else w).
  split; [exact Hllm|]. split; [exact Hr|].
  assert (Hguard : truthy_opt error && negb (truthy_opt (Some r)) = false).
  { cbn [truthy_opt]. rewrite Hr. apply andb_false_r. }
  split; [exact Hguard|].
  destruct (truthy (strip text)) eqn:Htext.
  - rewrite (llm_query_run _ _ _ _ _ Htext Hllm), Hguard. cbv zeta.
    destruct (encodable r && encodable text) eqn:Henc; [|reflexivity].
    rewrite answer_rendered; [reflexivity|].
    apply andb_true_iff in Henc as [Hr' Htext'].
    cbn [value_encodable of_opt]. by rewrite Hr', Htext'.
  - unfold llm_query. rewrite Htext. cbn [negb].
    rewrite respond_run by apply encodable_lit.
    by rewrite answer_rendered by reflexivity.
Qed.

(** ** C6: blank input to the generate-only operation *)

Lemma lstrip_blank s : forallb isspace s = true -> lstrip s = [].
Proof.
  induction s as [|c s IH]; simpl; [done|].
  destruct (isspace c); [exact IH | discriminate].
Qed.

Lemma strip_blank s : forallb isspace s = true -> strip s = [].
Proof. intros H. unfold strip. by rewrite lstrip_blank. Qed.

(** What [lstrip] leaves is empty or starts with a character that is not
    whitespace. *)
Lemma lstrip_head s :
  match lstrip s with
  | [] => forallb isspace s = true
  | c :: _ => isspace c = false
  end.
Proof.
  induction s as [|c s IH]; simpl; [done|].
  destruct (isspace c) eqn:Hc; simpl; [exact IH | exact Hc].
Qed.

(** [not text.strip()] holds exactly for the texts made of whitespace
    only, the empty text among them. *)
Lemma strip_falsy_iff s :
  truthy (strip s) = false <-> forallb isspace s = true.
Proof.
  split; [|intros H; by rewrite strip_blank].
  unfold strip, rstrip. intros H.
  pose proof (lstrip_head s) as Hl.
  destruct (lstrip s) as [|c l] eqn:Hs; [exact Hl|].
  exfalso.
  pose proof (lstrip_head (rev (c :: l))) as Hr.
  destruct (lstrip (rev (c :: l))) as [|c' l'] eqn:Hrs.
  - rewrite forallb_forall in Hr.
    rewrite (Hr c) in Hl; [discriminate|].
    apply in_rev. rewrite rev_involutive. by left.
  - simpl in H. destruct (rev l' ++ [c']) eqn:Hd; [|discriminate].
    by destruct (rev l').
Qed.

(** C6: for every text that is empty or made of whitespace only, the
    generate-only operation answers with status 400 and the standard error
    body of type ["llm"], and leaves the state as it was: nothing is added
    to the call log, so neither the generation helper nor the collaborator
    behind it is called. *)
Theorem llm_query_rejects_blank E text w :
  forallb isspace text = true ->
  llm_query E text w =
    (Returns {| body := [ "error" =: VBool true;
                          "error_type" =: VStr (lit "llm");
                          "message" =: VStr (lit "Empty text provided");
                          "fallback_message" =:
                            VStr (lit "I'm having difficulty processing your request at the moment. Please try again later.");
                          "audio_url" =: VNone ];
                status_code := 400 |}, w).
Proof.
  intros Hblank. unfold llm_query.
  rewrite (strip_blank _ Hblank). cbn [truthy negb].
  rewrite respond_run by apply encodable_lit.
  by rewrite answer_rendered by reflexivity.
Qed.

Lemma llm_query_rejects_blank_witness :
  forallb isspace [32; 9; 10; 8195] = true
  /\ llm_query env_ok [32; 9; 10; 8195] initial =
    (Returns {| body := [ "error" =: VBool true;
                          "error_type" =: VStr (lit "llm");
                          "message" =: VStr (lit "Empty text provided");
                          "fallback_message" =:
                            VStr (lit "I'm having difficulty processing your request at the moment. Please try again later.");
                          "audio_url" =: VNone ];
                status_code := 400 |}, initial).
Proof.
  split; [reflexivity|].
  apply (llm_query_rejects_blank env_ok [32; 9; 10; 8195] initial).
  reflexivity.
Defined.

(** ** C7: the generate-with-audio-input pipeline *)

(** Generate-with-audio-input after a successful transcription, whatever
    generation and synthesis do: the handler builds a status-200 response
    with [error = false]; synthesis is attempted once, on the text the
    generation helper returned; [has_llm_fallback] is there exactly when
    the generation helper reports a non-empty error, [tts_error] and the
    fallback message exactly when the synthesis helper does.  That response
    is the answer whenever it can be rendered. *)
Lemma llm_query_audio_degraded E file contents t w :
  read file = Returns contents ->
  value_of (safe_transcribe_audio E contents) = Returns (Some t, None) ->
  exists r llm_error audio_url tts_error content w' evs,
    value_of (safe_generate_llm_response E (Some t) None)
      = Returns (Some r, llm_error)
    /\ value_of (safe_generate_tts E (Some r)) = Returns (audio_url, tts_error)
    /\ llm_query_audio E file w
       = (Returns (answer (lit "general") content 200), w')
    /\ calls w' = calls w ++ evs
    /\ synthesis_calls evs = [Some r]
    /\ dict_get "error" content = Some (VBool false)
    /\ dict_get "transcription" content = Some (VStr t)
    /\ dict_get "llm_response" content = Some (VStr r)
    /\ dict_get "has_llm_fallback" content
       = (if truthy_opt llm_error then Some (VBool true) else None)
    /\ dict_get "tts_error" content
       = (if truthy_opt tts_error then Some (VBool true) else None)
    /\ dict_get "fallback_message" content
       = (if truthy_opt tts_error
          then Some (VStr (lit "I'm having trouble generating audio right now. Here's my text response: " ++ r))
          else None).
Proof.
  intros Hread Hstt.
  destruct (safe_generate_llm_response_cases E (Some t) None)
    as (r & llm_error & Hllm & _ & _).
  assert (Htts : exists u te,
             value_of (safe_generate_tts E (Some r)) = Returns (u, te)).
  { destruct (safe_generate_tts_cases E (Some r))
      as [(u & _ & H) | (e & H)]; eauto. }
  destruct Htts as (audio_url & tts_error & Htts).
  exists r, llm_error, audio_url, tts_error. eexists _, _, _.
  split; [exact Hllm|]. split; [exact Htts|].
  split; [apply (llm_query_audio_run _ _ _ _ _ _ _ _ _ _ Hread Hstt eq_refl Hllm Htts)|].
  split; [reflexivity|].
  split.
  { destruct (safe_transcribe_audio_log E contents) as (_ & Hs1 & _).
    destruct (safe_generate_llm_response_calls E (Some t) None)
      as (evs2 & -> & _ & Hs2 & _).
    destruct (safe_generate_tts_calls E (Some r)) as (evs3 & -> & _ & Hs3 & _).
    rewrite !synthesis_calls_app, Hs1. simpl.
    by rewrite ?synthesis_calls_app, ?Hs2, ?Hs3. }
  by destruct (truthy_opt tts_error), (truthy_opt llm_error).
Qed.

(** Both flags on one response. *)
Example llm_query_audio_both_flags :
  exists resp,
    value_of (llm_query_audio env_llm_tts_down sample_file) = Returns resp
    /\ status_code resp = 200%nat
    /\ dict_get "error" (body resp) = Some (VBool false)
    /\ dict_get "has_llm_fallback" (body resp) = Some (VBool true)
    /\ dict_get "tts_error" (body resp) = Some (VBool true).
Proof. eexists. split; [vm_compute; reflexivity|]. repeat split. Qed.

(** C7, at a synthesis failure whose reason is the empty string:
    transcription and generation succeed, synthesis fails, and the response
    carries no [tts_error] flag and no fallback message, only a null audio
    reference. *)
Theorem llm_query_audio_synthesis_failure_with_empty_reason_unflagged :
  value_of (safe_transcribe_audio env_tts_raises_empty sample_audio)
    = Returns (Some (lit "hello"), None)
  /\ value_of (safe_generate_llm_response env_tts_raises_empty
                 (Some (lit "hello")) None)
     = Returns (Some (lit "hi there"), None)
  /\ value_of (safe_generate_tts env_tts_raises_empty (Some (lit "hi there")))
     = Returns (None, Some [])
  /\ exists resp,
       value_of (llm_query_audio env_tts_raises_empty sample_file) = Returns resp
       /\ resp = {| body := [ "transcription" =: VStr (lit "hello");
                              "llm_response" =: VStr (lit "hi there");
                              "error" =: VBool false;
                              "audio_url" =: VNone ];
                    status_code := 200 |}
       /\ dict_get "tts_error" (body resp) = None
       /\ dict_get "fallback_message" (body resp) = None.
Proof.
  do 3 (split; [reflexivity|]).
  eexists. split; [vm_compute; reflexivity|]. repeat split.
Qed.

(** ** C9: a session that was never referenced *)

Lemma get_chat_history_run E session_id w :
  get_chat_history E session_id w =
    (Returns (answer (lit "general")
                [ "session_id" =: VStr session_id;
                  "chat_history" =: history_value (transcript w session_id);
                  "error" =: VBool false ] 200), w).
Proof.
  unfold get_chat_history. rewrite try_except_bind.
  unfold contains at 1, transcript.
  destruct (chat_histories w !! session_id) as [h|] eqn:Hs; simpl.
  - rewrite try_except_bind, (getitem_run _ _ _ h) by done.
    by rewrite respond_run by apply encodable_lit.
  - by rewrite respond_run by apply encodable_lit.
Qed.

Lemma clear_chat_history_run E session_id w :
  clear_chat_history E session_id w =
    (Returns (answer (lit "general")
                [ "session_id" =: VStr session_id;
                  "message" =: VStr (lit "Chat history cleared");
                  "error" =: VBool false ] 200),
     World (delete session_id (chat_histories w)) (calls w)).
Proof.
  unfold clear_chat_history. rewrite try_except_bind.
  unfold contains at 1.
  destruct (chat_histories w !! session_id) as [h|] eqn:Hs; simpl.
  - rewrite try_except_bind. unfold delitem at 1. rewrite Hs.
    by rewrite respond_run by apply encodable_lit.
  - rewrite try_except_bind. unfold ret at 1.
    rewrite respond_run by apply encodable_lit.
    rewrite delete_id by done. by destruct w.
Qed.




(** Deleting twice, whether or not the session exists: both calls give
    the same answer, and the second changes nothing. *)
Lemma clear_chat_history_twice E session_id w :
  exists cleared w1,
    clear_chat_history E session_id w = (Returns cleared, w1)
    /\ clear_chat_history E session_id w1 = (Returns cleared, w1)
    /\ chat_histories w1 !! session_id = None.
Proof.
  eexists _, _. split; [apply clear_chat_history_run|].
  split; [|apply lookup_delete_eq].
  rewrite clear_chat_history_run. simpl.
  by rewrite delete_id by apply lookup_delete_eq.
Qed.


(** ** Computations that leave the session store alone *)

Lemma store_untouched_ret {A} (a : A) : store_untouched (ret a).
Proof. intros w. exists []. rewrite app_nil_r. by destruct w. Qed.

Lemma store_untouched_raise {A} msg : store_untouched (raise (A := A) msg).
Proof. intros w. exists []. rewrite app_nil_r. by destruct w. Qed.

Lemma store_untouched_lift {A} (o : outcome A) : store_untouched (lift o).
Proof. intros w. exists []. rewrite app_nil_r. by destruct w. Qed.

Lemma store_untouched_stateless {A} (c : M A) :
  stateless c -> (forall s, appended_to s (calls_of c) = []) -> store_untouched c.
Proof. intros Hc Ha w. exists (calls_of c). by rewrite (Hc w). Qed.

Lemma store_untouched_bind {A B} (c : M A) (k : A -> M B) :
  store_untouched c -> (forall a, store_untouched (k a)) ->
  store_untouched (bind c k).
Proof.
  intros Hc Hk w. unfold bind.
  destruct (Hc w) as (evs1 & H1 & Ha1).
  destruct (c w) as [[a|e] w1]; simpl in H1; subst w1.
  - destruct (Hk a (World (chat_histories w) (calls w ++ evs1)))
      as (evs2 & H2 & Ha2).
    exists (evs1 ++ evs2). rewrite H2. simpl. rewrite app_assoc.
    split; [done|]. intros s. by rewrite appended_to_app, Ha1, Ha2.
  - by exists evs1.
Qed.

Lemma store_untouched_try_except {A} (body : M A) (handler : str -> M A) :
  store_untouched body -> (forall e, store_untouched (handler e)) ->
  store_untouched (try_except body handler).
Proof.
  intros Hc Hk w. unfold try_except.
  destruct (Hc w) as (evs1 & H1 & Ha1).
  destruct (body w) as [[a|e] w1]; simpl in H1; subst w1.
  - by exists evs1.
  - destruct (Hk e (World (chat_histories w) (calls w ++ evs1)))
      as (evs2 & H2 & Ha2).
    exists (evs1 ++ evs2). rewrite H2. simpl. rewrite app_assoc.
    split; [done|]. intros s. by rewrite appended_to_app, Ha1, Ha2.
Qed.

Lemma store_untouched_new_JSONResponse content status :
  store_untouched (new_JSONResponse content status).
Proof.
  unfold new_JSONResponse. destruct (render_error content);
    [apply store_untouched_raise | apply store_untouched_ret].
Qed.

Lemma store_untouched_rendered (c : M JSONResponse) :
  store_untouched c -> store_untouched (rendered c).
Proof.
  intros H. apply store_untouched_bind; [exact H|].
  intros r. apply store_untouched_ret.
Qed.

Lemma store_untouched_on_exception error_type e :
  store_untouched (on_exception error_type e).
Proof. apply store_untouched_new_JSONResponse. Qed.

Lemma store_untouched_safe_transcribe_audio E audio_data :
  store_untouched (safe_transcribe_audio E audio_data).
Proof.
  apply store_untouched_stateless; [apply safe_transcribe_audio_stateless|].
  apply safe_transcribe_audio_log.
Qed.

Lemma store_untouched_safe_generate_llm_response E prompt history :
  store_untouched (safe_generate_llm_response E prompt history).
Proof.
  apply store_untouched_stateless; [apply safe_generate_llm_response_stateless|].
  destruct (safe_generate_llm_response_calls E prompt history)
    as (evs & -> & _ & _ & Ha). intros s. simpl. apply Ha.
Qed.

Lemma store_untouched_safe_generate_tts E text :
  store_untouched (safe_generate_tts E text).
Proof.
  apply store_untouched_stateless; [apply safe_generate_tts_stateless|].
  destruct (safe_generate_tts_calls E text) as (evs & -> & _ & _ & Ha).
  intros s. simpl. apply Ha.
Qed.

Lemma store_untouched_add a b : store_untouched (add a b).
Proof.
  unfold add. destruct b; [apply store_untouched_ret | apply store_untouched_raise].
Qed.

Lemma store_untouched_finish_response prefix d llm_response llm_error audio_url tts_error :
  store_untouched (finish_response prefix d llm_response llm_error audio_url tts_error).
Proof.
  unfold finish_response.
  apply store_untouched_bind; [|intros; apply store_untouched_new_JSONResponse].
  destruct (truthy_opt tts_error); [|apply store_untouched_ret].
  apply store_untouched_bind; [|intros; apply store_untouched_ret].
  apply store_untouched_add.
Qed.

Create HintDb untouched.

#[local] Hint Resolve store_untouched_ret store_untouched_raise
  store_untouched_lift store_untouched_new_JSONResponse
  store_untouched_on_exception store_untouched_add
  store_untouched_safe_transcribe_audio
  store_untouched_safe_generate_llm_response store_untouched_safe_generate_tts
  store_untouched_finish_response : untouched.

Ltac untouched :=
  repeat first
    [ solve [auto with untouched]
    | apply store_untouched_rendered
    | apply store_untouched_try_except; [|intros]
    | apply store_untouched_bind; [|intros]
    | match goal with
      | |- store_untouched (match ?x with pair _ _ => _ end) => destruct x
      | |- store_untouched (if ?b then _ else _) => destruct b
      end ].

Lemma store_untouched_generate_tts E text : store_untouched (generate_tts E text).
Proof. unfold generate_tts. untouched. Qed.

Lemma store_untouched_upload_audio E file : store_untouched (upload_audio E file).
Proof.
  unfold upload_audio. untouched.
  intros w. eexists [_]. by split.
Qed.

Lemma store_untouched_transcribe_audio E file :
  store_untouched (transcribe_audio E file).
Proof. unfold transcribe_audio. untouched. Qed.

Lemma store_untouched_echo_tts E file : store_untouched (echo_tts E file).
Proof. unfold echo_tts. untouched. Qed.

Lemma store_untouched_llm_query E text : store_untouched (llm_query E text).
Proof. unfold llm_query. untouched. Qed.

Lemma store_untouched_llm_query_audio E file :
  store_untouched (llm_query_audio E file).
Proof. unfold llm_query_audio. untouched. Qed.

Lemma store_untouched_get_chat_history E session_id :
  store_untouched (get_chat_history E session_id).
Proof.
  intros w. exists []. rewrite get_chat_history_run, app_nil_r. split; [|done].
  by destruct w.
Qed.

Lemma store_untouched_create_new_session E : store_untouched (create_new_session E).
Proof. unfold create_new_session. untouched. Qed.

Lemma store_untouched_health_check E : store_untouched (health_check E).
Proof. unfold health_check. untouched. Qed.

(** ** The session store under a chat request *)

(** What the transcription stage hands to a chat request. *)
Lemma safe_transcribe_audio_verdict E contents :
  exists transcription transcribe_error,
    value_of (safe_transcribe_audio E contents)
      = Returns (transcription, transcribe_error)
    /\ (truthy_opt transcribe_error = true ->
        exists e, transcription = None /\ transcribe_error = Some e
                  /\ truthy e = true).
Proof.
  destruct (safe_transcribe_audio_cases E contents)
    as [(t & _ & H) | (e & H)]; eexists _, _; (split; [exact H|]).
  - discriminate.
  - intros He. by exists e.
Qed.

(** A chat request leaves in the store the transcript of its session
    extended by its exchange, and logs the appends of exactly those
    turns. *)
Lemma agent_chat_store E session_id file w :
  exists evs,
    snd (agent_chat E session_id file w)
    = World (if decide (exchange E file (transcript w session_id) = [])
             then chat_histories w
             else <[session_id :=
                      transcript w session_id
                        ++ exchange E file (transcript w session_id)]>
                    (chat_histories w))
        (calls w ++ evs)
    /\ forall s,
         appended_to s evs =
           if decide (session_id = s)
           then exchange E file (transcript w session_id) else [].
Proof.
  unfold exchange.
  destruct (read file) as [contents|e] eqn:Hread.
  2:{ rewrite decide_True by done.
      unfold agent_chat. rewrite try_except_bind. unfold lift at 1.
      rewrite Hread.
      destruct (store_untouched_on_exception (lit "general") e w)
        as (evs & -> & Ha).
      exists evs. split; [done|]. intros s. rewrite Ha. by case_decide. }
  destruct (safe_transcribe_audio_verdict E contents)
    as (transcription & transcribe_error & Hstt & Hfail).
  rewrite Hstt.
  destruct (truthy_opt transcribe_error) eqn:Hterr.
  - destruct (Hfail eq_refl) as (e & -> & -> & He).
    destruct (transcription_failure_aborts E session_id file contents e w
                Hread Hstt He) as (_ & _ & -> & _).
    rewrite decide_True by done.
    eexists. split; [reflexivity|]. intros s.
    destruct (safe_transcribe_audio_log E contents) as (_ & _ & ->).
    by case_decide.
  - destruct (safe_generate_llm_response_cases E transcription
                (Some (transcript w session_id)))
      as (r & llm_error & Hllm & _ & _).
    assert (Htts : exists u te,
               value_of (safe_generate_tts E (Some r)) = Returns (u, te)).
    { destruct (safe_generate_tts_cases E (Some r))
        as [(u & _ & H) | (e & H)]; eauto. }
    destruct Htts as (audio_url & tts_error & Htts).
    rewrite Hllm, decide_False by done.
    rewrite (agent_chat_run _ _ _ _ _ _ _ _ _ _ _ Hread Hstt Hterr Hllm Htts).
    eexists. split; [reflexivity|].
    apply agent_chat_log.
Qed.

(** The transcript of a session after one request. *)
Lemma handle_transcript E req session_id w :
  transcript (snd (handle E req w)) session_id
  = history_after [(E, req)] session_id (transcript w session_id).
Proof.
  assert (Hquiet : forall c : M reply, store_untouched c ->
            transcript (snd (c w)) session_id = transcript w session_id).
  { intros c Hc. by destruct (Hc w) as (evs & -> & _). }
  destruct req as [text|file|file|file|text|file|s file|s|s| |];
    cbn [handle history_after].
  - apply Hquiet, store_untouched_rendered, store_untouched_generate_tts.
  - apply Hquiet, store_untouched_upload_audio.
  - apply Hquiet, store_untouched_transcribe_audio.
  - apply Hquiet, store_untouched_rendered, store_untouched_echo_tts.
  - apply Hquiet, store_untouched_rendered, store_untouched_llm_query.
  - apply Hquiet, store_untouched_rendered, store_untouched_llm_query_audio.
  - assert (Hsnd : snd (rendered (agent_chat E s file) w)
                    = snd (agent_chat E s file w)).
    { unfold rendered, bind. by destruct (agent_chat E s file w) as [[r|e] w1]. }
    rewrite Hsnd.
    destruct (agent_chat_store E s file w) as (evs & -> & _).
    unfold transcript at 1. cbn [chat_histories].
    destruct (decide (s = session_id)) as [->|Hs].
    + destruct (decide (exchange E file (transcript w session_id) = []))
        as [Hx|Hx].
      * by rewrite Hx, app_nil_r.
      * by rewrite lookup_insert_eq.
    + destruct (decide (exchange E file (transcript w s) = [])); [done|].
      by rewrite lookup_insert_ne.
  - apply Hquiet, store_untouched_rendered, store_untouched_get_chat_history.
  - unfold rendered, bind. rewrite clear_chat_history_run.
    unfold transcript, ret; cbn [snd chat_histories].
    destruct (decide (s = session_id)) as [->|Hs].
    + by rewrite lookup_delete_eq.
    + by rewrite lookup_delete_ne.
  - apply Hquiet, store_untouched_rendered, store_untouched_create_new_session.
  - apply Hquiet, store_untouched_rendered, store_untouched_health_check.
Qed.

(** ** C8: the transcript of a session over a run of requests *)

Lemma history_after_app reqs1 reqs2 session_id history :
  history_after (reqs1 ++ reqs2) session_id history
  = history_after reqs2 session_id (history_after reqs1 session_id history).
Proof.
  revert history.
  induction reqs1 as [|[E req] reqs1 IH]; intros history; [done|].
  destruct req; cbn [app history_after]; try apply IH;
    case_decide; apply IH.
Qed.

(** Every request other than the deletion of a session leaves its
    transcript in place and extends it by the turns the request appends. *)
Lemma handle_extends_transcript E req session_id w :
  req <> DELETE_history session_id ->
  exists evs,
    calls (snd (handle E req w)) = calls w ++ evs
    /\ transcript (snd (handle E req w)) session_id
       = transcript w session_id ++ appended_to session_id evs.
Proof.
  intros Hreq.
  assert (Hquiet : forall c : M reply, store_untouched c ->
            exists evs,
              calls (snd (c w)) = calls w ++ evs
              /\ transcript (snd (c w)) session_id
                 = transcript w session_id ++ appended_to session_id evs).
  { intros c Hc. destruct (Hc w) as (evs & -> & Ha). exists evs.
    split; [done|]. by rewrite Ha, app_nil_r. }
  destruct req as [text|file|file|file|text|file|s file|s|s| |]; cbn [handle].
  - apply Hquiet, store_untouched_rendered, store_untouched_generate_tts.
  - apply Hquiet, store_untouched_upload_audio.
  - apply Hquiet, store_untouched_transcribe_audio.
  - apply Hquiet, store_untouched_rendered, store_untouched_echo_tts.
  - apply Hquiet, store_untouched_rendered, store_untouched_llm_query.
  - apply Hquiet, store_untouched_rendered, store_untouched_llm_query_audio.
  - assert (Hsnd : snd (rendered (agent_chat E s file) w)
                   = snd (agent_chat E s file w)).
    { unfold rendered, bind. by destruct (agent_chat E s file w) as [[r|e] w1]. }
    rewrite Hsnd.
    destruct (agent_chat_store E s file w) as (evs & -> & Ha). exists evs.
    split; [done|]. rewrite Ha. unfold transcript at 1. cbn [chat_histories].
    destruct (decide (s = session_id)) as [->|Hs].
    + destruct (decide (exchange E file (transcript w session_id) = []))
        as [Hx|Hx].
      * by rewrite Hx, app_nil_r.
      * by rewrite lookup_insert_eq.
    + rewrite app_nil_r.
      destruct (decide (exchange E file (transcript w s) = [])); [done|].
      by rewrite lookup_insert_ne.
  - apply Hquiet, store_untouched_rendered, store_untouched_get_chat_history.
  - exists []. unfold rendered, bind. rewrite clear_chat_history_run.
    unfold ret. cbn [snd calls]. rewrite !app_nil_r. split; [done|].
    unfold transcript. cbn [chat_histories].
    rewrite lookup_delete_ne; [done | congruence].
  - apply Hquiet, store_untouched_rendered, store_untouched_create_new_session.
  - apply Hquiet, store_untouched_rendered, store_untouched_health_check.
Qed.

(** C8, as stated, fails at a session that holds a turn with a lone
    surrogate: the chat request has appended its two turns to the store,
    and reading the session answers with status 500 and the general error
    body, without the turns. *)
Lemma get_chat_history_fails_on_lone_surrogate :
  let t := [104; 105; 55357] in
  let w := snd (agent_chat env_stt_surrogate (lit "s1") sample_file initial) in
  transcript w (lit "s1")
    = [Turn (lit "user") (Some t);
       Turn (lit "assistant") (Some (lit "hi there"))]
  /\ appended_to (lit "s1") (calls w)
     = [Turn (lit "user") (Some t);
        Turn (lit "assistant") (Some (lit "hi there"))]
  /\ exists resp,
       get_chat_history env_ok (lit "s1") w = (Returns resp, w)
       /\ status_code resp = 500%nat
       /\ body resp
          = create_fallback_response
              (Some (lit "'utf-8' codec can't encode character '" ++ [92]
                       ++ lit "ud83d' in position 63: surrogates not allowed"))
              (lit "general")
       /\ dict_get "chat_history" (body resp) = None.
Proof.
  intros t w. split; [vm_compute; reflexivity|].
  split; [vm_compute; reflexivity|].
  eexists. split; [vm_compute; reflexivity|].
  repeat split; vm_compute; reflexivity.
Qed.

(** C8 (amended): the transcript of a session after any run of requests,
    whatever the collaborators do.  It is the transcript the session held
    before, to which each chat request to the session has added its
    exchange (the user turn with the transcription and the assistant turn
    with the text generation returned, or nothing when the request stopped
    at the upload or at the transcription), and which each deletion of the
    session has emptied; no other request counts.  When the session is not
    deleted during the run, the earlier transcript is still there,
    unchanged and in place, followed by exactly the turns appended to the
    session during the run, in the order of the appends and with the role
    and content each was appended with.  Reading the history leaves the
    state as it is and builds a status-200 response with exactly this
    transcript and [error = false]; that response is the answer whenever
    the session id and every turn can be encoded as UTF-8, and otherwise
    the [except] clause answers with status 500 and [error = true]. *)
Theorem transcript_is_append_log reqs session_id w :
  let history := history_after reqs session_id (transcript w session_id) in
  transcript (serve reqs w) session_id = history
  /\ (never_deleted session_id reqs ->
      exists evs,
        calls (serve reqs w) = calls w ++ evs
        /\ transcript (serve reqs w) session_id
           = transcript w session_id ++ appended_to session_id evs)
  /\ forall E,
       exists resp,
         get_chat_history E session_id (serve reqs w)
         = (Returns resp, serve reqs w)
         /\ (encodable session_id = true ->
             value_encodable (history_value history) = true ->
             resp = {| body := [ "session_id" =: VStr session_id;
                                 "chat_history" =: history_value history;
                                 "error" =: VBool false ];
                       status_code := 200 |})
         /\ (encodable session_id && value_encodable (history_value history)
               = false ->
             status_code resp = 500%nat
             /\ dict_get "error" (body resp) = Some (VBool true)
             /\ dict_get "chat_history" (body resp) = None).
Proof.
  intros history.
  assert (Hrun : transcript (serve reqs w) session_id = history).
  { unfold history. clear history. revert w.
    induction reqs as [|[E req] reqs IH]; intros w; [done|].
    cbn [serve]. rewrite IH, handle_transcript.
    by rewrite <- (history_after_app [(E, req)] reqs). }
  split; [exact Hrun|]. split.
  - intros Hreqs. clear Hrun history. revert w.
    induction Hreqs as [|[E req] reqs Hreq _ IH]; intros w; cbn [serve].
    + exists []. by rewrite !app_nil_r.
    + destruct (handle_extends_transcript E req session_id w Hreq)
        as (evs1 & Hc1 & Ht1).
      destruct (IH (snd (handle E req w))) as (evs2 & Hc2 & Ht2).
      exists (evs1 ++ evs2).
      by rewrite Hc2, Hc1, Ht2, Ht1, appended_to_app, !app_assoc.
  - intros E. eexists. rewrite get_chat_history_run, Hrun.
    split; [reflexivity|].
    match goal with |- context [answer _ ?c _] =>
      destruct (answer_cases (lit "general") c 200) as [Hok Hfail] end.
    cbn [value_encodable] in Hok, Hfail. split.
    + intros Hs Hh. apply Hok. cbn [value_encodable]. by rewrite Hs, Hh.
    + intros Henc.
      destruct (answer_failed (lit "general")
                  [ "session_id" =: VStr session_id;
                    "chat_history" =: history_value history;
                    "error" =: VBool false ] 200) as (msg & _ & ->).
      * cbn [value_encodable]. rewrite andb_true_r. exact Henc.
      * done.
Qed.

Lemma transcript_is_append_log_witness :
  never_deleted (lit "s1") sample_run
  /\ transcript (serve sample_run initial) (lit "s1")
     = [ Turn (lit "user") (Some (lit "hello"));
         Turn (lit "assistant") (Some (lit "hi there"));
         Turn (lit "user") (Some (lit "hello"));
         Turn (lit "assistant")
           (Some (lit "I apologize, but I'm having trouble processing your request right now. Could you please try again?")) ]
  /\ exists evs,
       calls (serve sample_run initial) = calls initial ++ evs
       /\ transcript (serve sample_run initial) (lit "s1")
          = transcript initial (lit "s1") ++ appended_to (lit "s1") evs.
Proof.
  assert (H : never_deleted (lit "s1") sample_run)
    by (repeat constructor; simpl; discriminate).
  split; [exact H|].
  destruct (transcript_is_append_log sample_run (lit "s1") initial)
    as (Hrun & Hlog & _).
  split; [rewrite Hrun; vm_compute; reflexivity | exact (Hlog H)].
Defined.

(** * Further properties of the helpers and the handlers *)

(** ** The contracts of the three helpers *)

(** X1: [safe_transcribe_audio] never raises and never touches the session
    store.  It returns [(t, None)] exactly when the key is configured and
    the transcriber returns a transcript with the non-empty text [t]; in
    every other case it returns [(None, e)] with the failure reason [e].
    The reason is the empty string exactly when the key is configured and
    the transcriber itself raised an exception with an empty text. *)
Theorem safe_transcribe_audio_contract E audio_data :
  (forall w, exists r evs,
     safe_transcribe_audio E audio_data w
     = (Returns r, World (chat_histories w) (calls w ++ evs)))
  /\ (forall t,
        value_of (safe_transcribe_audio E audio_data) = Returns (Some t, None)
        <-> truthy_opt (ASSEMBLYAI_API_KEY E) = true
            /\ (exists tr, transcribe E audio_data = Returns (Some tr)
                           /\ transcript_text tr = Some t)
            /\ truthy t = true)
  /\ ((exists t, value_of (safe_transcribe_audio E audio_data)
                 = Returns (Some t, None))
      \/ (exists e, value_of (safe_transcribe_audio E audio_data)
                    = Returns (None, Some e)))
  /\ (value_of (safe_transcribe_audio E audio_data) = Returns (None, Some [])
      <-> truthy_opt (ASSEMBLYAI_API_KEY E) = true
          /\ transcribe E audio_data = Raises []).
Proof.
  split.
  { intros w. rewrite (safe_transcribe_audio_stateless E audio_data w).
    destruct (safe_transcribe_audio_cases E audio_data)
      as [(t & _ & ->) | (e & ->)]; eauto. }
  split; [|split].
  - intros t. unfold value_of, initial, safe_transcribe_audio. run_monad.
    destruct (truthy_opt (ASSEMBLYAI_API_KEY E)); simpl.
    2:{ split; [discriminate | intros [? _]; discriminate]. }
    destruct (transcribe E audio_data) as [[[tx]|]|e]; simpl.
    + destruct tx as [s|]; simpl.
      * destruct (truthy s) eqn:Hs; simpl.
        -- split.
           ++ intros [= <-]. split; [done|]. split; [by eexists|done].
           ++ intros (_ & (tr & [= <-] & [= <-]) & _). done.
        -- split; [discriminate|].
           intros (_ & (tr & [= <-] & [= <-]) & Ht). congruence.
      * split; [discriminate|]. intros (_ & (tr & [= <-] & Htr) & _). discriminate.
    + split; [discriminate|]. intros (_ & (tr & Htr & _) & _). discriminate.
    + split; [discriminate|]. intros (_ & (tr & Htr & _) & _). discriminate.
  - destruct (safe_transcribe_audio_cases E audio_data)
      as [(t & _ & H) | (e & H)]; eauto.
  - unfold value_of, initial, safe_transcribe_audio. run_monad.
    destruct (truthy_opt (ASSEMBLYAI_API_KEY E)); simpl.
    2:{ split; [discriminate | intros [? _]; discriminate]. }
    destruct (transcribe E audio_data) as [[[tx]|]|e]; simpl.
    + destruct (truthy_opt tx); simpl;
        (split; [discriminate | intros [_ ?]; discriminate]).
    + split; [discriminate | intros [_ ?]; discriminate].
    + split.
      * intros [= ->]. done.
      * intros [_ [= ->]]. done.
Qed.

(** X2: [safe_generate_llm_response] never raises and never touches the
    session store, and the response text it returns is never [None] nor
    empty.  It returns [(s, None)] exactly when the key is configured and
    the model, given the prompt (framed by the earlier turns when there are
    any), returns the non-empty text [s].  In every other case the response
    is the first fallback sentence, paired with the failure reason, which is
    empty exactly when the key is configured and the model itself raised an
    exception with an empty text. *)
Theorem safe_generate_llm_response_contract E prompt conversation_history :
  let contents := generation_contents prompt conversation_history in
  (forall w, exists r e evs,
     safe_generate_llm_response E prompt conversation_history w
     = (Returns (Some r, e), World (chat_histories w) (calls w ++ evs))
     /\ truthy r = true)
  /\ (forall s,
        value_of (safe_generate_llm_response E prompt conversation_history)
          = Returns (Some s, None)
        <-> truthy_opt (GEMINI_API_KEY E) = true
            /\ (exists resp, generate_content E contents = Returns (Some resp)
                             /\ response_text resp = Some s)
            /\ truthy s = true)
  /\ (forall r e,
        value_of (safe_generate_llm_response E prompt conversation_history)
          = Returns (r, Some e) ->
        r = fallback_response_0)
  /\ (value_of (safe_generate_llm_response E prompt conversation_history)
        = Returns (fallback_response_0, Some [])
      <-> truthy_opt (GEMINI_API_KEY E) = true
          /\ generate_content E contents = Raises []).
Proof.
  intros contents. split.
  { intros w. rewrite (safe_generate_llm_response_stateless E _ _ w).
    destruct (safe_generate_llm_response_cases E prompt conversation_history)
      as (r & e & -> & Hr & _). eauto 6. }
  assert (Hunfold :
    value_of (safe_generate_llm_response E prompt conversation_history) =
      if truthy_opt (GEMINI_API_KEY E) then
        match generate_content E contents with
        | Returns (Some resp) =>
            if truthy_opt (response_text resp)
            then Returns (response_text resp, None)
            else Returns (fallback_response_0,
                          Some (lit "LLM returned empty response"))
        | Returns None =>
            Returns (fallback_response_0, Some (lit "LLM returned empty response"))
        | Raises e => Returns (fallback_response_0, Some e)
        end
      else Returns (fallback_response_0, Some (lit "Gemini API key not configured"))).
  { unfold contents, generation_contents, value_of, initial,
      safe_generate_llm_response, try_except, bind, log_call, lift, raise, ret.
    match goal with |- context [generate_content E ?c] =>
      generalize (generate_content E c) end.
    intros o.
    destruct (truthy_opt (GEMINI_API_KEY E)); [|reflexivity].
    destruct o as [[resp|]|e]; [|reflexivity..].
    by destruct (truthy_opt (response_text resp)). }
  rewrite Hunfold. clear Hunfold.
  split; [|split].
  - intros s. destruct (truthy_opt (GEMINI_API_KEY E)).
    2:{ split; [discriminate | intros [? _]; discriminate]. }
    destruct (generate_content E contents) as [[[tx]|]|e]; simpl.
    + destruct tx as [s'|]; simpl.
      * destruct (truthy s') eqn:Hs.
        -- split.
           ++ intros [= <-]. split; [done|]. split; [by eexists|done].
           ++ intros (_ & (resp & [= <-] & [= <-]) & _). done.
        -- split; [discriminate|].
           intros (_ & (resp & [= <-] & [= <-]) & Ht). congruence.
      * split; [discriminate|]. intros (_ & (resp & [= <-] & H) & _). discriminate.
    + split; [discriminate|]. intros (_ & (resp & H & _) & _). discriminate.
    + split; [discriminate|]. intros (_ & (resp & H & _) & _). discriminate.
  - intros r e. destruct (truthy_opt (GEMINI_API_KEY E)); [|by intros [= <- _]].
    destruct (generate_content E contents) as [[resp|]|e']; simpl;
      [destruct (truthy_opt (response_text resp))| |];
      (discriminate || by intros [= <- _]).
  - destruct (truthy_opt (GEMINI_API_KEY E)).
    2:{ split; [discriminate | intros [? _]; discriminate]. }
    destruct (generate_content E contents) as [[resp|]|e]; simpl.
    + destruct (truthy_opt (response_text resp));
        (split; [discriminate | intros [_ ?]; discriminate]).
    + split; [discriminate | intros [_ ?]; discriminate].
    + split.
      * intros [= ->]. done.
      * intros [_ [= ->]]. done.
Qed.

(** X3: [safe_generate_tts] never raises and never touches the session
    store.  It returns [(u, None)] exactly when the key is configured, the
    HTTP call answers with status 200 and the answer holds the non-empty
    audio reference [u]; a status other than 200 gives the reason
    ["TTS API returned status <status>: <body>"].  In every case but
    success it returns [(None, e)], and the reason [e] is empty exactly
    when the key is configured and the HTTP call, or the decoding of a
    status-200 answer, raised an exception with an empty text. *)
Theorem safe_generate_tts_contract E text :
  (forall w, exists r evs,
     safe_generate_tts E text w
     = (Returns r, World (chat_histories w) (calls w ++ evs)))
  /\ (forall u,
        value_of (safe_generate_tts E text) = Returns (Some u, None)
        <-> truthy_opt (MURF_API_KEY E) = true
            /\ (exists resp, post E text = Returns resp
                             /\ http_status_code resp = 200%nat
                             /\ http_json_audioFile resp = Returns (Some u))
            /\ truthy u = true)
  /\ (forall resp,
        truthy_opt (MURF_API_KEY E) = true ->
        post E text = Returns resp ->
        http_status_code resp <> 200%nat ->
        value_of (safe_generate_tts E text)
        = Returns (None,
                   Some (lit "TTS API returned status "
                           ++ str_of_nat (http_status_code resp)
                           ++ lit ": " ++ http_text resp)))
  /\ ((exists u, value_of (safe_generate_tts E text) = Returns (Some u, None))
      \/ (exists e, value_of (safe_generate_tts E text) = Returns (None, Some e)))
  /\ (value_of (safe_generate_tts E text) = Returns (None, Some [])
      <-> truthy_opt (MURF_API_KEY E) = true
          /\ (post E text = Raises []
              \/ exists resp, post E text = Returns resp
                              /\ http_status_code resp = 200%nat
                              /\ http_json_audioFile resp = Raises [])).
Proof.
  split.
  { intros w. rewrite (safe_generate_tts_stateless E text w).
    destruct (safe_generate_tts_cases E text) as [(u & _ & ->) | (e & ->)]; eauto. }
  assert (Hunfold :
    value_of (safe_generate_tts E text) =
      if truthy_opt (MURF_API_KEY E) then
        match post E text with
        | Returns resp =>
            if Nat.eqb (http_status_code resp) 200 then
              match http_json_audioFile resp with
              | Returns audio_url =>
                  if truthy_opt audio_url then Returns (audio_url, None)
                  else Returns (None, Some (lit "No audio URL in response"))
              | Raises e => Returns (None, Some e)
              end
            else Returns (None,
                          Some (lit "TTS API returned status "
                                  ++ str_of_nat (http_status_code resp)
                                  ++ lit ": " ++ http_text resp))
        | Raises e => Returns (None, Some e)
        end
      else Returns (None, Some (lit "Murf API key not configured"))).
  { unfold value_of, initial, safe_generate_tts, try_except, bind, log_call,
      lift, raise, ret.
    destruct (truthy_opt (MURF_API_KEY E)); [|reflexivity].
    destruct (post E text) as [resp|e]; [|reflexivity].
    cbn [fst snd].
    destruct (Nat.eqb (http_status_code resp) 200); [|reflexivity].
    destruct (http_json_audioFile resp) as [u|e]; [|reflexivity].
    by destruct (truthy_opt u). }
  rewrite Hunfold. clear Hunfold.
  split; [|split; [|split]].
  - intros u. destruct (truthy_opt (MURF_API_KEY E)).
    2:{ split; [discriminate | intros [? _]; discriminate]. }
    destruct (post E text) as [resp|e].
    2:{ split; [discriminate | intros (_ & (r & H & _) & _); discriminate]. }
    destruct (Nat.eqb (http_status_code resp) 200) eqn:Hst.
    2:{ split; [discriminate|]. intros (_ & (r & [= <-] & H & _) & _).
        apply Nat.eqb_neq in Hst. done. }
    apply Nat.eqb_eq in Hst.
    destruct (http_json_audioFile resp) as [[s|]|e] eqn:Hj; simpl.
    + destruct (truthy s) eqn:Hs.
      * split.
        -- intros [= <-]. split; [done|]. split; [|done].
           exists resp. by rewrite Hj.
        -- intros (_ & (r & [= <-] & _ & H) & _). congruence.
      * split; [discriminate|].
        intros (_ & (r & [= <-] & _ & H) & Hu). congruence.
    + split; [discriminate|]. intros (_ & (r & [= <-] & _ & H) & _). congruence.
    + split; [discriminate|]. intros (_ & (r & [= <-] & _ & H) & _). congruence.
  - intros resp -> -> Hst. apply Nat.eqb_neq in Hst. by rewrite Hst.
  - destruct (truthy_opt (MURF_API_KEY E)); [|eauto].
    destruct (post E text) as [resp|e]; [|eauto].
    destruct (Nat.eqb (http_status_code resp) 200); [|eauto].
    destruct (http_json_audioFile resp) as [u|e]; [|eauto].
    destruct (truthy_opt u) eqn:Hu; [|eauto].
    apply truthy_opt_Some in Hu as (s & -> & _). eauto.
  - destruct (truthy_opt (MURF_API_KEY E)).
    2:{ split; [discriminate | intros [? _]; discriminate]. }
    destruct (post E text) as [resp|e].
    2:{ split.
        - intros [= ->]. split; [done|]. by left.
        - intros [_ [[= ->] | (r & ? & _)]]; [done | discriminate]. }
    destruct (Nat.eqb (http_status_code resp) 200) eqn:Hst.
    2:{ split; [discriminate|].
        intros [_ [? | (r & [= <-] & H & _)]]; [discriminate|].
        apply Nat.eqb_neq in Hst. done. }
    apply Nat.eqb_eq in Hst.
    destruct (http_json_audioFile resp) as [u|e] eqn:Hj.
    + destruct (truthy_opt u);
        (split; [discriminate|];
         intros [_ [? | (r & [= <-] & _ & H)]]; [discriminate | congruence]).
    + split.
      * intros [= ->]. split; [done|]. right. exists resp. by rewrite Hj.
      * intros [_ [? | (r & [= <-] & _ & H)]]; [discriminate|].
        rewrite Hj in H. by injection H as ->.
Qed.

(** The body of the health answer holds no text from outside, so it is
    always rendered. *)
Lemma health_check_run E w :
  health_check E w =
    (Returns
       {| body :=
            [ "status" =: VStr (lit "ok");
              "api_status" =:
                VDict [ "murf_api" =: VBool (truthy_opt (MURF_API_KEY E));
                        "assemblyai_api" =: VBool (truthy_opt (ASSEMBLYAI_API_KEY E));
                        "gemini_api" =: VBool (truthy_opt (GEMINI_API_KEY E)) ];
              "error" =: VBool false ];
          status_code := 200 |}, w).
Proof.
  unfold health_check, try_except, new_JSONResponse.
  by rewrite (proj2 (render_error_None _)) by reflexivity.
Qed.

(** X4: [GET /health] answers with status 200 and [error = false] and
    changes nothing.  The flag it reports for each API is the truth value of
    the key, and it tells whether the helper of that API goes as far as
    calling its collaborator: with the flag false the helper stops before
    the call, with the flag true it makes the call. *)
Theorem health_check_predicts_collaborator_calls E w :
  health_check E w =
    (Returns
       {| body :=
            [ "status" =: VStr (lit "ok");
              "api_status" =:
                VDict [ "murf_api" =: VBool (truthy_opt (MURF_API_KEY E));
                        "assemblyai_api" =: VBool (truthy_opt (ASSEMBLYAI_API_KEY E));
                        "gemini_api" =: VBool (truthy_opt (GEMINI_API_KEY E)) ];
              "error" =: VBool false ];
          status_code := 200 |}, w)
  /\ (forall text,
        existsb collaborator_call (calls_of (safe_generate_tts E text))
        = truthy_opt (MURF_API_KEY E))
  /\ (forall audio_data,
        existsb collaborator_call (calls_of (safe_transcribe_audio E audio_data))
        = truthy_opt (ASSEMBLYAI_API_KEY E))
  /\ (forall prompt conversation_history,
        existsb collaborator_call
          (calls_of (safe_generate_llm_response E prompt conversation_history))
        = truthy_opt (GEMINI_API_KEY E)).
Proof.
  split; [|split; [|split]].
  - apply health_check_run.
  - intros text. unfold calls_of, initial, safe_generate_tts. run_monad.
    destruct (truthy_opt (MURF_API_KEY E)); simpl; [|done].
    destruct (post E text) as [r|e]; simpl; [|done].
    destruct (Nat.eqb (http_status_code r) 200); simpl; [|done].
    destruct (http_json_audioFile r) as [u|e]; simpl; [|done].
    by destruct (truthy_opt u).
  - intros audio_data. rewrite safe_transcribe_audio_calls.
    by destruct (truthy_opt (ASSEMBLYAI_API_KEY E)).
  - intros prompt conversation_history.
    unfold calls_of, initial, safe_generate_llm_response. run_monad.
    destruct (truthy_opt (GEMINI_API_KEY E)); simpl; [|done].
    match goal with |- context [generate_content E ?c] =>
      destruct (generate_content E c) as [[r|]|e] end; simpl; [|done..].
    by destruct (truthy_opt (response_text r)).
Qed.

(** ** [create_fallback_response] *)

(** X5: the body that [create_fallback_response] builds always has
    [error = true], the given message and type, and a null audio reference.
    Its fallback message is the one listed for the type, for each of
    ["stt"], ["llm"], ["tts"] and ["general"]; every other type gets the
    message of ["general"]. *)
Theorem create_fallback_response_body message error_type :
  create_fallback_response message error_type =
    [ "error" =: VBool true;
      "error_type" =: VStr error_type;
      "message" =: of_opt message;
      "fallback_message" =:
        VStr (if bool_decide (error_type = lit "stt")
              then lit "I'm having trouble hearing you right now. Could you please try again?"
              else if bool_decide (error_type = lit "llm")
              then lit "I'm having difficulty processing your request at the moment. Please try again later."
              else if bool_decide (error_type = lit "tts")
              then lit "I'm having trouble generating audio right now. Here's my text response instead."
              else lit "I'm experiencing technical difficulties. Please try again in a moment.");
      "audio_url" =: VNone ]
  /\ (known_error_type error_type = false ->
      dict_get "fallback_message" (create_fallback_response message error_type)
      = dict_get "fallback_message"
          (create_fallback_response message (lit "general"))).
Proof.
  split.
  - unfold create_fallback_response, fallback_messages. simpl.
    do 3 (case_decide; [by rewrite bool_decide_eq_true_2 by done|];
          rewrite bool_decide_eq_false_2 by done).
    by case_decide.
  - unfold known_error_type. rewrite !orb_false_iff.
    intros [[[H1 H2] H3] H4].
    apply bool_decide_eq_false in H1, H2, H3, H4.
    unfold create_fallback_response, fallback_messages. simpl.
    repeat (case_decide; [done|]). reflexivity.
Qed.

Lemma create_fallback_response_body_witness :
  known_error_type (lit "auth") = false
  /\ create_fallback_response (Some (lit "boom")) (lit "auth") =
    [ "error" =: VBool true;
      "error_type" =: VStr (lit "auth");
      "message" =: VStr (lit "boom");
      "fallback_message" =:
        VStr (lit "I'm experiencing technical difficulties. Please try again in a moment.");
      "audio_url" =: VNone ]
  /\ dict_get "fallback_message"
       (create_fallback_response (Some (lit "boom")) (lit "auth"))
     = dict_get "fallback_message"
         (create_fallback_response (Some (lit "boom")) (lit "general")).
Proof.
  split; [reflexivity|].
  destruct (create_fallback_response_body (Some (lit "boom")) (lit "auth"))
    as [H1 H2].
  split; [exact H1 | apply H2; reflexivity].
Defined.

(** ** The single-stage endpoints *)

(** The answer of a handler that ends in an error body. *)
Lemma answer_error error_type e status :
  let resp := answer error_type
                (create_fallback_response (Some e) error_type) status in
  dict_get "error" (body resp) = Some (VBool true)
  /\ dict_get "error_type" (body resp) = Some (VStr error_type)
  /\ dict_get "audio_url" (body resp) = Some VNone
  /\ (status = 500%nat -> status_code resp = 500%nat)
  /\ (encodable error_type = true -> encodable e = true ->
      resp = {| body := create_fallback_response (Some e) error_type;
                status_code := status |}).
Proof.
  intros resp. unfold resp, answer.
  destruct (render_error _) as [msg|] eqn:Hr; cbn [body status_code].
  - repeat split; try done. intros Hty He.
    rewrite (create_fallback_response_renders e error_type) in Hr by done.
    discriminate.
  - by repeat split.
Qed.

Lemma generate_tts_run E text audio_url error w :
  truthy (strip text) = true ->
  value_of (safe_generate_tts E (Some text)) = Returns (audio_url, error) ->
  generate_tts E text w =
    (Returns
       (if truthy_opt error
        then answer (lit "tts") (create_fallback_response error (lit "tts")) 500
        else answer (lit "tts")
               [ "audio_url" =: of_opt audio_url; "error" =: VBool false ] 200),
     World (chat_histories w)
       (calls w ++ calls_of (safe_generate_tts E (Some text)))).
Proof.
  intros Htext Htts. unfold generate_tts. rewrite Htext. cbn [negb].
  rewrite (try_except_bind_stateless _ _ _ _
             (safe_generate_tts_stateless E _)), Htts.
  destruct (truthy_opt error);
    by rewrite respond_run by apply encodable_lit.
Qed.


(** X7: when reading the upload raises an exception with text [e], each
    endpoint that takes a file goes to its [except] clause, calls nothing
    and leaves the state as it was.  When [e] can be encoded as UTF-8 the
    answer is status 500 with the standard error body carrying [e], of type
    ["stt"] for [POST /transcribe/file] and ["general"] for the other four.
    When [e] holds a lone surrogate, rendering that answer fails and the
    encoding error leaves the handler. *)
Theorem unreadable_upload E session_id file e w :
  read file = Raises e ->
  let failed error_type :=
    {| body := create_fallback_response (Some e) error_type;
       status_code := 500 |} in
  (encodable e = true ->
   transcribe_audio E file w = (Returns (Rendered (failed (lit "stt"))), w)
   /\ upload_audio E file w = (Returns (Rendered (failed (lit "general"))), w)
   /\ echo_tts E file w = (Returns (failed (lit "general")), w)
   /\ llm_query_audio E file w = (Returns (failed (lit "general")), w)
   /\ agent_chat E session_id file w = (Returns (failed (lit "general")), w))
  /\ (encodable e = false ->
      exists stt_msg general_msg,
        render_error (create_fallback_response (Some e) (lit "stt"))
          = Some stt_msg
        /\ render_error (create_fallback_response (Some e) (lit "general"))
           = Some general_msg
        /\ transcribe_audio E file w = (Raises stt_msg, w)
        /\ upload_audio E file w = (Raises general_msg, w)
        /\ echo_tts E file w = (Raises general_msg, w)
        /\ llm_query_audio E file w = (Raises general_msg, w)
        /\ agent_chat E session_id file w = (Raises general_msg, w)).
Proof.
  intros Hread failed.
  assert (Hstt : transcribe_audio E file w
                 = rendered (on_exception (lit "stt") e) w).
  { unfold transcribe_audio. rewrite try_except_bind. unfold lift at 1.
    by rewrite Hread. }
  assert (Hup : upload_audio E file w
                = rendered (on_exception (lit "general") e) w).
  { unfold upload_audio. rewrite try_except_bind. unfold lift at 1.
    by rewrite Hread. }
  assert (Hecho : echo_tts E file w = on_exception (lit "general") e w).
  { unfold echo_tts. rewrite try_except_bind. unfold lift at 1.
    by rewrite Hread. }
  assert (Hqa : llm_query_audio E file w = on_exception (lit "general") e w).
  { unfold llm_query_audio. rewrite try_except_bind. unfold lift at 1.
    by rewrite Hread. }
  assert (Hchat : agent_chat E session_id file w
                  = on_exception (lit "general") e w).
  { unfold agent_chat. rewrite try_except_bind. unfold lift at 1.
    by rewrite Hread. }
  rewrite Hstt, Hup, Hecho, Hqa, Hchat.
  unfold rendered, bind, on_exception, new_JSONResponse.
  split.
  - intros He.
    rewrite !create_fallback_response_renders by (done || apply encodable_lit).
    by repeat split.
  - intros He.
    assert (Hfail : forall ty, exists msg,
              render_error (create_fallback_response (Some e) ty) = Some msg).
    { intros ty.
      destruct (render_error (create_fallback_response (Some e) ty))
        as [msg|] eqn:Hr; [eauto|].
      apply render_error_None in Hr.
      unfold create_fallback_response in Hr.
      cbn [value_encodable of_opt] in Hr. rewrite He in Hr.
      destruct (encodable ty); cbn [andb] in Hr; discriminate. }
    destruct (Hfail (lit "stt")) as (m1 & H1).
    destruct (Hfail (lit "general")) as (m2 & H2).
    exists m1, m2. rewrite H1, H2. by repeat split.
Qed.

Lemma unreadable_upload_witness :
  let file := {| read := Raises (lit "connection reset");
                 filename := Some (lit "clip.wav");
                 content_type := None |} in
  let failed error_type :=
    {| body := create_fallback_response
                 (Some (lit "connection reset")) error_type;
       status_code := 500 |} in
  read file = Raises (lit "connection reset")
  /\ encodable (lit "connection reset") = true
  /\ transcribe_audio env_ok file initial
     = (Returns (Rendered (failed (lit "stt"))), initial)
  /\ upload_audio env_ok file initial
     = (Returns (Rendered (failed (lit "general"))), initial)
  /\ echo_tts env_ok file initial = (Returns (failed (lit "general")), initial)
  /\ llm_query_audio env_ok file initial
     = (Returns (failed (lit "general")), initial)
  /\ agent_chat env_ok (lit "s1") file initial
     = (Returns (failed (lit "general")), initial).
Proof.
  split; [reflexivity|]. split; [reflexivity|].
  apply (unreadable_upload env_ok (lit "s1")
           {| read := Raises (lit "connection reset");
              filename := Some (lit "clip.wav");
              content_type := None |} (lit "connection reset") initial);
    reflexivity.
Defined.

(** A response built at the end of the [try] block of a handler that
    returns a plain dict on success. *)
Lemma respond_run_rendered error_type content status w :
  encodable error_type = true ->
  try_except (rendered (new_JSONResponse content status))
    (fun e => rendered (on_exception error_type e)) w
  = (Returns (Rendered (answer error_type content status)), w).
Proof.
  intros Ht.
  unfold try_except, rendered, bind, new_JSONResponse, on_exception, answer.
  destruct (render_error content) as [msg|] eqn:Hr; [|done].
  unfold raise, new_JSONResponse.
  by rewrite (create_fallback_response_renders msg error_type)
    by eauto using render_error_encodable.
Qed.

(** [POST /transcribe/file] on a readable upload. *)
Lemma transcribe_audio_run E file contents transcription error w :
  read file = Returns contents ->
  value_of (safe_transcribe_audio E contents) = Returns (transcription, error) ->
  transcribe_audio E file w =
    (Returns
       (if truthy_opt error
        then Rendered (answer (lit "stt")
                         (create_fallback_response error (lit "stt")) 500)
        else Plain [ "transcription" =: of_opt transcription;
                     "error" =: VBool false ]),
     World (chat_histories w)
       (calls w ++ calls_of (safe_transcribe_audio E contents))).
Proof.
  intros Hread Hstt. unfold transcribe_audio.
  rewrite try_except_bind. unfold lift at 1. rewrite Hread.
  rewrite (try_except_bind_stateless _ _ _ _
             (safe_transcribe_audio_stateless E contents)), Hstt.
  destruct (truthy_opt error); [|done].
  by rewrite respond_run_rendered by apply encodable_lit.
Qed.

(** X8: [POST /transcribe/file] on a readable upload.  When transcription
    succeeded with text [t], and only then, the handler returns the plain
    dict with that text and [error = false], which it leaves to the
    framework to serialise.  A transcription failure with a non-empty
    reason is answered with status 500 and an error body of type ["stt"],
    which carries the reason when that can be encoded as UTF-8.  Only the
    transcription stage is ever called, and the session store is not
    touched. *)
Theorem transcribe_audio_outcomes E file contents w :
  read file = Returns contents ->
  exists result,
    transcribe_audio E file w =
      (Returns result,
       World (chat_histories w)
         (calls w ++ calls_of (safe_transcribe_audio E contents)))
    /\ forallb (fun ev => negb (later_stage ev))
         (calls_of (safe_transcribe_audio E contents)) = true
    /\ (forall t,
          result = Plain [ "transcription" =: VStr t; "error" =: VBool false ]
          <-> value_of (safe_transcribe_audio E contents) = Returns (Some t, None))
    /\ (forall e,
          value_of (safe_transcribe_audio E contents) = Returns (None, Some e) ->
          truthy e = true ->
          exists resp,
            result = Rendered resp
            /\ status_code resp = 500%nat
            /\ dict_get "error" (body resp) = Some (VBool true)
            /\ dict_get "error_type" (body resp) = Some (VStr (lit "stt"))
            /\ (encodable e = true ->
                resp = {| body := create_fallback_response (Some e) (lit "stt");
                          status_code := 500 |})).
Proof.
  intros Hread.
  assert (Hlog : forallb (fun ev => negb (later_stage ev))
                   (calls_of (safe_transcribe_audio E contents)) = true).
  { rewrite safe_transcribe_audio_calls.
    by destruct (truthy_opt (ASSEMBLYAI_API_KEY E)). }
  destruct (safe_transcribe_audio_cases E contents)
    as [(t & Ht & Hstt) | (e & Hstt)];
    rewrite Hstt; eexists;
    (split; [apply (transcribe_audio_run _ _ _ _ _ w Hread Hstt)|]);
    (split; [exact Hlog|]); cbn [truthy_opt of_opt].
  - split.
    + intros t'. split; [intros [= <-]; done | intros [= <-]; done].
    + intros e [=].
  - destruct (truthy e) eqn:He; split.
    + intros t'. split; [discriminate | intros [=]].
    + intros e' [= <-] _.
      destruct (answer_error (lit "stt") e 500) as (He1 & He2 & _ & He4 & He5).
      eexists. split; [reflexivity|]. split; [by apply He4|].
      split; [exact He1|]. split; [exact He2|]. apply He5, encodable_lit.
    + intros t'. split; [discriminate | intros [=]].
    + intros e' [= <-] He'. congruence.
Qed.

Lemma transcribe_audio_outcomes_witness :
  read sample_file = Returns sample_audio
  /\ exists result,
    transcribe_audio env_ok sample_file initial =
      (Returns result,
       World (chat_histories initial)
         (calls initial ++ calls_of (safe_transcribe_audio env_ok sample_audio)))
    /\ forallb (fun ev => negb (later_stage ev))
         (calls_of (safe_transcribe_audio env_ok sample_audio)) = true
    /\ (forall t,
          result = Plain [ "transcription" =: VStr t; "error" =: VBool false ]
          <-> value_of (safe_transcribe_audio env_ok sample_audio)
              = Returns (Some t, None))
    /\ (forall e,
          value_of (safe_transcribe_audio env_ok sample_audio)
            = Returns (None, Some e) ->
          truthy e = true ->
          exists resp,
            result = Rendered resp
            /\ status_code resp = 500%nat
            /\ dict_get "error" (body resp) = Some (VBool true)
            /\ dict_get "error_type" (body resp) = Some (VStr (lit "stt"))
            /\ (encodable e = true ->
                resp = {| body := create_fallback_response (Some e) (lit "stt");
                          status_code := 500 |})).
Proof.
  split; [reflexivity|].
  apply (transcribe_audio_outcomes env_ok sample_file sample_audio initial).
  reflexivity.
Defined.



(** ** The prompt built from the conversation *)

Lemma build_context_acc h context :
  build_context h context = context ++ concat (List.map context_line h).
Proof.
  revert context. induction h as [|m h IH]; intros context;
    cbn [build_context List.map concat].
  - by rewrite app_nil_r.
  - rewrite IH. unfold context_line. by rewrite <- !app_assoc.
Qed.

(** X10: [build_context] writes one line per earlier turn, in order, after
    what is already in the context, which it leaves unchanged: the line is
    ["User: <content>\n"] for a turn whose role is ["user"] and
    ["Assistant: <content>\n"] for any other role.  The context of a
    conversation continued is therefore the context of its first part,
    continued by its second part. *)
Theorem build_context_lines h1 h2 context :
  build_context h1 context = context ++ concat (List.map context_line h1)
  /\ build_context (h1 ++ h2) context
     = build_context h2 (build_context h1 context).
Proof.
  split; [apply build_context_acc|].
  rewrite !build_context_acc, List.map_app, concat_app.
  by rewrite <- !app_assoc.
Qed.

Lemma model_inputs_app l1 l2 :
  model_inputs (l1 ++ l2) = model_inputs l1 ++ model_inputs l2.
Proof.
  induction l1 as [|ev l1 IH]; simpl; [done|].
  destruct ev; simpl; by rewrite ?IH.
Qed.

(** X11: what a chat request with a successful transcription [t] sends to
    the model, when the Gemini key is configured.  On a session without
    earlier turns, new or emptied, the model is given [t] alone, with no
    ["User:"] framing; otherwise it is given one line per earlier turn,
    then ["User: <t>\nAssistant:"].  The turn the request has just appended
    is in neither. *)
Theorem agent_chat_model_input E session_id file contents t w :
  read file = Returns contents ->
  value_of (safe_transcribe_audio E contents) = Returns (Some t, None) ->
  truthy_opt (GEMINI_API_KEY E) = true ->
  exists evs,
    calls (snd (agent_chat E session_id file w)) = calls w ++ evs
    /\ model_inputs evs
       = [Some (match transcript w session_id with
                | [] => t
                | _ :: _ =>
                    concat (List.map context_line (transcript w session_id))
                      ++ lit "User: " ++ t ++ [10] ++ lit "Assistant:"
                end)].
Proof.
  intros Hread Hstt Hkey.
  destruct (safe_generate_llm_response_cases E (Some t)
              (Some (transcript w session_id)))
    as (r & llm_error & Hllm & _ & _).
  assert (Htts : exists u te,
             value_of (safe_generate_tts E (Some r)) = Returns (u, te)).
  { destruct (safe_generate_tts_cases E (Some r))
      as [(u & _ & H) | (e & H)]; eauto. }
  destruct Htts as (audio_url & tts_error & Htts).
  rewrite (agent_chat_run _ _ _ _ _ _ _ _ _ _ _ Hread Hstt eq_refl Hllm Htts).
  eexists. split; [reflexivity|].
  assert (Hm1 : model_inputs (calls_of (safe_transcribe_audio E contents)) = []).
  { rewrite safe_transcribe_audio_calls.
    by destruct (truthy_opt (ASSEMBLYAI_API_KEY E)). }
  assert (Hm3 : model_inputs (calls_of (safe_generate_tts E (Some r))) = []).
  { unfold calls_of, initial, safe_generate_tts. run_monad.
    destruct (truthy_opt (MURF_API_KEY E)); simpl; [|done].
    destruct (post E (Some r)) as [resp|e]; simpl; [|done].
    destruct (Nat.eqb (http_status_code resp) 200); simpl; [|done].
    destruct (http_json_audioFile resp) as [u|e]; simpl; [|done].
    by destruct (truthy_opt u). }
  assert (Hm2 : model_inputs
                  (calls_of (safe_generate_llm_response E (Some t)
                               (Some (transcript w session_id))))
                = [generation_contents (Some t) (Some (transcript w session_id))]).
  { unfold generation_contents, calls_of, initial, safe_generate_llm_response,
      try_except, bind, log_call, lift, raise, ret.
    rewrite Hkey. cbn [negb fst snd calls].
    match goal with |- context [generate_content E ?c] =>
      generalize (generate_content E c) end.
    intros [[resp|]|e]; [destruct (truthy_opt (response_text resp))| |];
      reflexivity. }
  rewrite !model_inputs_app, Hm1, Hm2, Hm3. cbn [model_inputs app].
  unfold generation_contents.
  destruct (transcript w session_id) as [|m h]; [reflexivity|].
  by rewrite build_context_acc.
Qed.

Lemma agent_chat_model_input_witness :
  let w := snd (agent_chat env_ok (lit "s1") sample_file initial) in
  read sample_file = Returns sample_audio
  /\ value_of (safe_transcribe_audio env_ok sample_audio)
     = Returns (Some (lit "hello"), None)
  /\ truthy_opt (GEMINI_API_KEY env_ok) = true
  /\ exists evs,
    calls (snd (agent_chat env_ok (lit "s1") sample_file w)) = calls w ++ evs
    /\ model_inputs evs
       = [Some (match transcript w (lit "s1") with
                | [] => lit "hello"
                | _ :: _ =>
                    concat (List.map context_line (transcript w (lit "s1")))
                      ++ lit "User: " ++ lit "hello" ++ [10] ++ lit "Assistant:"
                end)].
Proof.
  intros w. do 3 (split; [reflexivity|]).
  apply (agent_chat_model_input env_ok (lit "s1") sample_file sample_audio
           (lit "hello") w); reflexivity.
Defined.

(** ** The order of the stages *)

Lemma ascending_weaken lo hi lo' hi' l :
  (lo' <= lo)%nat -> (hi <= hi')%nat ->
  ascending lo hi l = true -> ascending lo' hi' l = true.
Proof.
  destruct l as [|n l]; cbn [ascending]; [done|].
  intros Hlo Hhi. rewrite !andb_true_iff, !Nat.leb_le.
  intros [[H1 H2] H3]. split; [lia|].
  clear H1 Hlo lo lo'. revert n H2 H3.
  induction l as [|m l IH]; cbn [ascending]; [done|].
  intros n Hn. rewrite !andb_true_iff, !Nat.leb_le.
  intros [[H1 H2] H3]. split; [lia|]. by apply IH.
Qed.

Lemma ascending_app lo mid hi l1 l2 :
  (lo <= S mid)%nat -> (mid <= hi)%nat ->
  ascending lo mid l1 = true -> ascending (S mid) hi l2 = true ->
  ascending lo hi (l1 ++ l2) = true.
Proof.
  revert lo. induction l1 as [|n l1 IH]; cbn [ascending app];
    intros lo Hlo Hhi H1 H2.
  - by apply (ascending_weaken (S mid) hi).
  - revert H1. rewrite !andb_true_iff, !Nat.leb_le.
    intros [[Ha Hb] Hc]. split; [lia|].
    apply IH; [lia | done | done | done].
Qed.

Lemma staged_weaken {A} lo hi lo' hi' (c : M A) :
  (lo' <= lo)%nat -> (hi <= hi')%nat -> staged lo hi c -> staged lo' hi' c.
Proof.
  intros Hlo Hhi Hc w. destruct (Hc w) as (evs & H1 & H2).
  exists evs. split; [done|]. by apply (ascending_weaken lo hi).
Qed.

Lemma staged_silent {A} lo hi (c : M A) :
  (forall w, calls (snd (c w)) = calls w) -> staged lo hi c.
Proof. intros Hc w. exists []. by rewrite app_nil_r, Hc. Qed.

Lemma staged_bind {A B} lo mid hi (c : M A) (k : A -> M B) :
  (lo <= S mid)%nat -> (mid <= hi)%nat ->
  staged lo mid c -> (forall a, staged (S mid) hi (k a)) ->
  staged lo hi (bind c k).
Proof.
  intros Hlo Hhi Hc Hk w. unfold bind.
  destruct (Hc w) as (evs1 & H1 & Ha1).
  destruct (c w) as [[a|e] w1]; simpl in H1.
  - destruct (Hk a w1) as (evs2 & H2 & Ha2).
    exists (evs1 ++ evs2). rewrite H2, H1, List.map_app, app_assoc.
    split; [done|]. by apply (ascending_app lo mid hi).
  - exists evs1. split; [done|]. by apply (ascending_weaken lo mid).
Qed.

Lemma staged_try_except {A} lo hi (body : M A) (handler : str -> M A) :
  staged lo hi body ->
  (forall e w, calls (snd (handler e w)) = calls w) ->
  staged lo hi (try_except body handler).
Proof.
  intros Hc Hk w. unfold try_except.
  destruct (Hc w) as (evs1 & H1 & Ha1).
  destruct (body w) as [[a|e] w1]; simpl in H1.
  - by exists evs1.
  - exists evs1. by rewrite Hk.
Qed.

Lemma staged_safe_transcribe_audio E audio_data :
  staged 1 2 (safe_transcribe_audio E audio_data).
Proof.
  intros w. rewrite (safe_transcribe_audio_stateless E audio_data w).
  eexists. split; [reflexivity|].
  rewrite safe_transcribe_audio_calls.
  by destruct (truthy_opt (ASSEMBLYAI_API_KEY E)).
Qed.

Lemma staged_safe_generate_llm_response E prompt history :
  staged 4 5 (safe_generate_llm_response E prompt history).
Proof.
  intros w. rewrite (safe_generate_llm_response_stateless E _ _ w).
  eexists. split; [reflexivity|].
  unfold calls_of, initial, safe_generate_llm_response. run_monad.
  destruct (truthy_opt (GEMINI_API_KEY E)); simpl; [|done].
  match goal with |- context [generate_content E ?c] =>
    destruct (generate_content E c) as [[r|]|e] end; simpl; [|done..].
  by destruct (truthy_opt (response_text r)).
Qed.

Lemma staged_safe_generate_tts E text :
  staged 7 8 (safe_generate_tts E text).
Proof.
  intros w. rewrite (safe_generate_tts_stateless E text w).
  eexists. split; [reflexivity|].
  unfold calls_of, initial, safe_generate_tts. run_monad.
  destruct (truthy_opt (MURF_API_KEY E)); simpl; [|done].
  destruct (post E text) as [r|e]; simpl; [|done].
  destruct (Nat.eqb (http_status_code r) 200); simpl; [|done].
  destruct (http_json_audioFile r) as [u|e]; simpl; [|done].
  by destruct (truthy_opt u).
Qed.

Lemma staged_append repr session_id t n :
  stage (List_append session_id t) = n ->
  staged n n (append repr session_id t).
Proof.
  intros Hn w. unfold append, bind, getitem, log_call, setitem.
  destruct (chat_histories w !! session_id) as [h|]; simpl.
  - exists [List_append session_id t]. split; [done|].
    cbn [List.map ascending]. rewrite Hn, Nat.leb_refl. done.
  - exists []. by rewrite app_nil_r.
Qed.

Lemma new_JSONResponse_silent content status w :
  calls (snd (new_JSONResponse content status w)) = calls w.
Proof. unfold new_JSONResponse. by destruct (render_error content). Qed.

Lemma rendered_silent (c : M JSONResponse) w :
  calls (snd (rendered c w)) = calls (snd (c w)).
Proof. unfold rendered, bind. by destruct (c w) as [[r|e] w1]. Qed.

Lemma on_exception_silent error_type e w :
  calls (snd (on_exception error_type e w)) = calls w.
Proof. apply new_JSONResponse_silent. Qed.

Lemma rendered_on_exception_silent error_type e w :
  calls (snd (rendered (on_exception error_type e) w)) = calls w.
Proof. by rewrite rendered_silent, on_exception_silent. Qed.

Lemma add_silent a b w : calls (snd (add a b w)) = calls w.
Proof. unfold add. by destruct b. Qed.

Lemma finish_response_silent prefix d llm_response llm_error audio_url tts_error w :
  calls (snd (finish_response prefix d llm_response llm_error audio_url tts_error w))
  = calls w.
Proof.
  unfold finish_response, bind.
  destruct (truthy_opt tts_error).
  - unfold add. destruct llm_response; [|done].
    cbn [ret fst snd]. apply new_JSONResponse_silent.
  - cbn [ret fst snd]. apply new_JSONResponse_silent.
Qed.

Lemma getitem_silent repr session_id w :
  calls (snd (getitem repr session_id w)) = calls w.
Proof. unfold getitem. by destruct (chat_histories w !! session_id). Qed.

Lemma staged_rendered lo hi (c : M JSONResponse) :
  staged lo hi c -> staged lo hi (rendered c).
Proof.
  intros Hc w. destruct (Hc w) as (evs & H1 & H2). exists evs.
  by rewrite rendered_silent.
Qed.

Ltac silent :=
  apply staged_silent; intros;
  first [ apply finish_response_silent | apply getitem_silent
        | apply new_JSONResponse_silent | apply add_silent
        | rewrite rendered_silent; apply new_JSONResponse_silent
        | reflexivity ].

Lemma staged_generate_tts E text : staged 1 8 (generate_tts E text).
Proof.
  unfold generate_tts. apply staged_try_except;
    [|first [apply on_exception_silent | apply rendered_on_exception_silent]].
  destruct (negb (truthy (strip text))); [silent|].
  apply (staged_bind 1 8 8); [lia | lia | |].
  - apply (staged_weaken 7 8); [lia | lia | apply staged_safe_generate_tts].
  - intros [audio_url error]. destruct (truthy_opt error); silent.
Qed.

Lemma staged_upload_audio E file : staged 1 8 (upload_audio E file).
Proof.
  unfold upload_audio. apply staged_try_except;
    [|first [apply on_exception_silent | apply rendered_on_exception_silent]].
  apply (staged_bind 1 0 8); [lia | lia | silent |]. intros contents.
  apply (staged_bind 1 1 8); [lia | lia | |].
  - intros w. exists [Open_write (filename file) contents]. by split.
  - intros _. apply (staged_bind 2 1 8); [lia | lia | silent |].
    intros _. silent.
Qed.

Lemma staged_transcribe_audio E file : staged 1 8 (transcribe_audio E file).
Proof.
  unfold transcribe_audio. apply staged_try_except;
    [|first [apply on_exception_silent | apply rendered_on_exception_silent]].
  apply (staged_bind 1 0 8); [lia | lia | silent |]. intros contents.
  apply (staged_bind 1 2 8); [lia | lia | apply staged_safe_transcribe_audio |].
  intros [transcription error]. destruct (truthy_opt error); silent.
Qed.

Lemma staged_echo_tts E file : staged 1 8 (echo_tts E file).
Proof.
  unfold echo_tts. apply staged_try_except;
    [|first [apply on_exception_silent | apply rendered_on_exception_silent]].
  apply (staged_bind 1 0 8); [lia | lia | silent |]. intros contents.
  apply (staged_bind 1 2 8); [lia | lia | apply staged_safe_transcribe_audio |].
  intros [transcription transcribe_error].
  destruct (truthy_opt transcribe_error); [silent|].
  apply (staged_bind 3 8 8); [lia | lia | |].
  - apply (staged_weaken 7 8); [lia | lia | apply staged_safe_generate_tts].
  - intros [audio_url tts_error]. destruct (truthy_opt tts_error); [|silent].
    apply (staged_bind 9 8 8); [lia | lia | |intros; silent].
    silent.
Qed.

Lemma staged_llm_query E text : staged 1 8 (llm_query E text).
Proof.
  unfold llm_query. apply staged_try_except;
    [|first [apply on_exception_silent | apply rendered_on_exception_silent]].
  destruct (negb (truthy (strip text))); [silent|].
  apply (staged_bind 1 5 8); [lia | lia | |].
  - apply (staged_weaken 4 5); [lia | lia | apply staged_safe_generate_llm_response].
  - intros [response error].
    destruct (truthy_opt error && negb (truthy_opt response)); silent.
Qed.

Lemma staged_llm_query_audio E file : staged 1 8 (llm_query_audio E file).
Proof.
  unfold llm_query_audio. apply staged_try_except;
    [|first [apply on_exception_silent | apply rendered_on_exception_silent]].
  apply (staged_bind 1 0 8); [lia | lia | silent |]. intros contents.
  apply (staged_bind 1 2 8); [lia | lia | apply staged_safe_transcribe_audio |].
  intros [transcription transcribe_error].
  destruct (truthy_opt transcribe_error); [silent|].
  apply (staged_bind 3 5 8); [lia | lia | |].
  { apply (staged_weaken 4 5); [lia | lia | apply staged_safe_generate_llm_response]. }
  intros [llm_response llm_error].
  apply (staged_bind 6 8 8); [lia | lia | |].
  { apply (staged_weaken 7 8); [lia | lia | apply staged_safe_generate_tts]. }
  intros [audio_url tts_error]. silent.
Qed.

Lemma staged_agent_chat E session_id file : staged 1 8 (agent_chat E session_id file).
Proof.
  unfold agent_chat. apply staged_try_except;
    [|first [apply on_exception_silent | apply rendered_on_exception_silent]].
  apply (staged_bind 1 0 8); [lia | lia | silent |]. intros contents.
  apply (staged_bind 1 2 8); [lia | lia | apply staged_safe_transcribe_audio |].
  intros [transcription transcribe_error].
  destruct (truthy_opt transcribe_error); [silent|].
  apply (staged_bind 3 2 8); [lia | lia | silent |]. intros known.
  apply (staged_bind 3 2 8); [lia | lia | destruct (negb known); silent |].
  intros _.
  apply (staged_bind 3 3 8); [lia | lia | by apply staged_append |]. intros _.
  apply (staged_bind 4 3 8); [lia | lia | silent |]. intros history.
  apply (staged_bind 4 5 8);
    [lia | lia | apply staged_safe_generate_llm_response |].
  intros [llm_response llm_error].
  apply (staged_bind 6 6 8); [lia | lia | by apply staged_append |]. intros _.
  apply (staged_bind 7 8 8); [lia | lia | apply staged_safe_generate_tts |].
  intros [audio_url tts_error].
  apply (staged_bind 9 8 8); [lia | lia | silent |]. intros history'. silent.
Qed.

Lemma staged_get_chat_history E session_id :
  staged 1 8 (get_chat_history E session_id).
Proof. apply staged_silent. intros w. by rewrite get_chat_history_run. Qed.

Lemma staged_clear_chat_history E session_id :
  staged 1 8 (clear_chat_history E session_id).
Proof. apply staged_silent. intros w. by rewrite clear_chat_history_run. Qed.

Lemma staged_create_new_session E : staged 1 8 (create_new_session E).
Proof.
  unfold create_new_session.
  apply staged_try_except; [silent | apply on_exception_silent].
Qed.

Lemma staged_health_check E : staged 1 8 (health_check E).
Proof. apply staged_silent. intros w. by rewrite health_check_run. Qed.

(** Numbers that increase strictly hold each value at most once. *)
Lemma ascending_above lo hi l k :
  (k < lo)%nat -> ascending lo hi l = true -> List.filter (Nat.eqb k) l = [].
Proof.
  revert lo. induction l as [|n l IH]; cbn [ascending List.filter]; [done|].
  intros lo Hk. rewrite !andb_true_iff, !Nat.leb_le. intros [[H1 H2] H3].
  destruct (Nat.eqb_spec k n) as [->|_]; [lia|].
  apply (IH (S n)); [lia | done].
Qed.

Lemma ascending_once lo hi l k :
  ascending lo hi l = true -> (length (List.filter (Nat.eqb k) l) <= 1)%nat.
Proof.
  revert lo. induction l as [|n l IH]; cbn [ascending List.filter]; [simpl; lia|].
  intros lo. rewrite !andb_true_iff, !Nat.leb_le. intros [[H1 H2] H3].
  destruct (Nat.eqb_spec k n) as [->|_]; [|by apply (IH (S n))].
  rewrite (ascending_above (S n) hi) by (lia || done). simpl. lia.
Qed.

Lemma calls_by_stage evs :
  length (generation_calls evs)
    = length (List.filter (Nat.eqb 4) (List.map stage evs))
  /\ length (model_inputs evs)
     = length (List.filter (Nat.eqb 5) (List.map stage evs))
  /\ length (synthesis_calls evs)
     = length (List.filter (Nat.eqb 7) (List.map stage evs)).
Proof.
  induction evs as [|ev evs (IH1 & IH2 & IH3)]; [done|].
  destruct ev; cbn [generation_calls model_inputs synthesis_calls List.map stage];
    try case_decide; cbn [List.filter Nat.eqb length]; rewrite ?IH1, ?IH2, ?IH3; done.
Qed.

(** X12: whatever the request and whatever the collaborators do, the calls
    of one request come in pipeline order and none is repeated:
    transcription, the user turn, generation, the assistant turn,
    synthesis, each helper before the collaborator behind it.  In
    particular the generation helper, the model and the synthesis helper are
    each called at most once per request: nothing is retried. *)
Theorem calls_in_pipeline_order E req w :
  exists evs,
    calls (snd (handle E req w)) = calls w ++ evs
    /\ ascending 1 8 (List.map stage evs) = true
    /\ (length (generation_calls evs) <= 1)%nat
    /\ (length (model_inputs evs) <= 1)%nat
    /\ (length (synthesis_calls evs) <= 1)%nat.
Proof.
  assert (H : staged 1 8 (handle E req)).
  { destruct req; cbn [handle]; try apply staged_rendered;
      first [ apply staged_generate_tts | apply staged_upload_audio
            | apply staged_transcribe_audio | apply staged_echo_tts
            | apply staged_llm_query | apply staged_llm_query_audio
            | apply staged_agent_chat | apply staged_get_chat_history
            | apply staged_clear_chat_history
            | apply staged_create_new_session | apply staged_health_check ]. }
  destruct (H w) as (evs & Hc & Ha). exists evs.
  split; [exact Hc|]. split; [exact Ha|].
  destruct (calls_by_stage evs) as (-> & -> & ->).
  repeat split; by apply (ascending_once 1 8).
Qed.

(** ** The session store under requests *)

(** An exchange is empty or one user turn followed by one assistant turn. *)
Lemma exchange_cases E file history :
  exchange E file history = []
  \/ exists transcription r,
       exchange E file history
       = [Turn (lit "user") transcription; Turn (lit "assistant") (Some r)].
Proof.
  unfold exchange.
  destruct (read file) as [contents|e]; [|by left].
  destruct (value_of (safe_transcribe_audio E contents))
    as [[transcription transcribe_error]|e]; [|by left].
  destruct (truthy_opt transcribe_error); [by left|].
  destruct (safe_generate_llm_response_cases E transcription (Some history))
    as (r & llm_error & -> & _ & _).
  right. by exists transcription, r.
Qed.

(** What a request does to the store: nothing, an exchange appended to one
    session, or one session deleted. *)
Lemma handle_store E req w :
  chat_histories (snd (handle E req w)) = chat_histories w
  \/ (exists session_id file transcription r,
        req = POST_agent_chat session_id file
        /\ chat_histories (snd (handle E req w))
           = <[session_id :=
                 transcript w session_id
                   ++ [Turn (lit "user") transcription;
                       Turn (lit "assistant") (Some r)]]> (chat_histories w))
  \/ (exists session_id,
        req = DELETE_history session_id
        /\ chat_histories (snd (handle E req w))
           = delete session_id (chat_histories w)).
Proof.
  assert (Hquiet : forall c : M reply, store_untouched c ->
            chat_histories (snd (c w)) = chat_histories w).
  { intros c Hc. by destruct (Hc w) as (evs & -> & _). }
  destruct req as [text|file|file|file|text|file|s file|s|s| |]; cbn [handle].
  - left. apply Hquiet, store_untouched_rendered, store_untouched_generate_tts.
  - left. apply Hquiet, store_untouched_upload_audio.
  - left. apply Hquiet, store_untouched_transcribe_audio.
  - left. apply Hquiet, store_untouched_rendered, store_untouched_echo_tts.
  - left. apply Hquiet, store_untouched_rendered, store_untouched_llm_query.
  - left. apply Hquiet, store_untouched_rendered, store_untouched_llm_query_audio.
  - assert (Hsnd : snd (rendered (agent_chat E s file) w)
                   = snd (agent_chat E s file w)).
    { unfold rendered, bind. by destruct (agent_chat E s file w) as [[r|e] w1]. }
    rewrite Hsnd.
    destruct (agent_chat_store E s file w) as (evs & -> & _).
    cbn [chat_histories].
    destruct (exchange_cases E file (transcript w s)) as [Hx | (tr & r & Hx)];
      rewrite Hx.
    + by left.
    + right. left. by exists s, file, tr, r.
  - left. apply Hquiet, store_untouched_rendered, store_untouched_get_chat_history.
  - right. right. exists s. unfold rendered, bind.
    by rewrite clear_chat_history_run.
  - left. apply Hquiet, store_untouched_rendered, store_untouched_create_new_session.
  - left. apply Hquiet, store_untouched_rendered, store_untouched_health_check.
Qed.

(** X14: sessions are isolated.  A request changes no session other than
    the one it names: a chat request or a deletion for one session leaves
    every other session exactly as it was, present or absent, and the other
    endpoints leave all of them so. *)
Theorem other_sessions_unchanged E req session_id w :
  written_session req <> Some session_id ->
  chat_histories (snd (handle E req w)) !! session_id
  = chat_histories w !! session_id.
Proof.
  intros Hreq.
  destruct (handle_store E req w)
    as [-> | [(s & file & tr & r & -> & ->) | (s & -> & ->)]]; [done|..];
    simpl in Hreq.
  - rewrite lookup_insert_ne; [done | congruence].
  - rewrite lookup_delete_ne; [done | congruence].
Qed.

Lemma other_sessions_unchanged_witness :
  let w := snd (agent_chat env_ok (lit "s2") sample_file initial) in
  written_session (POST_agent_chat (lit "s1") sample_file) <> Some (lit "s2")
  /\ chat_histories (snd (handle env_ok (POST_agent_chat (lit "s1") sample_file) w))
       !! lit "s2"
     = chat_histories w !! lit "s2".
Proof.
  intros w.
  assert (H : written_session (POST_agent_chat (lit "s1") sample_file)
              <> Some (lit "s2")) by discriminate.
  split; [exact H|].
  apply (other_sessions_unchanged env_ok (POST_agent_chat (lit "s1") sample_file)
           (lit "s2") w H).
Defined.

Lemma alternating_app h1 h2 :
  alternating h1 = true -> alternating h2 = true -> alternating (h1 ++ h2) = true.
Proof.
  revert h1. fix IH 1. intros [|u [|a h1]]; simpl; [done | discriminate |].
  rewrite !andb_true_iff. intros [[Hu Ha] Hh] H2.
  repeat split; [done | done |]. by apply IH.
Qed.

(** X15: in every state the service can reach from the empty store, the
    transcript of every session is a sequence of exchanges, each a turn of
    role ["user"] followed by a turn of role ["assistant"]; so it has even
    length and never holds a question without its answer. *)
Theorem transcripts_alternate reqs session_id :
  alternating (transcript (serve reqs initial) session_id) = true
  /\ Nat.even (length (transcript (serve reqs initial) session_id)) = true.
Proof.
  assert (Heven : forall h, alternating h = true -> Nat.even (length h) = true).
  { fix IH 1. intros [|u [|a h]]; simpl; [done | discriminate |].
    rewrite !andb_true_iff. intros [_ Hh]. by apply IH. }
  assert (Hinv : forall w,
            (forall s, alternating (transcript w s) = true) ->
            forall s, alternating (transcript (serve reqs w) s) = true).
  { induction reqs as [|[E req] reqs IH]; intros w Hw; [exact Hw|].
    cbn [serve]. apply IH. intros s. unfold transcript.
    destruct (handle_store E req w)
      as [-> | [(s' & file & tr & r & _ & ->) | (s' & _ & ->)]].
    - apply Hw.
    - destruct (decide (s' = s)) as [->|Hne].
      + rewrite lookup_insert_eq. simpl.
        apply alternating_app; [apply Hw | reflexivity].
      + rewrite lookup_insert_ne by done. apply Hw.
    - destruct (decide (s' = s)) as [->|Hne].
      + by rewrite lookup_delete_eq.
      + rewrite lookup_delete_ne by done. apply Hw. }
  assert (H : alternating (transcript (serve reqs initial) session_id) = true).
  { apply Hinv. intros s. unfold transcript, initial. simpl.
    by rewrite lookup_empty. }
  split; [exact H | by apply Heven].
Qed.

(** X16: deleting a history forgets it, whatever the store held.  After
    [DELETE /agent/chat/{session_id}/history] the session is absent from
    the store and reading its history finds no turn: the answer is status
    200 with the empty list when the session id can be encoded as UTF-8,
    and status 500 with [error = true] when it cannot.  A chat request
    that follows (with a successful transcription [t]) starts afresh: the
    generation helper is called with [t] and an empty history, and the
    session then holds exactly the two turns of that request. *)
Theorem delete_then_chat_starts_afresh E E' session_id file contents t w :
  read file = Returns contents ->
  value_of (safe_transcribe_audio E' contents) = Returns (Some t, None) ->
  let w1 := snd (clear_chat_history E session_id w) in
  let w2 := snd (agent_chat E' session_id file w1) in
  chat_histories w1 !! session_id = None
  /\ (exists resp,
        get_chat_history E session_id w1 = (Returns resp, w1)
        /\ (encodable session_id = true ->
            resp = {| body := [ "session_id" =: VStr session_id;
                                "chat_history" =: VList [];
                                "error" =: VBool false ];
                      status_code := 200 |})
        /\ (encodable session_id = false ->
            status_code resp = 500%nat
            /\ dict_get "error" (body resp) = Some (VBool true)))
  /\ exists r evs,
       calls w2 = calls w1 ++ evs
       /\ generation_calls evs = [(Some t, Some [])]
       /\ transcript w2 session_id
          = [Turn (lit "user") (Some t); Turn (lit "assistant") (Some r)].
Proof.
  intros Hread Hstt w1 w2.
  assert (Hgone : chat_histories w1 !! session_id = None).
  { unfold w1. rewrite clear_chat_history_run. apply lookup_delete_eq. }
  assert (Hempty : transcript w1 session_id = []).
  { unfold transcript. by rewrite Hgone. }
  split; [exact Hgone|]. split.
  { eexists. rewrite get_chat_history_run, Hempty.
    split; [reflexivity|].
    match goal with |- context [answer _ ?c _] =>
      destruct (answer_cases (lit "general") c 200) as [Hok Hfail] end.
    cbn [value_encodable history_value List.map] in Hok, Hfail.
    split.
    - intros Henc. apply Hok. by rewrite Henc.
    - intros Henc. rewrite Henc in Hfail.
      destruct (Hfail eq_refl) as (H1 & H2 & _). by split. }
  destruct (safe_generate_llm_response_cases E' (Some t)
              (Some (transcript w1 session_id)))
    as (r & llm_error & Hllm & _ & _).
  assert (Htts : exists u te,
             value_of (safe_generate_tts E' (Some r)) = Returns (u, te)).
  { destruct (safe_generate_tts_cases E' (Some r))
      as [(u & _ & H) | (e & H)]; eauto. }
  destruct Htts as (audio_url & tts_error & Htts).
  exists r. eexists. unfold w2.
  rewrite (agent_chat_run _ _ _ _ _ _ _ _ _ _ _ Hread Hstt eq_refl Hllm Htts).
  cbn [snd calls]. split; [reflexivity|].
  destruct (agent_chat_log E' session_id contents (Some t)
              (transcript w1 session_id) r) as (Hg & _ & _).
  rewrite Hg, transcript_insert, Hempty. by split.
Qed.

Lemma delete_then_chat_starts_afresh_witness :
  let w := snd (agent_chat env_ok (lit "s1") sample_file initial) in
  let w1 := snd (clear_chat_history env_ok (lit "s1") w) in
  let w2 := snd (agent_chat env_tts_down (lit "s1") sample_file w1) in
  read sample_file = Returns sample_audio
  /\ value_of (safe_transcribe_audio env_tts_down sample_audio)
     = Returns (Some (lit "hello"), None)
  /\ chat_histories w1 !! lit "s1" = None
  /\ encodable (lit "s1") = true
  /\ get_chat_history env_ok (lit "s1") w1
     = (Returns {| body := [ "session_id" =: VStr (lit "s1");
                             "chat_history" =: VList [];
                             "error" =: VBool false ];
                   status_code := 200 |}, w1)
  /\ exists r evs,
       calls w2 = calls w1 ++ evs
       /\ generation_calls evs = [(Some (lit "hello"), Some [])]
       /\ transcript w2 (lit "s1")
          = [Turn (lit "user") (Some (lit "hello")); Turn (lit "assistant") (Some r)].
Proof.
  intros w w1 w2. do 2 (split; [reflexivity|]).
  destruct (delete_then_chat_starts_afresh env_ok env_tts_down (lit "s1")
              sample_file sample_audio (lit "hello") w eq_refl eq_refl)
    as (Hgone & (resp & Hget & Hok & _) & Hchat).
  split; [exact Hgone|]. split; [reflexivity|].
  split; [by rewrite <- (Hok eq_refl) | exact Hchat].
Defined.

(** X17: what a chat request reports is what the history endpoint then
    returns.  After a chat request with a successful transcription that was
    answered with status 200, [GET /agent/chat/{session_id}/history]
    answers with status 200, [error = false] and the very [chat_history]
    the chat response carried, without changing the state.  When the chat
    response could not be rendered, the chat request was answered with
    status 500 and an error body. *)
Theorem history_after_chat E E' session_id file contents t w :
  read file = Returns contents ->
  value_of (safe_transcribe_audio E contents) = Returns (Some t, None) ->
  exists resp w1,
    agent_chat E session_id file w = (Returns resp, w1)
    /\ (status_code resp = 200%nat \/
        (status_code resp = 500%nat
         /\ dict_get "error" (body resp) = Some (VBool true)))
    /\ (status_code resp = 200%nat ->
        exists history,
          dict_get "chat_history" (body resp) = Some history
          /\ history = history_value (transcript w1 session_id)
          /\ get_chat_history E' session_id w1 =
               (Returns {| body := [ "session_id" =: VStr session_id;
                                     "chat_history" =: history;
                                     "error" =: VBool false ];
                           status_code := 200 |}, w1)).
Proof.
  intros Hread Hstt.
  destruct (safe_generate_llm_response_cases E (Some t)
              (Some (transcript w session_id)))
    as (r & llm_error & Hllm & _ & _).
  assert (Htts : exists u te,
             value_of (safe_generate_tts E (Some r)) = Returns (u, te)).
  { destruct (safe_generate_tts_cases E (Some r))
      as [(u & _ & H) | (e & H)]; eauto. }
  destruct Htts as (audio_url & tts_error & Htts).
  eexists _, _.
  split; [apply (agent_chat_run _ _ _ _ _ _ _ _ _ _ _ Hread Hstt eq_refl Hllm Htts)|].
  match goal with |- context [answer _ ?c _] => set (content := c) end.
  destruct (value_encodable (VDict content)) eqn:Henc.
  - rewrite (answer_rendered _ content) by exact Henc.
    split; [by left|]. intros _. eexists.
    split; [reflexivity|]. rewrite transcript_insert. split; [reflexivity|].
    rewrite get_chat_history_run, transcript_insert.
    rewrite answer_rendered; [reflexivity|].
    unfold content in Henc. cbn [app value_encodable of_opt] in Henc.
    rewrite !andb_true_iff in Henc.
    destruct Henc as (_ & _ & Hs & Hh & _).
    cbn [value_encodable]. by rewrite Hs, Hh.
  - destruct (answer_failed (lit "general") content 200 Henc) as (msg & _ & ->).
    split; [by right|]. discriminate.
Qed.

Lemma history_after_chat_witness :
  read sample_file = Returns sample_audio
  /\ value_of (safe_transcribe_audio env_llm_tts_down sample_audio)
     = Returns (Some (lit "hello"), None)
  /\ exists resp w1,
    agent_chat env_llm_tts_down (lit "s1") sample_file initial = (Returns resp, w1)
    /\ status_code resp = 200%nat
    /\ exists history,
         dict_get "chat_history" (body resp) = Some history
         /\ history = history_value (transcript w1 (lit "s1"))
         /\ get_chat_history env_ok (lit "s1") w1 =
              (Returns {| body := [ "session_id" =: VStr (lit "s1");
                                    "chat_history" =: history;
                                    "error" =: VBool false ];
                          status_code := 200 |}, w1).
Proof.
  do 2 (split; [reflexivity|]).
  destruct (history_after_chat env_llm_tts_down env_ok (lit "s1") sample_file
              sample_audio (lit "hello") initial eq_refl eq_refl)
    as (resp & w1 & Hrun & _ & Hget).
  exists resp, w1. split; [exact Hrun|].
  assert (Hstatus : status_code resp = 200%nat).
  { vm_compute in Hrun. by injection Hrun as <- _. }
  split; [exact Hstatus | exact (Hget Hstatus)].
Defined.

(** ** Failures that carry a reason *)

(** X18: when transcription fails with a non-empty reason [e], each of the
    three pipelines that start with transcription stops there: it answers
    with status 500 and [error = true], calls neither the generation nor
    the synthesis stage, and leaves the session store as it was; a chat
    request does not even create its session.  The answer is the error body
    of type ["stt"] carrying [e] whenever [e] can be encoded as UTF-8. *)
Theorem failed_transcription_stops_the_pipeline E session_id file contents e w :
  read file = Returns contents ->
  value_of (safe_transcribe_audio E contents) = Returns (None, Some e) ->
  truthy e = true ->
  exists resp,
    let stopped :=
      (Returns resp,
       World (chat_histories w)
         (calls w ++ calls_of (safe_transcribe_audio E contents))) in
    echo_tts E file w = stopped
    /\ llm_query_audio E file w = stopped
    /\ agent_chat E session_id file w = stopped
    /\ status_code resp = 500%nat
    /\ dict_get "error" (body resp) = Some (VBool true)
    /\ (encodable e = true ->
        resp = {| body := [ "error" =: VBool true;
                            "error_type" =: VStr (lit "stt");
                            "message" =: VStr e;
                            "fallback_message" =:
                              VStr (lit "I'm having trouble hearing you right now. Could you please try again?");
                            "audio_url" =: VNone ];
                  status_code := 500 |})
    /\ forallb (fun ev => negb (later_stage ev))
         (calls_of (safe_transcribe_audio E contents)) = true
    /\ chat_histories (snd (agent_chat E session_id file w)) !! session_id
       = chat_histories w !! session_id.
Proof.
  intros Hread Hstt He.
  destruct (transcription_failure_aborts E session_id file contents e w
              Hread Hstt He) as (H1 & H2 & H3 & H4).
  eexists. cbv zeta.
  split; [exact H1|]. split; [exact H2|]. split; [exact H3|].
  destruct (answer_cases (lit "general")
              (create_fallback_response (Some e) (lit "stt")) 500)
    as [Hok Hfail].
  destruct (value_encodable (VDict (create_fallback_response (Some e) (lit "stt"))))
    eqn:Henc.
  - rewrite (Hok eq_refl). split; [done|]. split; [done|].
    split; [done|]. split; [exact H4|]. by rewrite H3.
  - destruct (Hfail eq_refl) as (Hs & Herr & _).
    split; [exact Hs|]. split; [exact Herr|]. split.
    + intros Hee. exfalso. revert Henc.
      unfold create_fallback_response. cbn [value_encodable of_opt].
      by rewrite Hee.
    + split; [exact H4|]. by rewrite H3.
Qed.

Lemma failed_transcription_stops_the_pipeline_witness :
  let E := sample_env (Raises (lit "upload failed")) (generated (lit "hi there"))
             (spoken sample_url) in
  read sample_file = Returns sample_audio
  /\ value_of (safe_transcribe_audio E sample_audio)
     = Returns (None, Some (lit "upload failed"))
  /\ truthy (lit "upload failed") = true
  /\ exists resp,
    let stopped :=
      (Returns resp,
       World (chat_histories initial)
         (calls initial ++ calls_of (safe_transcribe_audio E sample_audio))) in
    echo_tts E sample_file initial = stopped
    /\ llm_query_audio E sample_file initial = stopped
    /\ agent_chat E (lit "s1") sample_file initial = stopped
    /\ status_code resp = 500%nat
    /\ dict_get "error" (body resp) = Some (VBool true)
    /\ (encodable (lit "upload failed") = true ->
        resp = {| body := [ "error" =: VBool true;
                            "error_type" =: VStr (lit "stt");
                            "message" =: VStr (lit "upload failed");
                            "fallback_message" =:
                              VStr (lit "I'm having trouble hearing you right now. Could you please try again?");
                            "audio_url" =: VNone ];
                  status_code := 500 |})
    /\ forallb (fun ev => negb (later_stage ev))
         (calls_of (safe_transcribe_audio E sample_audio)) = true
    /\ chat_histories (snd (agent_chat E (lit "s1") sample_file initial)) !! lit "s1"
       = chat_histories initial !! lit "s1".
Proof.
  intros E. do 3 (split; [reflexivity|]).
  apply (failed_transcription_stops_the_pipeline E (lit "s1") sample_file
           sample_audio (lit "upload failed") initial); reflexivity.
Defined.

(** X19: the generate-only operation without a Gemini key.  The model is
    not called, and for every text that is not blank the handler builds the
    status-200 response with [error = false], the first fallback sentence
    as response and [has_fallback = true]; it is the answer whenever the
    text can be encoded as UTF-8, and otherwise the answer is status 500
    with an error body of type ["llm"]. *)
Theorem llm_query_without_key E text w :
  truthy_opt (GEMINI_API_KEY E) = false ->
  truthy (strip text) = true ->
  exists resp,
    llm_query E text w =
      (Returns resp,
       World (chat_histories w)
         (calls w ++ [Call_safe_generate_llm_response (Some text) None]))
    /\ (encodable text = true ->
        resp = {| body := [ "response" =: VStr (lit "I apologize, but I'm having trouble processing your request right now. Could you please try again?");
                            "input" =: VStr text;
                            "error" =: VBool false;
                            "has_fallback" =: VBool true ];
                  status_code := 200 |})
    /\ (encodable text = false ->
        status_code resp = 500%nat
        /\ dict_get "error" (body resp) = Some (VBool true)
        /\ dict_get "error_type" (body resp) = Some (VStr (lit "llm"))).
Proof.
  intros Hkey Htext.
  assert (Hllm : safe_generate_llm_response E (Some text) None initial
                 = (Returns (fallback_response_0,
                             Some (lit "Gemini API key not configured")),
                    World ∅ [Call_safe_generate_llm_response (Some text) None])).
  { unfold safe_generate_llm_response, try_except, bind, log_call, raise, ret.
    cbn [fst snd]. by rewrite Hkey. }
  rewrite (llm_query_run E text fallback_response_0
             (Some (lit "Gemini API key not configured")) w Htext)
    by (unfold value_of; by rewrite Hllm).
  unfold calls_of. rewrite Hllm.
  replace (truthy_opt (Some (lit "Gemini API key not configured")))
    with true by reflexivity.
  replace (truthy_opt fallback_response_0) with true by reflexivity.
  cbn [andb negb]. eexists. split; [reflexivity|].
  match goal with |- context [answer _ ?c _] =>
    destruct (answer_cases (lit "llm") c 200) as [Hok Hfail] end.
  split.
  - intros Henc. apply Hok. cbn [value_encodable of_opt]. by rewrite Henc.
  - intros Henc. apply Hfail. cbn [value_encodable of_opt]. by rewrite Henc.
Qed.

Lemma llm_query_without_key_witness :
  let E := {| MURF_API_KEY := Some (lit "murf-key");
              ASSEMBLYAI_API_KEY := Some (lit "assemblyai-key");
              GEMINI_API_KEY := Some [];
              transcribe := fun _ => heard (lit "hello");
              generate_content := fun _ => generated (lit "hi there");
              post := fun _ => spoken sample_url;
              repr := fun s => s;
              open_write := fun _ _ => Returns tt;
              uuid4 := [] |} in
  truthy_opt (GEMINI_API_KEY E) = false
  /\ truthy (strip (lit " tell me a joke ")) = true
  /\ encodable (lit " tell me a joke ") = true
  /\ llm_query E (lit " tell me a joke ") initial =
    (Returns {| body := [ "response" =: VStr (lit "I apologize, but I'm having trouble processing your request right now. Could you please try again?");
                          "input" =: VStr (lit " tell me a joke ");
                          "error" =: VBool false;
                          "has_fallback" =: VBool true ];
                status_code := 200 |},
     World (chat_histories initial)
       (calls initial
          ++ [Call_safe_generate_llm_response (Some (lit " tell me a joke ")) None])).
Proof.
  intros E. do 3 (split; [reflexivity|]).
  destruct (llm_query_without_key E (lit " tell me a joke ") initial
              eq_refl eq_refl) as (resp & Hrun & Hok & _).
  by rewrite <- (Hok eq_refl).
Defined.





(** ** The shape of every answer *)

(** The error response of an [except] clause: it is rendered exactly when
    the text of the exception can be encoded. *)
Lemma on_exception_run error_type e w :
  encodable error_type = true ->
  on_exception error_type e w
  = (if encodable e
     then Returns {| body := create_fallback_response (Some e) error_type;
                     status_code := 500 |}
     else match render_error (create_fallback_response (Some e) error_type) with
          | Some msg => Raises msg
          | None => Raises []
          end, w)
  /\ (encodable e = false ->
      exists msg,
        render_error (create_fallback_response (Some e) error_type) = Some msg).
Proof.
  intros Hty. unfold on_exception, new_JSONResponse.
  destruct (encodable e) eqn:He.
  - rewrite create_fallback_response_renders by done. by split.
  - destruct (render_error (create_fallback_response (Some e) error_type))
      as [msg|] eqn:Hr; [split; [done | eauto]|].
    exfalso. apply render_error_None in Hr. revert Hr.
    unfold create_fallback_response. cbn [value_encodable of_opt].
    rewrite He. by destruct (encodable error_type).
Qed.

(** An answer is well formed when the response it was to give is. *)
Lemma answer_well_formed error_type content status :
  well_formed {| body := content; status_code := status |} = true ->
  well_formed (answer error_type content status) = true
  /\ (status_code (answer error_type content status) = 400%nat ->
      status = 400%nat).
Proof.
  intros H. unfold answer.
  destruct (render_error content); cbn [status_code]; [|done].
  split; [reflexivity | discriminate].
Qed.

(** [POST /tts/echo] once the transcription check has let the request
    through. *)
Lemma echo_tts_run E file contents transcription transcribe_error
    audio_url tts_error w :
  read file = Returns contents ->
  value_of (safe_transcribe_audio E contents)
    = Returns (transcription, transcribe_error) ->
  truthy_opt transcribe_error = false ->
  value_of (safe_generate_tts E transcription) = Returns (audio_url, tts_error) ->
  echo_tts E file w =
    (Returns
       (if truthy_opt tts_error
        then match transcription with
             | Some t =>
                 answer (lit "general")
                   [ "transcription" =: VStr t;
                     "error" =: VBool true;
                     "error_type" =: VStr (lit "tts");
                     "message" =: of_opt tts_error;
                     "fallback_message" =:
                       VStr ((lit "I heard you say: " ++ t)
                               ++ lit " (Audio generation failed)");
                     "audio_url" =: VNone ] 200
             | None =>
                 {| body := create_fallback_response (Some concat_None_msg)
                              (lit "general");
                    status_code := 500 |}
             end
        else answer (lit "general")
               [ "audio_url" =: of_opt audio_url;
                 "transcription" =: of_opt transcription;
                 "error" =: VBool false ] 200),
     World (chat_histories w)
       (calls w ++ calls_of (safe_transcribe_audio E contents)
          ++ calls_of (safe_generate_tts E transcription))).
Proof.
  intros Hread Hstt Hok Htts.
  unfold echo_tts.
  rewrite try_except_bind. unfold lift at 1. rewrite Hread.
  rewrite (try_except_bind_stateless _ _ _ _
             (safe_transcribe_audio_stateless E contents)), Hstt.
  rewrite Hok.
  rewrite (try_except_bind_stateless _ _ _ _
             (safe_generate_tts_stateless E transcription)), Htts.
  cbn [chat_histories calls]. rewrite <- app_assoc.
  destruct (truthy_opt tts_error).
  - rewrite try_except_bind.
    destruct transcription as [t|]; unfold add at 1.
    + unfold ret at 1. by rewrite respond_run by apply encodable_lit.
    + unfold raise at 1.
      destruct (on_exception_run (lit "general") concat_None_msg
                  (World (chat_histories w)
                     (calls w ++ calls_of (safe_transcribe_audio E contents)
                        ++ calls_of (safe_generate_tts E None)))
                  (encodable_lit _)) as [-> _].
      reflexivity.
  - by rewrite respond_run by apply encodable_lit.
Qed.

(** The three pipelines that start by reading an upload. *)
Lemma pipeline_shape E session_id file w :
  let shaped (result : outcome JSONResponse * world) :=
    match fst result with
    | Returns r => well_formed r = true /\ status_code r <> 400%nat
    | Raises msg => exists e, read file = Raises e /\ encodable e = false
    end in
  shaped (echo_tts E file w)
  /\ shaped (llm_query_audio E file w)
  /\ shaped (agent_chat E session_id file w).
Proof.
  intros shaped.
  destruct (read file) as [contents|e] eqn:Hread.
  - destruct (safe_transcribe_audio_verdict E contents)
      as (transcription & transcribe_error & Hstt & Hfail).
    destruct (truthy_opt transcribe_error) eqn:Hterr.
    + destruct (Hfail eq_refl) as (e & -> & -> & He).
      destruct (transcription_failure_aborts E session_id file contents e w
                  Hread Hstt He) as (-> & -> & -> & _).
      assert (Hs : shaped
                (Returns (answer (lit "general")
                            (create_fallback_response (Some e) (lit "stt")) 500),
                 World (chat_histories w)
                   (calls w ++ calls_of (safe_transcribe_audio E contents)))).
      { unfold shaped. cbn [fst].
        destruct (answer_well_formed (lit "general")
                    (create_fallback_response (Some e) (lit "stt")) 500 eq_refl)
          as [Hwf H400].
        split; [exact Hwf|]. intros H. by apply H400 in H. }
      split; [exact Hs | split; exact Hs].
    + destruct (safe_generate_llm_response_cases E transcription None)
        as (r1 & e1 & Hllm1 & _ & _).
      destruct (safe_generate_llm_response_cases E transcription
                  (Some (transcript w session_id)))
        as (r2 & e2 & Hllm2 & _ & _).
      assert (Htts : forall text, exists u te,
                 value_of (safe_generate_tts E text) = Returns (u, te)).
      { intros text. destruct (safe_generate_tts_cases E text)
          as [(u & _ & H) | (e & H)]; eauto. }
      destruct (Htts transcription) as (u0 & te0 & Htts0).
      destruct (Htts (Some r1)) as (u1 & te1 & Htts1).
      destruct (Htts (Some r2)) as (u2 & te2 & Htts2).
      rewrite (echo_tts_run _ _ _ _ _ _ _ w Hread Hstt Hterr Htts0).
      rewrite (llm_query_audio_run _ _ _ _ _ _ _ _ _ w Hread Hstt Hterr
                 Hllm1 Htts1).
      rewrite (agent_chat_run _ session_id _ _ _ _ _ _ _ _ w Hread Hstt Hterr
                 Hllm2 Htts2).
      unfold shaped. cbn [fst].
      assert (Hans : forall content,
                dict_get "error" content = Some (VBool false)
                \/ dict_get "error" content = Some (VBool true) ->
                well_formed (answer (lit "general") content 200) = true
                /\ status_code (answer (lit "general") content 200) <> 400%nat).
      { intros content Herr.
        destruct (answer_well_formed (lit "general") content 200)
          as [Hwf H400].
        - unfold well_formed. cbn [body status_code].
          by destruct Herr as [-> | ->].
        - split; [exact Hwf|]. intros H. by apply H400 in H. }
      split; [|split].
      * destruct (truthy_opt te0); [destruct transcription as [t|]|].
        -- apply Hans. by right.
        -- by split.
        -- apply Hans. by left.
      * apply Hans. left. by destruct (truthy_opt te1), (truthy_opt e1).
      * apply Hans. left. by destruct (truthy_opt te2), (truthy_opt e2).
  - assert (Hecho : echo_tts E file w = on_exception (lit "general") e w).
    { unfold echo_tts. rewrite try_except_bind. unfold lift at 1.
      by rewrite Hread. }
    assert (Hqa : llm_query_audio E file w = on_exception (lit "general") e w).
    { unfold llm_query_audio. rewrite try_except_bind. unfold lift at 1.
      by rewrite Hread. }
    assert (Hchat : agent_chat E session_id file w
                    = on_exception (lit "general") e w).
    { unfold agent_chat. rewrite try_except_bind. unfold lift at 1.
      by rewrite Hread. }
    rewrite Hecho, Hqa, Hchat.
    destruct (on_exception_run (lit "general") e w (encodable_lit _))
      as [-> Hmsg].
    assert (Hs : shaped
              (if encodable e
               then Returns {| body := create_fallback_response (Some e) (lit "general");
                               status_code := 500 |}
               else match render_error
                            (create_fallback_response (Some e) (lit "general")) with
                    | Some msg => Raises msg
                    | None => Raises []
                    end, w)).
    { unfold shaped. cbn [fst]. destruct (encodable e) eqn:He; [by split|].
      destruct (Hmsg eq_refl) as (msg & ->). by exists e. }
    split; [exact Hs | split; exact Hs].
Qed.

(** The error response of the handlers that return a plain dict on
    success. *)
Lemma rendered_on_exception_run error_type e w :
  encodable error_type = true ->
  match fst (rendered (on_exception error_type e) w) with
  | Returns (Rendered r) => well_formed r = true /\ status_code r <> 400%nat
  | Returns (Plain _) => False
  | Raises _ => encodable e = false
  end.
Proof.
  intros Hty. unfold rendered, bind.
  destruct (on_exception_run error_type e w Hty) as [-> Hmsg].
  destruct (encodable e) eqn:He; cbn [fst ret]; [by split|].
  by destruct (Hmsg eq_refl) as (msg & ->).
Qed.

(** X13: the shape of every answer.  A response that a handler builds has
    status 200, 400 or 500 and a boolean [error] in its body, which is true
    whenever the status is not 200; status 400 is given only by [POST /tts]
    and [POST /llm/query], and only for a text that is empty or all
    whitespace.  A plain dict is returned only by [POST /upload] and
    [POST /transcribe/file], with [error = false].  An exception (of class
    [Exception]) leaves a handler in one case only: reading the upload, or
    writing it to disk for [POST /upload], raised an exception whose text
    cannot be encoded as UTF-8, so that the error response of the [except]
    clause could not be rendered. *)
Theorem answers_are_well_formed E req w :
  match fst (handle E req w) with
  | Returns (Rendered r) =>
      well_formed r = true
      /\ (status_code r = 400%nat ->
          exists text,
            (req = POST_tts text \/ req = POST_llm_query text)
            /\ forallb isspace text = true)
  | Returns (Plain d) =>
      dict_get "error" d = Some (VBool false)
      /\ exists file, req = POST_upload file \/ req = POST_transcribe_file file
  | Raises msg =>
      exists e, upload_failure E req = Some e /\ encodable e = false
  end.
Proof.
  assert (Hrendered : forall (c : M JSONResponse),
            match fst (c w) with
            | Returns r => well_formed r = true /\ status_code r <> 400%nat
            | Raises msg =>
                exists e, upload_failure E req = Some e /\ encodable e = false
            end ->
            match fst (rendered c w) with
            | Returns (Rendered r) =>
                well_formed r = true
                /\ (status_code r = 400%nat ->
                    exists text,
                      (req = POST_tts text \/ req = POST_llm_query text)
                      /\ forallb isspace text = true)
            | Returns (Plain d) =>
                dict_get "error" d = Some (VBool false)
                /\ exists file,
                     req = POST_upload file \/ req = POST_transcribe_file file
            | Raises msg =>
                exists e, upload_failure E req = Some e /\ encodable e = false
            end).
  { intros c Hc. unfold rendered, bind.
    destruct (c w) as [[r|msg] w1]; cbn [fst ret] in *; [|exact Hc].
    destruct Hc as [Hwf H400]. split; [exact Hwf|]. intros H. by destruct H400. }
  assert (Hans : forall error_type content,
            well_formed {| body := content; status_code := 200 |} = true ->
            well_formed (answer error_type content 200) = true
            /\ status_code (answer error_type content 200) <> 400%nat).
  { intros ty content Hc.
    destruct (answer_well_formed ty content 200 Hc) as [Hwf H400].
    split; [exact Hwf|]. intros H. by apply H400 in H. }
  destruct req as [text|file|file|file|text|file|s file|s|s| |]; cbn [handle].
  - (* POST /tts *)
    unfold rendered, bind.
    destruct (truthy (strip text)) eqn:Htext.
    + assert (Htts : exists u te,
                 value_of (safe_generate_tts E (Some text)) = Returns (u, te)).
      { destruct (safe_generate_tts_cases E (Some text))
          as [(u & _ & H) | (e & H)]; eauto. }
      destruct Htts as (u & te & Htts).
      rewrite (generate_tts_run _ _ _ _ w Htext Htts). cbn [fst ret].
      destruct (truthy_opt te).
      * destruct (answer_well_formed (lit "tts")
                    (create_fallback_response te (lit "tts")) 500 eq_refl)
          as [Hwf H400].
        split; [exact Hwf|]. intros H. by apply H400 in H.
      * destruct (Hans (lit "tts")
                    [ "audio_url" =: of_opt u; "error" =: VBool false ] eq_refl)
          as [Hwf H400].
        split; [exact Hwf|]. intros H. by destruct H400.
    + assert (Hrun : generate_tts E text w
                     = (Returns {| body := create_fallback_response
                                             (Some (lit "Empty text provided"))
                                             (lit "tts");
                                   status_code := 400 |}, w)).
      { unfold generate_tts. rewrite Htext. cbn [negb].
        rewrite respond_run by apply encodable_lit.
        by rewrite answer_rendered by reflexivity. }
      rewrite Hrun. cbn [fst ret]. split; [reflexivity|].
      intros _. exists text. split; [by left | by apply strip_falsy_iff].
  - (* POST /upload *)
    unfold upload_failure. cbn [upload_of].
    unfold upload_audio. rewrite try_except_bind. unfold lift at 1.
    destruct (read file) as [contents|e] eqn:Hread.
    2:{ pose proof (rendered_on_exception_run (lit "general") e w
                      (encodable_lit _)) as H.
        destruct (fst (rendered (on_exception (lit "general") e) w))
          as [[r|d]|msg]; [|done|by exists e].
        destruct H as [Hwf H400]. split; [exact Hwf|]. intros H. by destruct H400. }
    rewrite try_except_bind. unfold log_call at 1.
    rewrite try_except_bind. unfold lift at 1.
    destruct (open_write E (filename file) contents) as [[]|e] eqn:Hopen.
    + unfold try_except, ret. cbn [fst]. split; [reflexivity|].
      exists file. by left.
    + match goal with |- context [rendered _ ?w'] =>
        pose proof (rendered_on_exception_run (lit "general") e w'
                      (encodable_lit _)) as H;
        destruct (fst (rendered (on_exception (lit "general") e) w'))
          as [[r|d]|msg] end; [|done|by exists e].
      destruct H as [Hwf H400]. split; [exact Hwf|]. intros H. by destruct H400.
  - (* POST /transcribe/file *)
    unfold upload_failure. cbn [upload_of].
    destruct (read file) as [contents|e] eqn:Hread.
    + destruct (safe_transcribe_audio_verdict E contents)
        as (transcription & transcribe_error & Hstt & _).
      rewrite (transcribe_audio_run _ _ _ _ _ w Hread Hstt). cbn [fst].
      destruct (truthy_opt transcribe_error).
      * destruct (answer_well_formed (lit "stt")
                    (create_fallback_response transcribe_error (lit "stt")) 500
                    eq_refl) as [Hwf H400].
        split; [exact Hwf|]. intros H. by apply H400 in H.
      * split; [reflexivity|]. exists file. by right.
    + unfold transcribe_audio. rewrite try_except_bind. unfold lift at 1.
      rewrite Hread.
      pose proof (rendered_on_exception_run (lit "stt") e w
                    (encodable_lit _)) as H.
      destruct (fst (rendered (on_exception (lit "stt") e) w))
        as [[r|d]|msg]; [|done|by exists e].
      destruct H as [Hwf H400]. split; [exact Hwf|]. intros H. by destruct H400.
  - (* POST /tts/echo *)
    apply Hrendered. unfold upload_failure. cbn [upload_of].
    destruct (pipeline_shape E [] file w) as (H & _ & _). cbv zeta in H.
    destruct (fst (echo_tts E file w)) as [r|msg]; [exact H|].
    destruct H as (e & -> & He). by exists e.
  - (* POST /llm/query *)
    unfold rendered, bind.
    destruct (truthy (strip text)) eqn:Htext.
    + destruct (safe_generate_llm_response_cases E (Some text) None)
        as (r & error & Hllm & Hr & _).
      rewrite (llm_query_run _ _ _ _ w Htext Hllm). cbn [fst ret].
      cbn [truthy_opt]. rewrite Hr, andb_false_r.
      destruct (Hans (lit "llm")
                  [ "response" =: of_opt (Some r);
                    "input" =: VStr text;
                    "error" =: VBool false;
                    "has_fallback" =:
                      VBool match error with
                            | Some s => truthy s
                            | None => false
                            end ] eq_refl) as [Hwf H400].
      split; [exact Hwf|]. intros H. by destruct H400.
    + assert (Hrun : llm_query E text w
                     = (Returns {| body := create_fallback_response
                                             (Some (lit "Empty text provided"))
                                             (lit "llm");
                                   status_code := 400 |}, w)).
      { unfold llm_query. rewrite Htext. cbn [negb].
        rewrite respond_run by apply encodable_lit.
        by rewrite answer_rendered by reflexivity. }
      rewrite Hrun. cbn [fst ret]. split; [reflexivity|].
      intros _. exists text. split; [by right | by apply strip_falsy_iff].
  - (* POST /llm/query/audio *)
    apply Hrendered. unfold upload_failure. cbn [upload_of].
    destruct (pipeline_shape E [] file w) as (_ & H & _). cbv zeta in H.
    destruct (fst (llm_query_audio E file w)) as [r|msg]; [exact H|].
    destruct H as (e & -> & He). by exists e.
  - (* POST /agent/chat *)
    apply Hrendered. unfold upload_failure. cbn [upload_of].
    destruct (pipeline_shape E s file w) as (_ & _ & H). cbv zeta in H.
    destruct (fst (agent_chat E s file w)) as [r|msg]; [exact H|].
    destruct H as (e & -> & He). by exists e.
  - (* GET history *)
    apply Hrendered. rewrite get_chat_history_run. cbn [fst].
    by apply Hans.
  - (* DELETE history *)
    apply Hrendered. rewrite clear_chat_history_run. cbn [fst].
    by apply Hans.
  - (* POST /agent/session/new *)
    apply Hrendered. unfold create_new_session.
    rewrite respond_run by apply encodable_lit. cbn [fst].
    by apply Hans.
  - (* GET /health *)
    apply Hrendered. rewrite health_check_run. cbn [fst]. by split.
Qed.
